(** * Dublin transit stress pipeline: scoring and aggregation

    A shallow embedding of the batch pipeline (temporal join, normalisers,
    composite scorer, free-flow table, segment snapping, polygon
    aggregation) together with the properties stated about it.

    Conventions of the embedding.
    - A pandas/numpy float column is a column of exact rationals ([Q]);
      a cell that may hold NaN/null is an [option Q] with [None] for NaN.
      Arithmetic on such cells propagates [None], comparisons with [None]
      are false, as in numpy.  Rounding of binary floating point is not
      modelled, every curve is read over the rationals; the exception is
      [delay_norm_vec], which asks for float32 and is also given with
      every operation rounded to binary32
      ([AddDelayNorm.delay_norm_f32]).
    - A data frame is the list of its rows, a row is a record.
    - Vectorised code (boolean masks and masked assignment) is written
      cell by cell: [out[m] = e] becomes [if m then e else out]. *)

From Stdlib Require Import QArith Qminmax Qround Qabs Qpower Lqa ZArith Lia.
From Stdlib Require Import List String Bool Permutation Sorted DecimalString.
Import ListNotations.

Open Scope Q_scope.

(* ------------------------------------------------------------------ *)
(** ** Numeric cells *)

Module Cell.

(** [x > y], [x < y], [x >= y] on floats, as booleans. *)
Definition leb (x y : Q) : bool := Qle_bool x y.
Definition ltb (x y : Q) : bool := negb (Qle_bool y x).
Definition geb (x y : Q) : bool := Qle_bool y x.
Definition gtb (x y : Q) : bool := negb (Qle_bool x y).

(** [Series.fillna(v)]. *)
Definition fillna (v : Q) (x : option Q) : Q :=
  match x with Some q => q | None => v end.

(** [np.clip(x, lo, hi)] = [minimum(maximum(x, lo), hi)]. *)
Definition clip (lo hi x : Q) : Q := Qmin (Qmax x lo) hi.

(** [Series.clip(lower=lo)]. *)
Definition clip_lower (lo x : Q) : Q := Qmax x lo.

(** NaN-propagating arithmetic. *)
Definition nmap (f : Q -> Q) (x : option Q) : option Q :=
  match x with Some q => Some (f q) | None => None end.

Definition nadd (x y : option Q) : option Q :=
  match x, y with Some a, Some b => Some (a + b) | _, _ => None end.

Definition nmul (w : Q) (x : option Q) : option Q := nmap (Qmult w) x.

(** Comparison of a nullable cell with a constant: NaN compares false. *)
Definition ngeb (x : option Q) (c : Q) : bool :=
  match x with Some q => geb q c | None => false end.

(** Equality of nullable cells up to [Qeq]. *)
Definition eqv (x y : option Q) : Prop :=
  match x, y with
  | Some a, Some b => a == b
  | None, None => True
  | _, _ => False
  end.

(** [bool.astype(float)]. *)
Definition of_bool (b : bool) : Q := if b then 1 else 0.

End Cell.

(* ------------------------------------------------------------------ *)
(** ** Binary32 arithmetic *)

Module F32.

(** A binary32 value: a finite number of the format or an infinity.  NaN
    does not arise where this is used: the input is filled, and every
    operation has a finite positive constant on one side. *)
Inductive t : Type :=
| Fin (q : Q)
| PInf
| NInf.

Definition pow2 (e : Z) : Q := 2 ^ e.

(** The exponent of a number that is not zero: [floor (log2 |q|)]. *)
Definition ilog2 (q : Q) : Z :=
  let e := (Z.log2 (Z.abs (Qnum q)) - Z.log2 (Zpos (Qden q)))%Z in
  if Qle_bool (pow2 e) (Qabs q) then e else (e - 1)%Z.

(** The nearest integer, ties to the even one. *)
Definition rne (x : Q) : Z :=
  let f := Qfloor x in
  match Qcompare (x - inject_Z f) (1 # 2) with
  | Lt => f
  | Gt => (f + 1)%Z
  | Eq => if Z.even f then f else (f + 1)%Z
  end.

(** Rounding to binary32, to nearest and ties to even: 24 significant
    bits, subnormals below [2^-126], an infinity from [2^128] on. *)
Definition round (q : Q) : t :=
  if Qeq_bool q 0 then Fin 0
  else
    let e := Z.max (ilog2 q) (-126) in
    let ulp := pow2 (e - 23) in
    let r := Qred (inject_Z (rne (q / ulp)) * ulp) in
    if Qle_bool (pow2 128) (Qabs r)
    then if Qle_bool 0 q then PInf else NInf
    else Fin r.

(** A Python scalar next to a float32 array: the scalar as a binary32. *)
Definition const (c : Q) : Q :=
  match round c with Fin r => r | _ => c end.

(** An operation that grows with its argument, rounded. *)
Definition lift (f : Q -> Q) (x : t) : t :=
  match x with
  | Fin q => round (f q)
  | PInf => PInf
  | NInf => NInf
  end.

(** [x / c], [x - c], [c * x] and [c + x] for a positive constant. *)
Definition div (x : t) (c : Q) : t := lift (fun q => q / const c) x.
Definition sub (x : t) (c : Q) : t := lift (fun q => q - const c) x.
Definition mul (c : Q) (x : t) : t := lift (fun q => const c * q) x.
Definition add (c : Q) (x : t) : t := lift (fun q => const c + q) x.

(** [np.minimum(x, c)], [x <= c], [x > c] and [x.clip(lo, hi)]. *)
Definition minimum (x : t) (c : Q) : t :=
  match x with
  | Fin q => Fin (Qmin q c)
  | PInf => Fin c
  | NInf => NInf
  end.

Definition leb (x : t) (c : Q) : bool :=
  match x with
  | Fin q => Qle_bool q c
  | PInf => false
  | NInf => true
  end.

Definition gtb (x : t) (c : Q) : bool :=
  match x with
  | Fin q => negb (Qle_bool q c)
  | PInf => true
  | NInf => false
  end.

Definition clip (lo hi : Q) (x : t) : Q :=
  match x with
  | Fin q => Qmin (Qmax q lo) hi
  | PInf => hi
  | NInf => lo
  end.

End F32.


(* ------------------------------------------------------------------ *)
(** ** Frame operations shared by the stages *)

Module Frame.

Section Sorting.
Context {A : Type} (le : A -> A -> bool).

Fixpoint insert (x : A) (l : list A) : list A :=
  match l with
  | [] => [x]
  | y :: r => if le x y then x :: l else y :: insert x r
  end.

(** [sort_values]: a stable insertion sort by [le]. *)
Fixpoint sort_by (l : list A) : list A :=
  match l with
  | [] => []
  | x :: r => insert x (sort_by r)
  end.
End Sorting.

(** Distinct values in order of first appearance. *)
Fixpoint uniq {A : Type} (eqb : A -> A -> bool) (l : list A) : list A :=
  match l with
  | [] => []
  | x :: r => x :: filter (fun y => negb (eqb x y)) (uniq eqb r)
  end.

(** Non-null values of a column. *)
Definition dropna (l : list (option Q)) : list Q :=
  flat_map (fun x => match x with Some v => [v] | None => [] end) l.

End Frame.

(** Outcome of a stage's [main]: skipped because the output exists,
    aborted with [sys.exit] on a missing input, or a table written. *)
Inductive outcome (T : Type) : Type :=
| Skipped
| Exit (msg : string)
| Wrote (table : T).
Arguments Skipped {T}.
Arguments Exit {T} msg.
Arguments Wrote {T} table.

(** One vehicle-minute as the normalisation chain receives it
    (veh_minute_w_vanished.parquet). *)
Record veh_minute : Type := {
  vehicle_id    : string;
  trip_id       : string;
  route_id      : string;
  direction_id  : Z;
  timestamp     : Z;
  lat           : Q;
  lon           : Q;
  speed_kph     : option Q;
  delay_sec     : option Q;
  rain_mm       : option Q;
  temp_c        : option Q;
  vanish_anchor : bool
}.

(* ------------------------------------------------------------------ *)
(** ** norm_codes/add_delay_norm.py *)

Module AddDelayNorm.
Import Cell.

(** [d]: the delay in minutes, nulls filled with 0. *)
Definition minutes (delay_sec : option Q) : Q := fillna 0 delay_sec / 60.0.

(** One cell of [delay_norm_vec], read over the rationals. *)
Definition delay_norm_cell (delay_sec : option Q) : Q :=
  let d := minutes delay_sec in
  let out := 0 in
  let m1 := leb d 5 in
  let m2 := gtb d 5 && leb d 15 in
  let m3 := gtb d 15 in
  let out := if m1 then 0.30 * (d / 5) else out in
  let out := if m2 then 0.30 + 0.40 * ((d - 5) / 10) else out in
  let out := if m3 then 0.70 + 0.30 * (Qmin (d - 15) 45 / 45) else out in
  clip 0 1 out.

Definition delay_norm_vec (delay_sec : list (option Q)) : list Q :=
  map delay_norm_cell delay_sec.

(** One cell of [delay_norm_vec] as NumPy evaluates it: the delay cast
    to float32, and every operation on the float32 arrays rounded to
    binary32, the Python constants with it. *)
Definition delay_norm_f32 (delay_sec : option Q) : Q :=
  let d := F32.div (F32.round (fillna 0 delay_sec)) 60.0 in
  let out := F32.Fin 0 in
  let m1 := F32.leb d 5 in
  let m2 := F32.gtb d 5 && F32.leb d 15 in
  let m3 := F32.gtb d 15 in
  let out := if m1 then F32.mul 0.30 (F32.div d 5) else out in
  let out :=
    if m2 then F32.add 0.30 (F32.mul 0.40 (F32.div (F32.sub d 5) 10))
    else out in
  let out :=
    if m3
    then F32.add 0.70
           (F32.mul 0.30 (F32.div (F32.minimum (F32.sub d 15) 45) 45))
    else out in
  F32.clip 0 1 out.

Record row : Type := {
  base       : veh_minute;
  delay_norm : Q
}.

Definition add_delay_norm (df : list veh_minute) : list row :=
  map (fun r => {| base := r; delay_norm := delay_norm_cell (delay_sec r) |}) df.

Definition main (out_exists overwrite in_exists : bool)
    (df : list veh_minute) : outcome (list row) :=
  if out_exists && negb overwrite then Skipped
  else if negb in_exists then Exit "missing input"
  else Wrote (add_delay_norm df).

End AddDelayNorm.

(* ------------------------------------------------------------------ *)
(** ** norm_codes/add_speed_norm.py *)

Module AddSpeedNorm.
Import Cell.

(** A row of the free-flow lookup (freeflow_95pct.parquet). *)
Record free_row : Type := {
  f_route_id     : string;
  f_direction_id : Z;
  free_kph       : Q
}.

Definition same_key (r : AddDelayNorm.row) (f : free_row) : bool :=
  String.eqb (route_id (AddDelayNorm.base r)) (f_route_id f)
  && Z.eqb (direction_id (AddDelayNorm.base r)) (f_direction_id f).

(** [df.merge(free, on=["route_id","direction_id"], how="left")]: every
    left row once per matching lookup row, or once with a null
    [free_kph] when nothing matches. *)
Definition merge_left (df : list AddDelayNorm.row) (free : list free_row)
    : list (AddDelayNorm.row * option Q) :=
  flat_map (fun r =>
    match filter (same_key r) free with
    | [] => [(r, None)]
    | ms => map (fun f => (r, Some (free_kph f))) ms
    end) df.

(** The speed_norm cell of one merged row. *)
Definition speed_norm_cell (speed_kph free_kph : option Q) : option Q :=
  let moving := ngeb speed_kph 5 in
  let out := Some 0.0 in
  if moving then
    match speed_kph with
    | Some s =>
        let ratio := nmap (fun f => 1 - s / clip_lower 1e-3 f) free_kph in
        nmap (clip 0 1) ratio
    | None => out
    end
  else out.

Record row : Type := {
  base       : AddDelayNorm.row;
  free       : option Q;
  speed_norm : option Q
}.

Definition add_speed_norm (df : list AddDelayNorm.row)
    (free : list free_row) : list row :=
  map (fun rf =>
         let r := AddDelayNorm.base (fst rf) in
         {| base := fst rf; free := snd rf;
            speed_norm := speed_norm_cell (speed_kph r) (snd rf) |})
      (merge_left df free).

Definition main (out_exists overwrite in_exists free_exists : bool)
    (df : list AddDelayNorm.row) (free : list free_row)
    : outcome (list row) :=
  if out_exists && negb overwrite then Skipped
  else if negb in_exists || negb free_exists then Exit "missing input"
  else Wrote (add_speed_norm df free).

End AddSpeedNorm.

(** The lookup has a row for the (route, direction) of [r]. *)
Definition has_free_entry (free : list AddSpeedNorm.free_row)
    (r : AddDelayNorm.row) : Prop :=
  exists e, In e free /\ AddSpeedNorm.same_key r e = true.

(* ------------------------------------------------------------------ *)
(** ** norm_codes/add_weather_norm.py *)

Module AddWeatherNorm.
Import Cell.

Definition rain_norm (r_mm : option Q) : Q :=
  clip 0 1 (fillna 0 r_mm / 3.0).

Definition heat_norm (temp_c : option Q) : Q :=
  let t := fillna 18 temp_c in
  let out := 0 in
  let m1 := gtb t 18 && leb t 21 in
  let m2 := gtb t 21 && leb t 24 in
  let m3 := gtb t 24 && leb t 27 in
  let m4 := gtb t 27 in
  let out := if m1 then 0.30 * (t - 18) / 3 else out in
  let out := if m2 then 0.30 + 0.40 * (t - 21) / 3 else out in
  let out := if m3 then 0.70 + 0.30 * (t - 24) / 3 else out in
  let out := if m4 then 1.00 else out in
  out.

Definition cold_norm (temp_c : option Q) : Q :=
  let t := fillna 15 temp_c in
  let out := 0 in
  let mask1 := ltb t 10 && geb t 5 in
  let mask2 := ltb t 5 && geb t 0 in
  let mask3 := ltb t 0 in
  let out := if mask1 then 0.30 * (10 - t) / 5 else out in
  let out := if mask2 then 0.30 + 0.40 * (5 - t) / 5 else out in
  let out := if mask3 then 0.70 + 0.30 * Qmin (- t) 5 / 5 else out in
  out.

Record row : Type := {
  base      : AddSpeedNorm.row;
  rain_norm_col : Q;
  heat_norm_col : Q;
  cold_norm_col : Q
}.

Definition veh (r : AddSpeedNorm.row) : veh_minute :=
  AddDelayNorm.base (AddSpeedNorm.base r).

Definition add_weather_norm (df : list AddSpeedNorm.row) : list row :=
  map (fun r =>
         {| base := r;
            rain_norm_col := rain_norm (rain_mm (veh r));
            heat_norm_col := heat_norm (temp_c (veh r));
            cold_norm_col := cold_norm (temp_c (veh r)) |}) df.

Definition main (out_exists overwrite in_exists : bool)
    (df : list AddSpeedNorm.row) : outcome (list row) :=
  if out_exists && negb overwrite then Skipped
  else if negb in_exists then Exit "missing input"
  else Wrote (add_weather_norm df).

End AddWeatherNorm.

(* ------------------------------------------------------------------ *)
(** ** norm_codes/add_stress_score.py *)

Module AddStressScore.
Import Cell.

Record weights : Type := {
  delay  : Q;
  speed  : Q;
  rain   : Q;
  heat   : Q;
  cold   : Q;
  vanish : Q
}.

(** The module-level table [W]. *)
Definition W : weights :=
  {| delay := 0.30; speed := 0.30; rain := 0.00;
     heat := 0.15; cold := 0.00; vanish := 0.25 |}.

Definition weight_sum (w : weights) : Q :=
  delay w + speed w + rain w + heat w + cold w + vanish w.

(** The weighted sum on the columns of one row. *)
Definition row_stress_cell (w : weights)
    (delay_norm : Q) (speed_norm : option Q)
    (rain_norm heat_norm cold_norm : Q) (vanish_anchor : bool)
    : option Q :=
  nadd (nadd (nadd (nadd (nadd
    (Some (delay w * delay_norm))
    (nmul (speed w) speed_norm))
    (Some (rain w * rain_norm)))
    (Some (heat w * heat_norm)))
    (Some (cold w * cold_norm)))
    (Some (vanish w * of_bool vanish_anchor)).

Record row : Type := {
  base       : AddWeatherNorm.row;
  row_stress : option Q
}.

Definition score_row (w : weights) (r : AddWeatherNorm.row) : row :=
  let ds := AddWeatherNorm.base r in
  let d  := AddSpeedNorm.base ds in
  {| base := r;
     row_stress :=
       row_stress_cell w
         (AddDelayNorm.delay_norm d)
         (AddSpeedNorm.speed_norm ds)
         (AddWeatherNorm.rain_norm_col r)
         (AddWeatherNorm.heat_norm_col r)
         (AddWeatherNorm.cold_norm_col r)
         (vanish_anchor (AddDelayNorm.base d)) |}.

Definition add_stress_score (w : weights) (df : list AddWeatherNorm.row)
    : list row :=
  map (score_row w) df.

(** [main]: it reads no weights, the table is the constant [W]. *)
Definition main (out_exists overwrite in_exists : bool)
    (df : list AddWeatherNorm.row) : outcome (list row) :=
  if out_exists && negb overwrite then Skipped
  else if negb in_exists then Exit "missing input"
  else Wrote (add_stress_score W df).

End AddStressScore.

(** The normalisation chain on one day's table, stage after stage. *)
Definition score_day (df : list veh_minute)
    (free : list AddSpeedNorm.free_row) : list AddStressScore.row :=
  AddStressScore.add_stress_score AddStressScore.W
    (AddWeatherNorm.add_weather_norm
       (AddSpeedNorm.add_speed_norm
          (AddDelayNorm.add_delay_norm df) free)).

(* ------------------------------------------------------------------ *)
(** ** norm_codes/build_freeflow.py *)

Module BuildFreeflow.
Import Cell Frame.

Definition key : Type := (string * Z)%type.

Definition key_of (r : AddDelayNorm.row) : key :=
  (route_id (AddDelayNorm.base r), direction_id (AddDelayNorm.base r)).

Definition key_eqb (a b : key) : bool :=
  String.eqb (fst a) (fst b) && Z.eqb (snd a) (snd b).

(** Lexicographic order of the group keys, as [groupby] sorts them. *)
Definition key_leb (a b : key) : bool :=
  if String.eqb (fst a) (fst b) then Z.leb (snd a) (snd b)
  else String.ltb (fst a) (fst b).

(** [quantile(q)] of a group, linear interpolation: position
    [q * (n - 1)] in the ascending values, interpolated between its two
    neighbours when it is not an integer.  (On an empty group, which
    [groupby] never produces, pandas gives NaN; the default 0 stands
    there.) *)
Definition quantile (q : Q) (values : list Q) : Q :=
  let s := sort_by Qle_bool values in
  let n := Z.of_nat (List.length s) in
  let q_idx := q * inject_Z (n - 1) in
  let idx := Qfloor q_idx in
  let frac := q_idx - inject_Z idx in
  let val := nth (Z.to_nat idx) s 0 in
  if Qeq_bool frac 0 then val
  else
    let next_val := nth (Z.to_nat (idx + 1)) s 0 in
    val + (next_val - val) * frac.

(** [df[df["speed_kph"] >= 10]]. *)
Definition moving (df : list AddDelayNorm.row) : list AddDelayNorm.row :=
  filter (fun r => ngeb (speed_kph (AddDelayNorm.base r)) 10) df.

(** The speeds of the group of key [k]. *)
Definition group_speeds (k : key) (df : list AddDelayNorm.row) : list Q :=
  dropna (map (fun r => speed_kph (AddDelayNorm.base r))
              (filter (fun r => key_eqb (key_of r) k) df)).

Definition group_keys (df : list AddDelayNorm.row) : list key :=
  sort_by key_leb (uniq key_eqb (map key_of df)).

(** The table [freeflow], from the concatenated daily files. *)
Definition freeflow (files : list (list AddDelayNorm.row))
    : list AddSpeedNorm.free_row :=
  let df := List.concat files in
  let df := moving df in
  map (fun k =>
         {| AddSpeedNorm.f_route_id := fst k;
            AddSpeedNorm.f_direction_id := snd k;
            AddSpeedNorm.free_kph := quantile 0.95 (group_speeds k df) |})
      (group_keys df).

(** A run of the script over the files its glob finds: [pd.concat] of no
    frame raises, before any table is computed or written. *)
Inductive run : Type :=
| RaiseNoObjects
| WroteTable (table : list AddSpeedNorm.free_row).

Definition main (files : list (list AddDelayNorm.row)) : run :=
  match files with
  | [] => RaiseNoObjects
  | _ => WroteTable (freeflow files)
  end.

End BuildFreeflow.

(* ------------------------------------------------------------------ *)
(** ** join_minute_with_weather.py *)

Module JoinMinuteWithWeather.
Import Frame.

(** A row of veh_minute.parquet. *)
Record vehicle : Type := {
  vehicle_id   : string;
  trip_id      : string;
  route_id     : string;
  direction_id : Z;
  timestamp    : Z;
  lat          : Q;
  lon          : Q;
  speed_kph    : option Q;
  delay_sec    : option Q
}.

(** A row of weather.parquet. *)
Record weather : Type := {
  w_zone      : string;
  w_timestamp : Z;
  rain_mm     : Q;
  temp_c      : Q
}.

Definition ZONES : list (string * (Q * Q)) :=
  [ ("north"%string,  (53.38, -6.26));
    ("centre"%string, (53.34, -6.26));
    ("south"%string,  (53.29, -6.26)) ].

(** [argmin] over a column of distances: the first smallest one. *)
Fixpoint argmin_from (best : string) (best_d : Q)
    (rest : list (string * Q)) : string :=
  match rest with
  | [] => best
  | (z, d) :: r =>
      if Cell.ltb d best_d then argmin_from z d r
      else argmin_from best best_d r
  end.

(** [dt.floor("min")] on epoch seconds. *)
Definition floor_min (ts : Z) : Z := (ts / 60 * 60)%Z.

(** [pd.Timedelta("7min30s")], in seconds. *)
Definition tolerance : Z := 450%Z.

(** Vehicle row with its [zone] and [minute] columns. *)
Record tagged : Type := {
  veh    : vehicle;
  zone   : string;
  minute : Z
}.

(** Weather row with its [minute] column. *)
Record stamped : Type := {
  obs      : weather;
  w_minute : Z
}.

Section Zones.
(** Great-circle distance in km; its trigonometry is left abstract. *)
Variable hav_km : Q -> Q -> Q -> Q -> Q.

Definition zone_of (la lo : Q) : string :=
  match map (fun z => (fst z, hav_km la lo (fst (snd z)) (snd (snd z))))
            ZONES with
  | [] => EmptyString
  | (z, d) :: r => argmin_from z d r
  end.

Definition tag (v : vehicle) : tagged :=
  {| veh := v; zone := zone_of (lat v) (lon v);
     minute := floor_min (timestamp v) |}.
End Zones.

Definition stamp (w : weather) : stamped :=
  {| obs := w; w_minute := floor_min (w_timestamp w) |}.

(** [merge_asof], backward search on a right table sorted by minute:
    advance while the right key is at most [t]; the candidate is the
    last row passed, dropped when older than the tolerance. *)
Fixpoint backward_scan (t : Z) (right : list stamped) : option stamped :=
  match right with
  | [] => None
  | x :: r =>
      if (w_minute x <=? t)%Z then
        match backward_scan t r with
        | Some y => Some y
        | None => Some x
        end
      else None
  end.

Definition backward (t : Z) (right : list stamped) : option stamped :=
  match backward_scan t right with
  | Some x => if (t - w_minute x >? tolerance)%Z then None else Some x
  | None => None
  end.

(** Forward search: the first right row whose key is at least [t],
    dropped when farther than the tolerance. *)
Fixpoint forward_scan (t : Z) (right : list stamped) : option stamped :=
  match right with
  | [] => None
  | x :: r => if (w_minute x <? t)%Z then forward_scan t r else Some x
  end.

Definition forward (t : Z) (right : list stamped) : option stamped :=
  match forward_scan t right with
  | Some x => if (w_minute x - t >? tolerance)%Z then None else Some x
  | None => None
  end.

(** [direction="nearest"]: of the two candidates the closer one, the
    backward one on a tie. *)
Definition nearest (t : Z) (right : list stamped) : option stamped :=
  match backward t right, forward t right with
  | Some b, Some f =>
      if (t - w_minute b <=? w_minute f - t)%Z then Some b else Some f
  | Some b, None => Some b
  | None, f => f
  end.

(** A row of the result: the vehicle columns and the matched weather
    row, if any.  The display column [datetime_ie] and the dropped helper
    columns ([timestamp_w], [zone_w], ...) are left out. *)
Record joined : Type := {
  left_row  : tagged;
  right_row : option stamped
}.

(** The appended weather columns; null when nothing matched. *)
Definition rain_mm_col (j : joined) : option Q :=
  option_map (fun s => rain_mm (obs s)) (right_row j).
Definition temp_c_col (j : joined) : option Q :=
  option_map (fun s => temp_c (obs s)) (right_row j).

Definition merge_asof (left : list tagged) (right : list stamped)
    : list joined :=
  map (fun l => {| left_row := l; right_row := nearest (minute l) right |})
      left.

Definition by_minute (a b : tagged) : bool := (minute a <=? minute b)%Z.
Definition by_w_minute (a b : stamped) : bool :=
  (w_minute a <=? w_minute b)%Z.

(** The order of a weather series sorted by minute. *)
Definition ascending (a b : stamped) : Prop := by_w_minute a b = true.

(** The loop over [v.groupby("zone", sort=False)] and the final
    [pd.concat]. *)
Definition join_zones (v : list tagged) (w : list stamped) : list joined :=
  List.concat
    (map (fun z =>
            let grp := filter (fun r => String.eqb (zone r) z) v in
            let w_z := sort_by by_w_minute
                         (filter (fun s => String.eqb (w_zone (obs s)) z) w) in
            merge_asof (sort_by by_minute grp) w_z)
         (uniq String.eqb (map zone v))).

Section Main.
Variable hav_km : Q -> Q -> Q -> Q -> Q.

Definition join (v : list vehicle) (w : list weather) : list joined :=
  join_zones (map (tag hav_km) v) (map stamp w).

Definition main (out_exists veh_exists wea_exists : bool)
    (v : list vehicle) (w : list weather) : outcome (list joined) :=
  if out_exists then Skipped
  else if negb veh_exists || negb wea_exists
  then Exit "missing veh_minute or weather parquet"
  else Wrote (join v w).
End Main.

End JoinMinuteWithWeather.

(* ------------------------------------------------------------------ *)
(** ** norm_codes/geo/segment_utils.py *)

Module SegmentUtils.
Import Cell.

(** A coordinate pair [(lon, lat)] of the frame's CRS, EPSG:4326: both
    components are in degrees. *)
Definition coord : Type := (Q * Q)%type.

(** A row of the segment cache: a two-point line. *)
Record segment : Type := {
  segment_id : string;
  p0 : coord;
  p1 : coord
}.

Definition sq (x : Q) : Q := x * x.

Definition dist_sq_points (a b : coord) : Q :=
  sq (fst a - fst b) + sq (snd a - snd b).

(** Square of the planar distance from a point to a two-point line, in
    the units of the coordinates: the distance to the foot of the
    perpendicular when it falls on the line, else to the nearer end. *)
Definition dist_sq (p : coord) (s : segment) : Q :=
  let dx := fst (p1 s) - fst (p0 s) in
  let dy := snd (p1 s) - snd (p0 s) in
  let len2 := sq dx + sq dy in
  if Qeq_bool len2 0 then dist_sq_points p (p0 s)
  else
    let t := ((fst p - fst (p0 s)) * dx + (snd p - snd (p0 s)) * dy) / len2 in
    let t := clip 0 1 t in
    dist_sq_points p (fst (p0 s) + t * dx, snd (p0 s) + t * dy).

Definition point_of (r : AddStressScore.row) : coord :=
  let v := AddWeatherNorm.veh (AddWeatherNorm.base (AddStressScore.base r)) in
  (lon v, lat v).

(** A row of [joined]: the minute, the matched [segment_id] and the
    square of its [dist_m] column (null when there is no segment). *)
Record snapped : Type := {
  minute_row : AddStressScore.row;
  nearest_id : option string;
  dist_m_sq  : option Q
}.

Definition min_dist_sq (p : coord) (segments : list segment) : option Q :=
  match segments with
  | [] => None
  | s :: r => Some (fold_left (fun m s' => Qmin m (dist_sq p s')) r (dist_sq p s))
  end.

(** [gpd.sjoin_nearest(pts, segments, how="left", distance_col="dist_m")]:
    each point with every segment at the smallest distance. *)
Definition sjoin_nearest (pts : list AddStressScore.row)
    (segments : list segment) : list snapped :=
  flat_map (fun r =>
    match min_dist_sq (point_of r) segments with
    | None => [ {| minute_row := r; nearest_id := None; dist_m_sq := None |} ]
    | Some d =>
        map (fun s => {| minute_row := r;
                         nearest_id := Some (segment_id s);
                         dist_m_sq := Some d |})
            (filter (fun s => Qeq_bool (dist_sq (point_of r) s) d) segments)
    end) pts.

(** [dist_m <= max_dist_m] on a distance given by its square: the
    distance is not negative, so the test is [0 <= max_dist_m] and
    [dist_m^2 <= max_dist_m^2]; a null distance fails it. *)
Definition within_max (max_dist_m : Q) (j : snapped) : bool :=
  match dist_m_sq j with
  | Some d => leb 0 max_dist_m && leb d (sq max_dist_m)
  | None => false
  end.

Definition snap_minutes_upto (max_dist_m : Q)
    (df_minute : list AddStressScore.row) (segments : list segment)
    : list snapped :=
  filter (within_max max_dist_m) (sjoin_nearest df_minute segments).

(** [snap_minutes] with its default [max_dist_m = 50]. *)
Definition snap_minutes := snap_minutes_upto 50.

End SegmentUtils.

(* ------------------------------------------------------------------ *)
(** ** app/app.py: polygon aggregation *)

Module App.
Import Cell Frame.

(** A float that may be infinite or NaN (the result of a division). *)
Inductive fval : Type :=
| Fin (q : Q)
| PInf
| NInf
| NaN.

(** Float division: [0/0] is NaN, [x/0] an infinity. *)
Definition fdiv (x y : Q) : fval :=
  if Qeq_bool y 0 then
    if Qeq_bool x 0 then NaN else if ltb 0 x then PInf else NInf
  else Fin (x / y).

Definition fval_fillna (v : Q) (x : fval) : fval :=
  match x with NaN => Fin v | _ => x end.

(** The columns [lat], [lon], [row_stress] of a scored table. *)
Record scored_point : Type := {
  lat        : option Q;
  lon        : option Q;
  row_stress : option Q
}.

(** [dropna(subset=["lat","lon"])], with the point built from the row. *)
Definition located (df : list scored_point) : list (Q * Q * option Q) :=
  flat_map (fun r =>
    match lat r, lon r with
    | Some la, Some lo => [ (lo, la, row_stress r) ]
    | _, _ => []
    end) df.

(** [Series.mean()] and [Series.max()] of a group, nulls skipped. *)
Definition mean (xs : list (option Q)) : option Q :=
  match dropna xs with
  | [] => None
  | v :: r => Some (fold_left Qplus r v / inject_Z (Z.of_nat (List.length (v :: r))))
  end.

Definition max (xs : list (option Q)) : option Q :=
  match dropna xs with
  | [] => None
  | v :: r => Some (fold_left Qmax r v)
  end.

(** [(s["row_stress"] > t).sum()]. *)
Definition count_above (t : Q) (xs : list (option Q)) : Q :=
  inject_Z (Z.of_nat (List.length
    (filter (fun x => match x with Some v => gtb v t | None => false end) xs))).

(** A Series indexed by [ed_id], and the value a left merge on that
    index brings to a key. *)
Definition series (T : Type) : Type := list (string * T).

Fixpoint lookup {T : Type} (id : string) (s : series T) : option T :=
  match s with
  | [] => None
  | (k, v) :: r => if String.eqb k id then Some v else lookup id r
  end.

Definition join_opt (x : option (option Q)) : option Q :=
  match x with Some v => v | None => None end.

Section Polygons.
Variable geometry : Type.
(** The predicate "within" of the spatial join, on [(lon, lat)]. *)
Variable within : Q * Q -> geometry -> bool.

Record ed : Type := {
  ed_id   : string;
  ed_name : string;
  geom    : geometry
}.

Record ed_row : Type := {
  poly     : ed;
  value    : fval;
  n        : Q;
  count_hi : Q;
  share_hi : fval
}.

(** What [ed_stress_agg] does: return [None], raise, or return a
    table. *)
Inductive result : Type :=
| ReturnNone
| Raise
| Return (rows : list ed_row).

(** [gpd.sjoin(pts, eds, how="left", predicate="within")]: the
    columns [row_stress] and [ed_id] of the join. *)
Definition sjoin (pts : list (Q * Q * option Q)) (eds : list ed)
    : list (option Q * option string) :=
  flat_map (fun p =>
    match filter (fun e => within (fst p) (geom e)) eds with
    | [] => [ (snd p, None) ]
    | ms => map (fun e => (snd p, Some (ed_id e))) ms
    end) pts.

(** The keys of [join.groupby("ed_id")]: null keys are dropped. *)
Definition group_ids (join : list (option Q * option string))
    : list string :=
  sort_by String.leb
    (uniq String.eqb
       (flat_map (fun j => match snd j with Some i => [i] | None => [] end)
                 join)).

Definition group_rows (id : string)
    (join : list (option Q * option string)) : list (option Q) :=
  map fst
    (filter (fun j => match snd j with
                      | Some i => String.eqb i id
                      | None => false
                      end) join).

Definition per_group {T : Type} (f : list (option Q) -> T)
    (join : list (option Q * option string)) : series T :=
  map (fun id => (id, f (group_rows id join))) (group_ids join).

(** [groupby(...).apply(f)]: over at least one group, the Series of
    the results; over no group at all pandas returns an empty frame
    with the columns of the input instead of a Series, and the
    [rename("count_hi")] and the selection of a column [count_hi]
    that follow cannot succeed. *)
Definition groupby_apply {T : Type} (f : list (option Q) -> T)
    (join : list (option Q * option string)) : option (series T) :=
  match group_ids join with
  | [] => None
  | _ => Some (per_group f join)
  end.

Definition size (xs : list (option Q)) : Q :=
  inject_Z (Z.of_nat (List.length xs)).

Definition zero_row (e : ed) : ed_row :=
  {| poly := e; value := Fin 0.0; n := 0; count_hi := 0;
     share_hi := Fin 0.0 |}.

Definition ed_stress_agg (eds : option (list ed))
    (days : list (list scored_point)) (metric : string)
    (thr : option Q) : result :=
  match eds with
  | None => ReturnNone
  | Some eds =>
      let df := located (List.concat days) in
      match df with
      | [] => Return (map zero_row eds)
      | _ =>
        let join := sjoin df eds in
        let n := per_group size join in
        if String.eqb metric "Avg" then
          let val := per_group mean join in
          Return (map (fun e =>
            {| poly := e;
               value := Fin (fillna 0.0 (join_opt (lookup (ed_id e) val)));
               n := fillna 0 (lookup (ed_id e) n);
               count_hi := 0; share_hi := Fin 0.0 |}) eds)
        else if String.eqb metric "Max" then
          let val := per_group max join in
          Return (map (fun e =>
            {| poly := e;
               value := Fin (fillna 0.0 (join_opt (lookup (ed_id e) val)));
               n := fillna 0 (lookup (ed_id e) n);
               count_hi := 0; share_hi := Fin 0.0 |}) eds)
        else
          let t := match thr with None => 0.50 | Some x => x end in
          match groupby_apply (count_above t) join with
          | None => Raise
          | Some count_hi =>
              Return (map (fun e =>
                let n_e := fillna 0 (lookup (ed_id e) n) in
                let c_e := fillna 0 (lookup (ed_id e) count_hi) in
                let share := fval_fillna 0.0 (fdiv c_e n_e) in
                {| poly := e; value := share; n := n_e;
                   count_hi := c_e; share_hi := share |}) eds)
          end
      end
  end.

(** The points of the days' tables that the join assigns to a
    polygon identifier. *)
Definition assigned (eds : list ed) (days : list (list scored_point))
    (id : string) : list (option Q) :=
  group_rows id (sjoin (located (List.concat days)) eds).

End Polygons.

End App.

(* ------------------------------------------------------------------ *)
(** ** Sample data *)

Module Samples.

(** A vehicle-minute 15 minutes late, moving at 20 km/h, dry, 18 degrees. *)
Definition late_minute (anchor : bool) : veh_minute :=
  {| vehicle_id := "v1"; trip_id := "t1"; route_id := "r46a";
     direction_id := 0%Z; timestamp := 1752570000%Z;
     lat := 53.34; lon := -6.26;
     speed_kph := Some 20; delay_sec := Some 900;
     rain_mm := Some 0; temp_c := Some 18;
     vanish_anchor := anchor |}.

(** The same minute on a route the lookup does not know. *)
Definition unknown_route_minute : veh_minute :=
  {| vehicle_id := "v2"; trip_id := "t2"; route_id := "r999";
     direction_id := 1%Z; timestamp := 1752570060%Z;
     lat := 53.35; lon := -6.25;
     speed_kph := Some 20; delay_sec := Some 900;
     rain_mm := Some 0; temp_c := Some 18;
     vanish_anchor := false |}.

Definition free_46a : AddSpeedNorm.free_row :=
  {| AddSpeedNorm.f_route_id := "r46a";
     AddSpeedNorm.f_direction_id := 0%Z;
     AddSpeedNorm.free_kph := 40 |}.

Definition free_table : list AddSpeedNorm.free_row := [free_46a].

(** Speed history of one (route, direction): 5, 30, 10, 20 km/h and a
    minute without speed, over two daily files. *)
Definition at_speed (v : option Q) : AddDelayNorm.row :=
  {| AddDelayNorm.base :=
       {| vehicle_id := "v1"; trip_id := "t1"; route_id := "r46a";
          direction_id := 0%Z; timestamp := 1752570000%Z;
          lat := 53.34; lon := -6.26;
          speed_kph := v; delay_sec := None;
          rain_mm := None; temp_c := None; vanish_anchor := false |};
     AddDelayNorm.delay_norm := 0 |}.

Definition history : list (list AddDelayNorm.row) :=
  [ [at_speed (Some 5); at_speed (Some 30)];
    [at_speed (Some 10); at_speed None; at_speed (Some 20)] ].

(** A planar stand-in for the great-circle distance. *)
Definition grid_km (la lo zla zlo : Q) : Q :=
  (la - zla) * (la - zla) + (lo - zlo) * (lo - zlo).

(** A vehicle in the city centre at 09:00:10 UTC. *)
Definition centre_bus : JoinMinuteWithWeather.vehicle :=
  {| JoinMinuteWithWeather.vehicle_id := "v1";
     JoinMinuteWithWeather.trip_id := "t1";
     JoinMinuteWithWeather.route_id := "r46a";
     JoinMinuteWithWeather.direction_id := 0%Z;
     JoinMinuteWithWeather.timestamp := 1752570010%Z;
     JoinMinuteWithWeather.lat := 53.34;
     JoinMinuteWithWeather.lon := -6.26;
     JoinMinuteWithWeather.speed_kph := Some 20;
     JoinMinuteWithWeather.delay_sec := None |}.

Definition reading (z : string) (ts : Z) (rain temp : Q)
    : JoinMinuteWithWeather.weather :=
  {| JoinMinuteWithWeather.w_zone := z;
     JoinMinuteWithWeather.w_timestamp := ts;
     JoinMinuteWithWeather.rain_mm := rain;
     JoinMinuteWithWeather.temp_c := temp |}.

(** Readings: centre 10 minutes before and 5 minutes after the bus
    minute, north at the very minute. *)
Definition readings : list JoinMinuteWithWeather.weather :=
  [ reading "north" 1752570000 2 11;
    reading "centre" 1752569400 0 15;
    reading "centre" 1752570300 1 16 ].

(** Readings of the centre zone only 10 minutes away. *)
Definition late_readings : list JoinMinuteWithWeather.weather :=
  [ reading "north" 1752570000 2 11;
    reading "centre" 1752569400 0 15 ].

(** A scored minute at a given position. *)
Definition scored_at (lo la : Q) : AddStressScore.row :=
  let m := {| vehicle_id := "v1"; trip_id := "t1"; route_id := "r46a";
              direction_id := 0%Z; timestamp := 1752570000%Z;
              lat := la; lon := lo;
              speed_kph := Some 20; delay_sec := Some 900;
              rain_mm := Some 0; temp_c := Some 18;
              vanish_anchor := false |} in
  AddStressScore.score_row AddStressScore.W
    {| AddWeatherNorm.base :=
         {| AddSpeedNorm.base :=
              {| AddDelayNorm.base := m;
                 AddDelayNorm.delay_norm :=
                   AddDelayNorm.delay_norm_cell (delay_sec m) |};
            AddSpeedNorm.free := Some 40;
            AddSpeedNorm.speed_norm :=
              AddSpeedNorm.speed_norm_cell (speed_kph m) (Some 40) |};
       AddWeatherNorm.rain_norm_col := AddWeatherNorm.rain_norm (rain_mm m);
       AddWeatherNorm.heat_norm_col := AddWeatherNorm.heat_norm (temp_c m);
       AddWeatherNorm.cold_norm_col := AddWeatherNorm.cold_norm (temp_c m) |}.

(** A street segment along latitude 53.34, and a point one hundredth of
    a degree of latitude (more than a kilometre) north of it. *)
Definition street : SegmentUtils.segment :=
  {| SegmentUtils.segment_id := "s1_0";
     SegmentUtils.p0 := (-6.26, 53.34);
     SegmentUtils.p1 := (-6.25, 53.34) |}.

Definition far_minute : AddStressScore.row := scored_at (-6.26) 53.35.

(** Axis-parallel boxes [(west, south, east, north)] as polygons. *)
Definition box : Type := (Q * Q * Q * Q)%type.

Definition in_box (p : Q * Q) (b : box) : bool :=
  match b with
  | (west, south, east, north) =>
      Cell.ltb west (fst p) && Cell.ltb (fst p) east
      && Cell.ltb south (snd p) && Cell.ltb (snd p) north
  end.

Definition city_ed : App.ed box :=
  {| App.ed_id := "ED1"; App.ed_name := "City";
     App.geom := (-6.30, 53.30, -6.20, 53.40) |}.

Definition harbour_ed : App.ed box :=
  {| App.ed_id := "ED2"; App.ed_name := "Harbour";
     App.geom := (-6.20, 53.30, -6.10, 53.40) |}.

Definition pt (la lo stress : Q) : App.scored_point :=
  {| App.lat := Some la; App.lon := Some lo;
     App.row_stress := Some stress |}.

(** One day whose only point lies outside both polygons, and one day
    with two points in the city polygon. *)
Definition day_outside : list App.scored_point := [ pt 53.00 (-6.26) 0.6 ].
Definition day_city : list App.scored_point :=
  [ pt 53.34 (-6.26) 0.6; pt 53.35 (-6.25) 0.4 ].

End Samples.

(* ------------------------------------------------------------------ *)
(** ** Keys of the free-flow lookup *)

(** The (route, direction) keys of a lookup table, row by row. *)
Definition free_keys (free : list AddSpeedNorm.free_row)
    : list BuildFreeflow.key :=
  map (fun e => (AddSpeedNorm.f_route_id e, AddSpeedNorm.f_direction_id e))
      free.

(* ------------------------------------------------------------------ *)
(** ** join_daily.py *)

Module JoinDaily.

(** A row of vehicles.parquet.  Identifiers, timestamp and position are
    taken as present; the speed may be null. *)
Record vehicle_sample : Type := {
  vehicle_id   : string;
  trip_id      : string;
  direction_id : Z;
  timestamp    : Z;
  lat          : Q;
  lon          : Q;
  speed_kph    : option Q
}.

(** A row of the trips lookup, and of delay.parquet. *)
Record trip : Type := {
  t_trip_id  : string;
  t_route_id : string
}.

Record delay_row : Type := {
  d_trip_id   : string;
  d_timestamp : Z;
  d_delay_sec : option Q
}.

(** A row of veh_minute.parquet. *)
Record row : Type := {
  sample    : vehicle_sample;
  route_id  : option string;
  ts_min    : Z;
  delay_sec : option Q
}.

(** [(timestamp // 60) * 60]. *)
Definition floor60 (ts : Z) : Z := (ts / 60 * 60)%Z.

(** [veh.merge(trips, on="trip_id", how="left")]. *)
Definition attach_route (veh : list vehicle_sample) (trips : list trip)
    : list (vehicle_sample * option string) :=
  flat_map (fun v =>
    match filter (fun t => String.eqb (trip_id v) (t_trip_id t)) trips with
    | [] => [ (v, None) ]
    | ms => map (fun t => (v, Some (t_route_id t))) ms
    end) veh.

(** [delay.set_index(["trip_id","ts_min"])["delay_sec"]]. *)
Definition d_lookup (delay : list delay_row)
    : list (BuildFreeflow.key * option Q) :=
  map (fun d => ((d_trip_id d, floor60 (d_timestamp d)), d_delay_sec d)) delay.

Fixpoint lookup (k : BuildFreeflow.key)
    (s : list (BuildFreeflow.key * option Q)) : option (option Q) :=
  match s with
  | [] => None
  | (k', v) :: r => if BuildFreeflow.key_eqb k' k then Some v else lookup k r
  end.

Fixpoint distinct (ks : list BuildFreeflow.key) : bool :=
  match ks with
  | [] => true
  | k :: r => negb (existsb (BuildFreeflow.key_eqb k) r) && distinct r
  end.

(** [index.map(d_lookup)]: the value of the Series at each key, null
    where the key is absent; mapping through a Series whose index has a
    repeated key is refused by pandas. *)
Definition index_map (keys : list BuildFreeflow.key)
    (s : list (BuildFreeflow.key * option Q)) : option (list (option Q)) :=
  if distinct (map fst s) then
    Some (map (fun k => match lookup k s with
                        | Some v => v
                        | None => None
                        end) keys)
  else None.

Inductive run : Type :=
| Skip
| ExitMissing
| RaiseInvalidIndex
| WroteTable (rows : list row).

Definition join_daily (veh : list vehicle_sample) (delay : list delay_row)
    (trips : list trip) : run :=
  let veh := attach_route veh trips in
  let keys := map (fun vr => (trip_id (fst vr), floor60 (timestamp (fst vr))))
                  veh in
  match index_map keys (d_lookup delay) with
  | None => RaiseInvalidIndex
  | Some col =>
      WroteTable
        (map (fun vd => {| sample := fst (fst vd); route_id := snd (fst vd);
                           ts_min := floor60 (timestamp (fst (fst vd)));
                           delay_sec := snd vd |})
             (combine veh col))
  end.

Definition main (out_exists overwrite veh_exists del_exists trips_exists : bool)
    (veh : list vehicle_sample) (delay : list delay_row) (trips : list trip)
    : run :=
  if out_exists && negb overwrite then Skip
  else if negb veh_exists || negb del_exists || negb trips_exists
  then ExitMissing
  else join_daily veh delay trips.

End JoinDaily.

(* ------------------------------------------------------------------ *)
(** ** nightly_etl.py *)

Module NightlyEtl.
Import Frame.

Inductive label : Type := vehicles | weather | delay.

(** [EXPECTED]: files per day. *)
Definition EXPECTED (l : label) : nat :=
  match l with
  | vehicles => 24 * 60 / 1
  | weather  => 24 * 60 / 15
  | delay    => 24 * 60 / 1
  end.

(** The two day folders [main] looks at. *)
Record folders : Type := {
  raw_day  : bool;
  hist_day : bool
}.

Inductive run : Type :=
| NothingToDo
| ExitNoRaw
| Done (written : list label).

(** One turn of the loop over the labels: is the label's parquet
    written, given the number of its CSV files? *)
Definition written (allow_partial : bool) (n_files : label -> nat)
    (l : label) : bool :=
  if (n_files l =? 0)%nat then false
  else if (n_files l <? EXPECTED l)%nat && negb allow_partial then false
  else true.

(** [main]: the outcome and the folders it leaves. *)
Definition main (allow_partial : bool) (st : folders)
    (n_files : label -> nat) : run * folders :=
  if hist_day st then (NothingToDo, st)
  else if negb (raw_day st) then (ExitNoRaw, st)
  else (Done (filter (written allow_partial n_files)
                     [vehicles; weather; delay]),
        {| raw_day := raw_day st; hist_day := true |}).

(** A raw vehicle sample: the CSV dumps carry positions and timestamps
    and no speed column of their own. *)
Record sample : Type := {
  vehicle_id : string;
  timestamp  : Z;
  lat        : Q;
  lon        : Q
}.

(** [sort_values(["vehicle_id","timestamp"])]. *)
Definition by_vehicle_time (a b : sample) : bool :=
  if String.eqb (vehicle_id a) (vehicle_id b)
  then (timestamp a <=? timestamp b)%Z
  else String.ltb (vehicle_id a) (vehicle_id b).

(** [groupby("vehicle_id").shift()]: each row with the row of the same
    vehicle just before it in the frame, if any.  [seen] holds the rows
    already passed, latest first. *)
Fixpoint with_prev (seen : list sample) (df : list sample)
    : list (sample * option sample) :=
  match df with
  | [] => []
  | r :: rest =>
      (r, find (fun p => String.eqb (vehicle_id p) (vehicle_id r)) seen)
      :: with_prev (r :: seen) rest
  end.

Section Speed.
(** Great-circle distance in metres; its trigonometry is left abstract. *)
Variable haversine : Q -> Q -> Q -> Q -> Q.

(** [(dist / dt_s) * 3.6] with [dt_s] clipped below at 1 second; null
    where there is no previous row. *)
Definition speed_of (r : sample) (prev : option sample) : option Q :=
  match prev with
  | None => None
  | Some p =>
      let dist := haversine (lat p) (lon p) (lat r) (lon r) in
      let dt_s := Cell.clip_lower 1 (inject_Z (timestamp r - timestamp p)) in
      Some (dist / dt_s * 3.6)
  end.

Definition add_speed (df : list sample) : list (sample * option Q) :=
  map (fun rp => (fst rp, speed_of (fst rp) (snd rp)))
      (with_prev [] (sort_by by_vehicle_time df)).
End Speed.

End NightlyEtl.

(* ------------------------------------------------------------------ *)
(** ** norm_codes/geo/segment_utils.py: the segment table *)

Module BuildSegments.
Import Frame.

(** A row of the shapes table. *)
Record shape_pt : Type := {
  shape_id : string;
  seq      : Z;
  lat      : Q;
  lon      : Q
}.

(** A row of the segment table. *)
Record built : Type := {
  line       : SegmentUtils.segment;
  b_shape_id : string;
  b_seq      : nat
}.

Definition by_shape_seq (a b : shape_pt) : bool :=
  if String.eqb (shape_id a) (shape_id b) then (seq a <=? seq b)%Z
  else String.ltb (shape_id a) (shape_id b).

(** [str(i)] for a non-negative index. *)
Definition str_nat (i : nat) : string :=
  DecimalString.NilZero.string_of_uint (Nat.to_uint i).

(** The rows appended for one shape: one line per pair of consecutive
    points, numbered from [i]. *)
Fixpoint pairs_from (sid : string) (i : nat) (pts : list SegmentUtils.coord)
    : list built :=
  match pts with
  | a :: ((b :: _) as rest) =>
      {| line := {| SegmentUtils.segment_id :=
                      String.append sid (String.append "_" (str_nat i));
                    SegmentUtils.p0 := a;
                    SegmentUtils.p1 := b |};
         b_shape_id := sid; b_seq := i |}
      :: pairs_from sid (S i) rest
  | _ => []
  end.

Definition rows_of_shape (sid : string) (shp : list shape_pt) : list built :=
  pairs_from sid 0
    (map (fun p => (lon p, lat p))
         (filter (fun p => String.eqb (shape_id p) sid) shp)).

(** The list [rows] filled by the loop over the shapes, the shapes in
    sorted order. *)
Definition rows (shapes : list shape_pt) : list built :=
  let shp := sort_by by_shape_seq shapes in
  flat_map (fun sid => rows_of_shape sid shp)
           (sort_by String.leb (uniq String.eqb (map shape_id shp))).

Inductive result : Type :=
| RaiseNoGeometry
| Table (seg : list built).

(** [build_segments]: the cached table when there is one, else the table
    of [rows], which it writes to the cache.  [GeoDataFrame(rows, crs=...)]
    refuses an empty [rows], a frame with a CRS and no geometry column.
    The second component is the cache the call leaves. *)
Definition build_segments (cache : option (list built))
    (shapes : list shape_pt) : result * option (list built) :=
  match cache with
  | Some seg => (Table seg, cache)
  | None =>
      match rows shapes with
      | [] => (RaiseNoGeometry, None)
      | seg => (Table seg, Some seg)
      end
  end.

End BuildSegments.

(* ------------------------------------------------------------------ *)
(** ** app/app.py: vanish counters, route names, corridor statistics *)

Module AppStats.
Import Cell Frame.

(** A row of the frame of [load_day_for_kpis]; an identifier may be
    null. *)
Record kpi_row : Type := {
  vanish_anchor : bool;
  hour          : option Z;
  vehicle_id    : option string;
  trip_id       : option string
}.

(** The frame with the identifier columns it has. *)
Record kpi_frame : Type := {
  has_vehicle_id : bool;
  has_trip_id    : bool;
  rows           : list kpi_row
}.

(** Equality of two cells as [drop_duplicates] and [duplicated] see it:
    two nulls are the same value. *)
Definition id_eqb (a b : option string) : bool :=
  match a, b with
  | Some x, Some y => String.eqb x y
  | None, None => true
  | _, _ => false
  end.

Definition pair_eqb (a b : option string * option string) : bool :=
  id_eqb (fst a) (fst b) && id_eqb (snd a) (snd b).

(** The non-null cells of a column, which are all [nunique] counts. *)
Definition present (l : list (option string)) : list string :=
  flat_map (fun x => match x with Some v => [v] | None => [] end) l.

Definition _count_anchor_trips (df_in : kpi_frame) : nat :=
  let d := filter vanish_anchor (rows df_in) in
  if has_vehicle_id df_in && has_trip_id df_in then
    List.length (uniq pair_eqb (map (fun r => (vehicle_id r, trip_id r)) d))
  else if has_trip_id df_in then
    List.length (uniq String.eqb (present (map trip_id d)))
  else List.length d.

(** [vanish_kpis_today]: the count of anchors and their rate per 1000
    vehicle-minutes. *)
Definition vanish_rate (d : kpi_frame) : nat * Q :=
  let anchors := _count_anchor_trips d in
  let total_vm := List.length (rows d) in
  let rate :=
    if (total_vm =? 0)%nat then 0.0
    else inject_Z (Z.of_nat anchors) / inject_Z (Z.of_nat total_vm) * 1000 in
  (anchors, rate).

(** A row of routes.csv; either name may be missing. *)
Record route : Type := {
  route_id         : string;
  route_short_name : option string;
  route_long_name  : option string
}.

(** [r.duplicated("route_short_name", keep=False)] on one row. *)
Definition duplicated (r : list route) (x : route) : bool :=
  (1 <? List.length
          (filter (fun y => id_eqb (route_short_name y)
                                   (route_short_name x)) r))%nat.

(** [+] on two string cells: null as soon as one of them is. *)
Definition str_add (a b : option string) : option string :=
  match a, b with
  | Some x, Some y => Some (String.append x y)
  | _, _ => None
  end.

Definition display_name (r : list route) (x : route) : option string :=
  if duplicated r x
  then str_add
         (str_add (str_add (route_short_name x) (Some " ("%string))
                  (route_long_name x))
         (Some ")"%string)
  else route_short_name x.

(** [load_routes]: the columns [route_id] and [display_name]. *)
Definition load_routes (r : list route) : list (string * option string) :=
  map (fun x => (route_id x, display_name r x)) r.

Section Vanish.
Variable geometry : Type.
Variable within : Q * Q -> geometry -> bool.

(** A row of the columns read by [ed_vanish_counts], the identifiers as
    [astype(str)] renders them. *)
Record anchor_row : Type := {
  a_lat     : option Q;
  a_lon     : option Q;
  a_anchor  : bool;
  a_vehicle : string;
  a_trip    : string
}.

(** [vehicle_id + "|" + trip_id]. *)
Definition pair_of (r : anchor_row) : string :=
  String.append (a_vehicle r) (String.append "|" (a_trip r)).

(** [dropna(subset=["lat","lon"])]. *)
Definition located (df : list anchor_row) : list anchor_row :=
  filter (fun r => match a_lat r, a_lon r with
                   | Some _, Some _ => true
                   | _, _ => false
                   end) df.

Definition point_of (r : anchor_row) : Q * Q :=
  (fillna 0 (a_lon r), fillna 0 (a_lat r)).

(** [gpd.sjoin(pts[["pair","geometry"]], eds, how="left",
    predicate="within")]: the columns [pair] and [ed_id]. *)
Definition sjoin_pairs (df : list anchor_row) (eds : list (App.ed geometry))
    : list (string * option string) :=
  flat_map (fun r =>
    match filter (fun e => within (point_of r) (App.geom geometry e)) eds with
    | [] => [ (pair_of r, None) ]
    | ms => map (fun e => (pair_of r, Some (App.ed_id geometry e))) ms
    end) df.

Definition pairs_of_id (id : string) (join : list (string * option string))
    : list string :=
  map fst
    (filter (fun j => match snd j with
                      | Some i => String.eqb i id
                      | None => false
                      end) join).

(** [join.dropna(subset=["ed_id"]).groupby("ed_id")["pair"].nunique()]. *)
Definition counts (join : list (string * option string)) : App.series nat :=
  map (fun id => (id, List.length (uniq String.eqb (pairs_of_id id join))))
      (sort_by String.leb
         (uniq String.eqb
            (flat_map (fun j => match snd j with Some i => [i] | None => [] end)
                      join))).

Definition zero_counts (eds : list (App.ed geometry))
    : list (App.ed geometry * nat) :=
  map (fun e => (e, 0%nat)) eds.

(** [ed_vanish_counts]: [None] without polygons, else one count per
    polygon. *)
Definition ed_vanish_counts (eds : option (list (App.ed geometry)))
    (days : list (list anchor_row)) : option (list (App.ed geometry * nat)) :=
  match eds with
  | None => None
  | Some eds =>
      match located (List.concat days) with
      | [] => Some (zero_counts eds)
      | df =>
          match filter a_anchor df with
          | [] => Some (zero_counts eds)
          | df =>
              let join := sjoin_pairs df eds in
              Some (map (fun e =>
                           (e, match App.lookup (App.ed_id geometry e)
                                                (counts join) with
                               | Some c => c
                               | None => 0%nat
                               end)) eds)
          end
      end
  end.
End Vanish.

End AppStats.

(* ------------------------------------------------------------------ *)
(** ** app/app.py: corridor statistics *)

Module Corridor.
Import Frame.

(** A row of [stats]: the segment with the mean score of the minutes
    snapped to it and the share of them above the threshold. *)
Record stat : Type := {
  seg        : SegmentUtils.segment;
  avg_stress : option Q;
  pct_hi     : App.fval
}.

(** The keys of [snapped.groupby("segment_id")]. *)
Definition segment_ids (snapped : list SegmentUtils.snapped) : list string :=
  sort_by String.leb
    (uniq String.eqb
       (flat_map (fun j => match SegmentUtils.nearest_id j with
                           | Some i => [i]
                           | None => []
                           end) snapped)).

(** The [row_stress] column of one group. *)
Definition scores (id : string) (snapped : list SegmentUtils.snapped)
    : list (option Q) :=
  map (fun j => AddStressScore.row_stress (SegmentUtils.minute_row j))
      (filter (fun j => match SegmentUtils.nearest_id j with
                        | Some i => String.eqb i id
                        | None => false
                        end) snapped).

(** [corridor_stats_filtered]: snap, aggregate per segment, and merge the
    segment rows back on [segment_id]. *)
Definition corridor_stats_filtered (filtered_df : list AddStressScore.row)
    (thr : Q) (segs : list SegmentUtils.segment) : list stat :=
  let snapped := SegmentUtils.snap_minutes filtered_df segs in
  flat_map (fun id =>
    let xs := scores id snapped in
    map (fun s => {| seg := s;
                     avg_stress := App.mean xs;
                     pct_hi := App.fdiv (App.count_above thr xs) (App.size xs) |})
        (filter (fun s => String.eqb id (SegmentUtils.segment_id s)) segs))
    (segment_ids snapped).

End Corridor.

(* ------------------------------------------------------------------ *)
(** ** app/app.py: colours of the maps *)

Module Colour.
Import Cell.

(** [s < c] on a float that may be NaN: NaN compares false. *)
Definition below (s : option Q) (c : Q) : bool :=
  match s with Some v => ltb v c | None => false end.

(** [stress_rgb]: the RGBA colour of a score. *)
Definition stress_rgb (s : option Q) : list Z :=
  if below s 0.35 then [200; 255; 0; 170]%Z
  else if below s 0.4 then [255; 255; 0; 180]%Z
  else if below s 0.45 then [255; 200; 0; 190]%Z
  else if below s 0.5 then [255; 140; 0; 200]%Z
  else if below s 0.55 then [255; 80; 0; 220]%Z
  else if below s 0.6 then [255; 0; 0; 240]%Z
  else if below s 0.7 then [180; 0; 0; 255]%Z
  else if below s 0.8 then [180; 0; 0; 255]%Z
  else [120; 0; 0; 255]%Z.

(** [color_from_count] of the polygon map; [q95] is the count the colours
    are scaled to. *)
Definition color_from_count (q95 c : Q) : list Z :=
  if leb c 0 then [180; 210; 180; 140]%Z
  else
    let x := Qmin (c / q95) 1.0 in
    stress_rgb (Some (0.3 + 0.7 * x)).

End Colour.

(* ------------------------------------------------------------------ *)
(** ** app/app.py: the vanish baseline of the last days *)

Module Baseline.
Import Cell Frame.

(** [l[-n:]]: the last [n] elements, and the whole list for [n = 0]. *)
Definition last_n {A : Type} (n : nat) (l : list A) : list A :=
  if (n =? 0)%nat then l else skipn (List.length l - n) l.

(** A row of [base]. *)
Record base_row : Type := {
  anchors : nat;
  vm      : nat;
  rate    : App.fval
}.

(** A float times a positive constant. *)
Definition scale (k : Q) (x : App.fval) : App.fval :=
  match x with
  | App.Fin q => App.Fin (q * k)
  | other => other
  end.

Inductive result : Type :=
| RaiseKeyError
| Base (rows : list base_row).

Definition row_of (dd : AppStats.kpi_frame) : base_row :=
  let a := AppStats._count_anchor_trips dd in
  let v := List.length (AppStats.rows dd) in
  {| anchors := a; vm := v;
     rate := scale 1000 (App.fdiv (inject_Z (Z.of_nat a))
                                  (inject_Z (Z.of_nat v))) |}.

(** [vanish_baseline] over the frames of the days [list_dates] gives:
    a frame built from no row has no column [anchors] to divide. *)
Definition vanish_baseline (n : nat) (days : list AppStats.kpi_frame)
    : result :=
  match last_n n days with
  | [] => RaiseKeyError
  | ds => Base (map row_of ds)
  end.

End Baseline.

(* ------------------------------------------------------------------ *)
(** ** norm_codes/join_points_to_ed.py *)

Module JoinPointsToEd.

Section Join.
Variable geometry : Type.
Variable within : Q * Q -> geometry -> bool.

(** The columns read from the scored table. *)
Record minute : Type := {
  timestamp    : Z;
  lat          : option Q;
  lon          : option Q;
  row_stress   : option Q;
  route_id     : option string;
  direction_id : option Z
}.

(** The polygons containing the point of a row; a row without
    coordinates lies within none. *)
Definition containing (polys : list (string * geometry)) (r : minute)
    : list (string * geometry) :=
  match lat r, lon r with
  | Some la, Some lo => filter (fun p => within (lo, la) (snd p)) polys
  | _, _ => []
  end.

(** [gpd.sjoin(points, gdf_poly, how="inner", predicate="within")]: one
    row for every polygon a point lies within, with the polygon's
    identifier. *)
Definition sjoin_inner (df : list minute) (polys : list (string * geometry))
    : list (minute * string) :=
  flat_map (fun r => map (fun p => (r, fst p)) (containing polys r)) df.

Definition main (out_exists overwrite in_exists : bool)
    (df : list minute) (polys : list (string * geometry))
    : outcome (list (minute * string)) :=
  if out_exists && negb overwrite then Skipped
  else if negb in_exists then Exit "missing input"
  else Wrote (sjoin_inner df polys).
End Join.

End JoinPointsToEd.

(* ------------------------------------------------------------------ *)
(** ** app/app.py: minutes from the first sample of a trip to its vanish *)

Module Ttv.
Import Cell Frame.

(** A row of the frame of [_load_min_cols_for_ttv]; [ts] in seconds, the
    rows without one being dropped by the loader. *)
Record minute : Type := {
  vehicle_id    : option string;
  trip_id       : option string;
  route_id      : option string;
  vanish_anchor : bool;
  ts            : Q
}.

Definition key : Type := (string * string)%type.

(** The group of a row under [groupby(["vehicle_id","trip_id"])]: a row
    with a null identifier is in no group. *)
Definition key_of (r : minute) : option key :=
  match vehicle_id r, trip_id r with
  | Some v, Some t => Some (v, t)
  | _, _ => None
  end.

Definition key_eqb (a b : key) : bool :=
  String.eqb (fst a) (fst b) && String.eqb (snd a) (snd b).

Definition key_leb (a b : key) : bool :=
  if String.eqb (fst a) (fst b) then String.leb (snd a) (snd b)
  else String.leb (fst a) (fst b).

Definition in_group (k : key) (r : minute) : bool :=
  match key_of r with
  | Some k' => key_eqb k' k
  | None => false
  end.

(** The group keys, sorted. *)
Definition keys (df : list minute) : list key :=
  sort_by key_leb
    (uniq key_eqb
       (flat_map (fun r => match key_of r with
                           | Some k => [k]
                           | None => []
                           end) df)).

(** [min()] and [max()] of the timestamps of a group. *)
Definition ts_min (l : list Q) : option Q :=
  match l with
  | [] => None
  | x :: r => Some (fold_left Qmin r x)
  end.

Definition ts_max (l : list Q) : option Q :=
  match l with
  | [] => None
  | x :: r => Some (fold_left Qmax r x)
  end.

(** [s.mode()]: the most frequent of the non-null values, sorted. *)
Definition count (x : string) (l : list string) : nat :=
  List.length (filter (String.eqb x) l).

Definition mode (l : list string) : list string :=
  let best := fold_left Nat.max (map (fun x => count x l) l) 0%nat in
  sort_by String.leb
    (filter (fun x => (count x l =? best)%nat) (uniq String.eqb l)).

(** [s.mode().iloc[0] if not s.mode().empty else s.iloc[0]] on the
    routes of the anchor rows of a group. *)
Definition route_of (anchors : list minute) : option string :=
  match mode (AppStats.present (map route_id anchors)) with
  | m :: _ => Some m
  | [] => match anchors with
          | a :: _ => route_id a
          | [] => None
          end
  end.

(** A row of the result. *)
Record ttv : Type := {
  mins  : Q;
  route : string
}.

(** The row of one group, if it passes [dropna] and the bounds on
    [mins]. *)
Definition row_of (dfa : list minute) (k : key) : list ttv :=
  let g := filter (in_group k) dfa in
  let anchors := filter vanish_anchor g in
  match ts_min (map ts g), ts_max (map ts anchors), route_of anchors with
  | Some first_ts, Some anchor_ts, Some rt =>
      let m := (anchor_ts - first_ts) / 60 in
      if geb m 0 && ltb m (6 * 60) then [ {| mins := m; route := rt |} ]
      else []
  | _, _, _ => []
  end.

Definition ttv_minutes (days : list (list minute)) : list ttv :=
  match days with
  | [] => []
  | _ => let dfa := List.concat days in flat_map (row_of dfa) (keys dfa)
  end.

End Ttv.

(* ------------------------------------------------------------------ *)
(** ** Sample data for the further properties *)

Module MoreSamples.

(** Two samples of one trip in the same clock minute, one of another
    trip that the lookup does not know. *)
Definition seen (v t : string) (ts : Z) : JoinDaily.vehicle_sample :=
  {| JoinDaily.vehicle_id := v; JoinDaily.trip_id := t;
     JoinDaily.direction_id := 0%Z; JoinDaily.timestamp := ts;
     JoinDaily.lat := 53.34; JoinDaily.lon := -6.26;
     JoinDaily.speed_kph := None |}.

Definition veh_samples : list JoinDaily.vehicle_sample :=
  [ seen "v1" "t1" 1752570010; seen "v1" "t1" 1752570050;
    seen "v2" "t9" 1752570020 ].

Definition delays : list JoinDaily.delay_row :=
  [ {| JoinDaily.d_trip_id := "t1"; JoinDaily.d_timestamp := 1752570031;
       JoinDaily.d_delay_sec := Some 120 |};
    {| JoinDaily.d_trip_id := "t1"; JoinDaily.d_timestamp := 1752570065;
       JoinDaily.d_delay_sec := Some 180 |} ].

Definition trips : list JoinDaily.trip :=
  [ {| JoinDaily.t_trip_id := "t1"; JoinDaily.t_route_id := "r46a" |} ].

(** A day with all vehicle files, 90 of 96 weather files, no delay
    file, not yet rolled up. *)
Definition fresh_day : NightlyEtl.folders :=
  {| NightlyEtl.raw_day := true; NightlyEtl.hist_day := false |}.

Definition files_found (l : NightlyEtl.label) : nat :=
  match l with
  | NightlyEtl.vehicles => 1440
  | NightlyEtl.weather => 90
  | NightlyEtl.delay => 0
  end.

Definition ping (v : string) (ts : Z) (la lo : Q) : NightlyEtl.sample :=
  {| NightlyEtl.vehicle_id := v; NightlyEtl.timestamp := ts;
     NightlyEtl.lat := la; NightlyEtl.lon := lo |}.

(** Two vehicles, the first one with two pings at the same second. *)
Definition pings : list NightlyEtl.sample :=
  [ ping "v2" 1752570000 53.30 (-6.20);
    ping "v1" 1752570060 53.35 (-6.26);
    ping "v1" 1752570060 53.36 (-6.26);
    ping "v1" 1752570000 53.34 (-6.26) ].

(** A shape of three points, given out of order, and a shape of one. *)
Definition shape_point (sid : string) (n : Z) (la lo : Q)
    : BuildSegments.shape_pt :=
  {| BuildSegments.shape_id := sid; BuildSegments.seq := n;
     BuildSegments.lat := la; BuildSegments.lon := lo |}.

Definition shapes : list BuildSegments.shape_pt :=
  [ shape_point "s1" 3 53.36 (-6.24);
    shape_point "s2" 1 53.30 (-6.20);
    shape_point "s1" 1 53.34 (-6.26);
    shape_point "s1" 2 53.35 (-6.25) ].

(** Minutes of the dashboard frame: an anchor of trip t1, and more. *)
Definition kpi (anchor : bool) (v t : string) : AppStats.kpi_row :=
  {| AppStats.vanish_anchor := anchor; AppStats.hour := Some 9%Z;
     AppStats.vehicle_id := Some v; AppStats.trip_id := Some t |}.

Definition kpi_rows : list AppStats.kpi_row :=
  [ kpi true "v1" "t1"; kpi false "v1" "t1"; kpi true "v2" "t2" ].

(** Anchors of one trip, twice in the city polygon. *)
Definition anchor_at (la lo : Q) (v t : string) : AppStats.anchor_row :=
  {| AppStats.a_lat := Some la; AppStats.a_lon := Some lo;
     AppStats.a_anchor := true;
     AppStats.a_vehicle := v; AppStats.a_trip := t |}.

Definition anchor_day : list AppStats.anchor_row :=
  [ anchor_at 53.34 (-6.26) "v1" "t1"; anchor_at 53.35 (-6.25) "v1" "t1" ].

(** Two routes named 46A, one of them without a long name, and one
    named 7. *)
Definition bus (id short : string) (long : option string) : AppStats.route :=
  {| AppStats.route_id := id; AppStats.route_short_name := Some short;
     AppStats.route_long_name := long |}.

Definition routes : list AppStats.route :=
  [ bus "r1" "46A" (Some "Phoenix Park - Dun Laoghaire"%string);
    bus "r2" "46A" None;
    bus "r3" "7" (Some "Mountjoy Square - Brides Glen"%string) ].

(** An empty day between two days with rows. *)
Definition kpi_day (rows : list AppStats.kpi_row) : AppStats.kpi_frame :=
  {| AppStats.has_vehicle_id := true; AppStats.has_trip_id := true;
     AppStats.rows := rows |}.

Definition week : list AppStats.kpi_frame :=
  [ kpi_day kpi_rows; kpi_day []; kpi_day [ kpi false "v3" "t3" ] ].

(** Two overlapping polygons, and minutes in one, both and none. *)
Definition overlapping : list (string * Samples.box) :=
  [ ("ED1"%string, (-6.30, 53.30, -6.20, 53.40));
    ("ED3"%string, (-6.27, 53.33, -6.10, 53.40)) ].

Definition minute_at (la lo : option Q) : JoinPointsToEd.minute :=
  {| JoinPointsToEd.timestamp := 1752570000%Z;
     JoinPointsToEd.lat := la; JoinPointsToEd.lon := lo;
     JoinPointsToEd.row_stress := Some 0.4;
     JoinPointsToEd.route_id := Some "r46a"%string;
     JoinPointsToEd.direction_id := Some 0%Z |}.

Definition minutes_to_join : list JoinPointsToEd.minute :=
  [ minute_at (Some 53.31) (Some (-6.29));
    minute_at (Some 53.35) (Some (-6.25));
    minute_at (Some 53.00) (Some (-6.26));
    minute_at None None ].

(** A trip seen at 09:00, vanishing at 09:25 after an earlier anchor; a
    trip without anchor; and an anchor without trip identifier. *)
Definition seen_at (v t : option string) (anchor : bool) (at_s : Q)
    : Ttv.minute :=
  {| Ttv.vehicle_id := v; Ttv.trip_id := t;
     Ttv.route_id := Some "r46a"%string;
     Ttv.vanish_anchor := anchor; Ttv.ts := at_s |}.

Definition ttv_day : list Ttv.minute :=
  [ seen_at (Some "v1"%string) (Some "t1"%string) false 32400;
    seen_at (Some "v1"%string) (Some "t1"%string) true 33000;
    seen_at (Some "v1"%string) (Some "t1"%string) true 33900;
    seen_at (Some "v2"%string) (Some "t2"%string) false 32400;
    seen_at (Some "v3"%string) None true 32400 ].

End MoreSamples.

(* ================================================================== *)
(** * Properties *)

(** ** Boolean comparisons and case analysis on cells *)

Lemma Qle_bool_false (x y : Q) : Qle_bool x y = false -> y < x.
Proof.
  intros E. apply Qnot_le_lt. intros H.
  apply Qle_bool_iff in H. congruence.
Qed.

(** Split on every float comparison of the goal. *)
Ltac case_cmp :=
  unfold Cell.leb, Cell.ltb, Cell.geb, Cell.gtb in *;
  repeat match goal with
  | |- context [Qle_bool ?a ?b] =>
      let E := fresh "E" in
      destruct (Qle_bool a b) eqn:E;
      [apply Qle_bool_iff in E | apply Qle_bool_false in E]
  end;
  cbn [andb orb negb].

(** Name every [Qmin]/[Qmax] of the goal and keep its specification. *)
Ltac name_min a b :=
  let m := fresh "m" in
  let H := fresh "Hm" in
  pose proof (Q.min_spec a b) as H;
  set (m := Qmin a b) in *; clearbody m.

Ltac name_max a b :=
  let m := fresh "m" in
  let H := fresh "Hm" in
  pose proof (Q.max_spec a b) as H;
  set (m := Qmax a b) in *; clearbody m.

Ltac case_minmax :=
  repeat match goal with
  | |- context [Qmin ?a ?b] => name_min a b
  | |- context [Qmax ?a ?b] => name_max a b
  | _ : context [Qmin ?a ?b] |- _ => name_min a b
  | _ : context [Qmax ?a ?b] |- _ => name_max a b
  end.

(** Linear arithmetic after division by the constants of the curves. *)
Ltac qlin := unfold Qdiv in *; cbn [Qinv Qnum Qden inject_Z] in *; lra.

Ltac curve := cbv zeta; case_cmp; unfold Cell.clip; case_minmax; qlin.

(** ** Delay normaliser *)

Lemma delay_norm_bounds (ds : option Q) :
  0 <= AddDelayNorm.delay_norm_cell ds <= 1.
Proof.
  unfold AddDelayNorm.delay_norm_cell.
  set (d := AddDelayNorm.minutes ds). clearbody d.
  curve.
Qed.

Lemma delay_norm_monotone (a b : option Q) :
  AddDelayNorm.minutes a <= AddDelayNorm.minutes b ->
  AddDelayNorm.delay_norm_cell a <= AddDelayNorm.delay_norm_cell b.
Proof.
  unfold AddDelayNorm.delay_norm_cell.
  set (x := AddDelayNorm.minutes a). set (y := AddDelayNorm.minutes b).
  clearbody x y. intros Hxy.
  curve.
Qed.

(** Closed comparisons and equations on rationals. *)
Ltac qclosed :=
  vm_compute;
  first [ reflexivity | discriminate | intuition (try discriminate; try congruence) ].

(** ** The float32 evaluation of the delay normaliser *)

Module F32Facts.
Import F32.

Lemma pow2_pos (e : Z) : 0 < pow2 e.
Proof. apply Qpower_0_lt. reflexivity. Qed.

Lemma pow2_add (a b : Z) : pow2 (a + b) == pow2 a * pow2 b.
Proof. apply Qpower_plus. discriminate. Qed.

Lemma pow2_opp (a : Z) : pow2 (- a) == / pow2 a.
Proof. apply Qpower_opp. Qed.

Lemma pow2_Z (a : Z) : (0 <= a)%Z -> pow2 a == inject_Z (2 ^ a).
Proof. intros H. unfold pow2. now rewrite Zpower_Qpower. Qed.

(** [ilog2 q] does not exceed the binary logarithm of [|q|]. *)
Lemma ilog2_le (q : Q) : ~ q == 0 -> pow2 (ilog2 q) <= Qabs q.
Proof.
  intros Hq. unfold ilog2.
  set (n := Z.abs (Qnum q)). set (d := Zpos (Qden q)).
  set (e := (Z.log2 n - Z.log2 d)%Z).
  destruct (Qle_bool (pow2 e) (Qabs q)) eqn:E; [now apply Qle_bool_iff|].
  assert (Hn : (0 < n)%Z).
  { unfold n. destruct q as [a b]. unfold Qeq in Hq. cbn in *. lia. }
  assert (Hd : (0 < d)%Z) by (unfold d; lia).
  destruct (Z.log2_spec n Hn) as [Hn1 _].
  destruct (Z.log2_spec d Hd) as [_ Hd2].
  pose proof (Z.log2_nonneg n) as Hln. pose proof (Z.log2_nonneg d) as Hld.
  assert (Habs : Qabs q == inject_Z n / inject_Z d).
  { destruct q as [a b]. unfold n, d. cbn [Qabs Qnum Qden].
    apply Qmake_Qdiv. }
  rewrite Habs.
  replace (e - 1)%Z with (Z.log2 n + - Z.succ (Z.log2 d))%Z by (unfold e; lia).
  rewrite pow2_add, pow2_opp, !pow2_Z by lia.
  assert (H1 : inject_Z (2 ^ Z.log2 n) <= inject_Z n) by now rewrite <- Zle_Qle.
  assert (H2 : inject_Z d <= inject_Z (2 ^ Z.succ (Z.log2 d)))
    by (rewrite <- Zle_Qle; lia).
  assert (H0 : 0 < inject_Z d)
    by (change 0 with (inject_Z 0); now rewrite <- Zlt_Qlt).
  assert (H3 : 0 < inject_Z (2 ^ Z.log2 n)).
  { change 0 with (inject_Z 0). rewrite <- Zlt_Qlt.
    apply Z.pow_pos_nonneg; lia. }
  set (a := inject_Z (2 ^ Z.log2 n)) in *.
  set (b := inject_Z (2 ^ Z.succ (Z.log2 d))) in *.
  set (x := inject_Z n) in *. set (y := inject_Z d) in *.
  clearbody a b x y.
  unfold Qdiv.
  assert (Hb : 0 < b) by lra.
  assert (Hib : / b <= / y).
  { apply Qle_shift_inv_l; [exact H0|].
    setoid_replace (/ b * y) with (y / b) by (unfold Qdiv; ring).
    apply Qle_shift_div_r; lra. }
  assert (Hib0 : 0 < / b) by now apply Qinv_lt_0_compat.
  nra.
Qed.

Lemma rne_spec (y : Q) :
  - (1 # 2) <= inject_Z (rne y) - y <= 1 # 2 /\
  (0 <= y -> (0 <= rne y)%Z) /\ (y <= 0 -> (rne y <= 0)%Z).
Proof.
  unfold rne. set (f := Qfloor y).
  assert (H1 : inject_Z f <= y) by apply Qfloor_le.
  assert (H2 : y < inject_Z (f + 1)) by apply Qlt_floor.
  rewrite inject_Z_plus in H2. change (inject_Z 1) with 1 in H2.
  assert (Hpos : 0 <= y -> (0 <= f)%Z).
  { intros H. change 0%Z with (Qfloor (inject_Z 0)).
    now apply Qfloor_resp_le. }
  assert (Hneg : y <= 0 -> (f <= 0)%Z).
  { intros H. change 0%Z with (Qfloor (inject_Z 0)).
    now apply Qfloor_resp_le. }
  destruct (Qcompare (y - inject_Z f) (1 # 2)) eqn:E.
  - apply Qeq_alt in E.
    assert (Hneg' : y <= 0 -> (f + 1 <= 0)%Z).
    { intros H. specialize (Hneg H).
      destruct (Z.eq_dec f 0) as [Hf | Hf]; [| lia].
      rewrite Hf in E. change (inject_Z 0) with 0 in E. lra. }
    destruct (Z.even f); [| rewrite inject_Z_plus; change (inject_Z 1) with 1].
    + split; [lra|]. split; [exact Hpos | exact Hneg].
    + split; [lra|]. split; [intros H; specialize (Hpos H); lia | exact Hneg'].
  - apply Qlt_alt in E. split; [lra|]. split; [exact Hpos | exact Hneg].
  - apply Qgt_alt in E. rewrite inject_Z_plus. change (inject_Z 1) with 1.
    split; [lra|]. split; [intros H; specialize (Hpos H); lia|].
    intros H. specialize (Hneg H).
    destruct (Z.eq_dec f 0) as [Hf | Hf]; [| lia].
    rewrite Hf in E. change (inject_Z 0) with 0 in E. lra.
Qed.

Definition eps : Q := 1 # 16777216.
Definition tiny : Q := pow2 (-150).

Lemma tiny_small : 0 < tiny /\ tiny <= 1 # 1000000000000000000000000000000.
Proof. split; [reflexivity | vm_compute; discriminate]. Qed.

Lemma pow2_127_large : 1000000000000000000000000000000 <= pow2 127.
Proof. vm_compute. discriminate. Qed.

(** What rounding does to a number: an error of at most half a unit in
    the last place, the sign kept, and an infinity only from [2^127] on. *)
Lemma round_spec (q : Q) :
  match round q with
  | Fin r =>
      Qabs (r - q) <= eps * Qabs q + tiny /\
      (0 <= q -> 0 <= r) /\ (q <= 0 -> r <= 0)
  | PInf => pow2 127 <= q
  | NInf => q <= - pow2 127
  end.
Proof.
  pose proof tiny_small as [Ht0 Ht1].
  pose proof pow2_127_large as HP.
  unfold round.
  destruct (Qeq_bool q 0) eqn:E0.
  { apply Qeq_bool_iff in E0. split.
    - setoid_replace (0 - q) with 0 by lra. rewrite E0.
      change (Qabs 0) with 0. lra.
    - split; intros; lra. }
  apply Qeq_bool_neq in E0. cbv zeta.
  set (e := Z.max (ilog2 q) (-126)).
  set (ulp := pow2 (e - 23)).
  assert (Hulp : 0 < ulp) by apply pow2_pos.
  set (y := q / ulp).
  destruct (rne_spec y) as (Herr & Hpos & Hneg).
  set (n := rne y) in *.
  assert (Hy : y * ulp == q) by (unfold y; field; lra).
  set (r := Qred (inject_Z n * ulp)).
  assert (Hr : r == inject_Z n * ulp) by apply Qred_correct.
  pose proof (Qabs_nonneg q) as Hq0.
  assert (Hhalf : ulp * (1 # 2) <= eps * Qabs q + tiny).
  { unfold ulp, e.
    pose proof (ilog2_le q E0) as Hlog.
    destruct (Z.max_spec (ilog2 q) (-126)) as [[_ ->] | [_ ->]].
    - change (pow2 (-126 - 23) * (1 # 2)) with tiny. unfold eps. lra.
    - replace (ilog2 q - 23)%Z with (ilog2 q + -23)%Z by lia.
      rewrite pow2_add.
      setoid_replace (pow2 (ilog2 q) * pow2 (-23) * (1 # 2))
        with (eps * pow2 (ilog2 q)) by (unfold eps; vm_compute (pow2 (-23)); ring).
      unfold eps in *. lra. }
  assert (Hdiff : r - q == (inject_Z n - y) * ulp) by (rewrite Hr, <- Hy; ring).
  assert (Hlo : - (eps * Qabs q + tiny) <= r - q) by (rewrite Hdiff; nra).
  assert (Hhi : r - q <= eps * Qabs q + tiny) by (rewrite Hdiff; nra).
  assert (Hrpos : 0 <= q -> 0 <= r).
  { intros H. rewrite Hr.
    assert (0 <= y) by (apply Qle_shift_div_l; lra).
    assert (0 <= inject_Z n)
      by (change 0 with (inject_Z 0); rewrite <- Zle_Qle; auto).
    nra. }
  assert (Hrneg : q <= 0 -> r <= 0).
  { intros H. rewrite Hr.
    assert (y <= 0) by (apply Qle_shift_div_r; lra).
    assert (inject_Z n <= 0)
      by (change 0 with (inject_Z 0); rewrite <- Zle_Qle; auto).
    nra. }
  assert (H128 : pow2 128 == 2 * pow2 127) by reflexivity.
  destruct (Qle_bool (pow2 128) (Qabs r)) eqn:Eo.
  - apply Qle_bool_iff in Eo.
    destruct (Qle_bool 0 q) eqn:Es.
    + apply Qle_bool_iff in Es. specialize (Hrpos Es).
      rewrite (Qabs_pos r Hrpos) in Eo. rewrite (Qabs_pos q Es) in Hhi.
      unfold eps in *. lra.
    + apply Qle_bool_false in Es.
      assert (Hq : q <= 0) by lra. specialize (Hrneg Hq).
      rewrite (Qabs_neg r Hrneg) in Eo. rewrite (Qabs_neg q Hq) in Hlo.
      unfold eps in *. lra.
  - split; [| split; assumption].
    apply Qabs_Qle_condition. split; lra.
Qed.

Lemma round_nonneg (a : Q) :
  0 <= a ->
  match round a with
  | Fin r => 0 <= r /\ a - (eps * a + tiny) <= r /\ r <= a + (eps * a + tiny)
  | PInf => pow2 127 <= a
  | NInf => False
  end.
Proof.
  intros Ha. pose proof (round_spec a) as H. pose proof pow2_127_large.
  destruct (round a) as [r| |]; [| exact H | lra].
  destruct H as (Habs & Hpos & _).
  rewrite (Qabs_pos a Ha) in Habs. apply Qabs_Qle_condition in Habs.
  split; [auto|]. split; lra.
Qed.

Lemma round_nonpos (a : Q) :
  a <= 0 ->
  match round a with
  | Fin r => r <= 0
  | PInf => False
  | NInf => True
  end.
Proof.
  intros Ha. pose proof (round_spec a) as H. pose proof pow2_127_large.
  destruct (round a) as [r| |]; [| lra | exact I].
  destruct H as (_ & _ & Hneg). auto.
Qed.

Lemma const_values :
  const 60.0 = 60 /\ const 5 = 5 /\ const 10 = 10 /\ const 15 = 15 /\
  const 45 = 45 /\
  const 0.30 = 5033165 # 16777216 /\
  const 0.40 = 13421773 # 33554432 /\
  const 0.70 = 11744051 # 16777216.
Proof. vm_compute. repeat split. Qed.

End F32Facts.

Import F32Facts.

(** Round a non-negative quantity of the goal and keep the bounds. *)
Ltac rnd a r :=
  let R := fresh "R" in
  cbn [F32.lift F32.minimum];
  assert (R : 0 <= a) by qlin;
  apply round_nonneg in R; unfold eps in R;
  destruct (F32.round a) as [r| |];
  [ destruct R as (? & ? & ?) | exfalso; qlin | contradiction ].

(** Unfold the float32 cell down to its roundings. *)
Ltac open_f32 :=
  destruct const_values as (C60 & C5 & C10 & C15 & C45 & C30 & C40 & C70);
  unfold AddDelayNorm.delay_norm_f32, Cell.fillna; cbv zeta;
  unfold F32.div, F32.sub, F32.mul, F32.add;
  rewrite C60, C5, C10, C15, C45, C30, C40, C70.

Lemma close_mid x :
  0 <= x -> x <= 4096 ->
  Qabs (AddDelayNorm.delay_norm_f32 (Some x)
        - AddDelayNorm.delay_norm_cell (Some x))
  <= 1 # 4000000.
Proof.
  intros H0 H1.
  pose proof tiny_small as [Ht0 Ht1].
  pose proof pow2_127_large as HP.
  open_f32.
  rnd x r1. rnd (r1 / 60) d. cbn [F32.lift F32.leb F32.gtb].
  unfold AddDelayNorm.delay_norm_cell, AddDelayNorm.minutes, Cell.fillna.
  cbv zeta.
  destruct (Qle_bool d 5) eqn:E5; destruct (Qle_bool d 15) eqn:E15;
    cbn [negb andb];
    [apply Qle_bool_iff in E5, E15
    |apply Qle_bool_iff in E5; apply Qle_bool_false in E15; exfalso; lra
    |apply Qle_bool_false in E5; apply Qle_bool_iff in E15
    |apply Qle_bool_false in E5, E15].
  - rnd (d / 5) u. rnd ((5033165 # 16777216) * u) v.
    cbn [F32.clip]. apply Qabs_Qle_condition. unfold Cell.clip.
    split; case_cmp; case_minmax; qlin.
  - rnd (d - 5) w. rnd (w / 10) u. rnd ((13421773 # 33554432) * u) v.
    rnd ((5033165 # 16777216) + v) s.
    cbn [F32.clip]. apply Qabs_Qle_condition. unfold Cell.clip.
    split; case_cmp; case_minmax; qlin.
  - rnd (d - 15) w. cbn [F32.lift F32.minimum]. case_minmax.
    rnd (m / 45) u.
    rnd ((5033165 # 16777216) * u) v.
    rnd ((11744051 # 16777216) + v) s.
    cbn [F32.clip]. apply Qabs_Qle_condition. unfold Cell.clip.
    split; case_cmp; case_minmax; qlin.
Qed.

Lemma Qmin_above (w c : Q) : c < w -> Qmin w c = c.
Proof.
  intros H. unfold Qmin, GenericMinMax.gmin.
  apply Qgt_alt in H. now rewrite H.
Qed.

Lemma f32_high x : 3601 <= x -> AddDelayNorm.delay_norm_f32 (Some x) = 1.
Proof.
  intros H1.
  pose proof tiny_small as [Ht0 Ht1].
  pose proof pow2_127_large as HP.
  open_f32.
  assert (R : 0 <= x) by lra. apply round_nonneg in R. unfold eps in R.
  destruct (F32.round x) as [r1| |];
    [| vm_compute; reflexivity | contradiction].
  destruct R as (P1 & L1 & U1). cbn [F32.lift].
  assert (R : 0 <= r1 / 60) by qlin. apply round_nonneg in R. unfold eps in R.
  destruct (F32.round (r1 / 60)) as [d| |];
    [| vm_compute; reflexivity | contradiction].
  destruct R as (P2 & L2 & U2).
  cbn [F32.leb F32.gtb F32.lift].
  assert (E5 : Qle_bool d 5 = false).
  { destruct (Qle_bool d 5) eqn:E; [| reflexivity].
    apply Qle_bool_iff in E. exfalso. qlin. }
  assert (E15 : Qle_bool d 15 = false).
  { destruct (Qle_bool d 15) eqn:E; [| reflexivity].
    apply Qle_bool_iff in E. exfalso. qlin. }
  rewrite E5, E15. cbn [negb andb].
  assert (R : 0 <= d - 15) by qlin. apply round_nonneg in R. unfold eps in R.
  destruct (F32.round (d - 15)) as [w| |];
    [| vm_compute; reflexivity | contradiction].
  destruct R as (P3 & L3 & U3).
  cbn [F32.minimum]. rewrite Qmin_above by qlin.
  vm_compute. reflexivity.
Qed.

Lemma f32_low x : x <= 0 -> AddDelayNorm.delay_norm_f32 (Some x) == 0.
Proof.
  intros H0. open_f32.
  pose proof (round_nonpos x H0) as R.
  destruct (F32.round x) as [r1| |]; [| contradiction | reflexivity].
  cbn [F32.lift].
  assert (R2 : r1 / 60 <= 0) by qlin. apply round_nonpos in R2.
  destruct (F32.round (r1 / 60)) as [d| |]; [| contradiction | reflexivity].
  cbn [F32.leb F32.gtb F32.lift].
  assert (E5 : Qle_bool d 5 = true) by (apply Qle_bool_iff; lra).
  assert (E15 : Qle_bool d 15 = true) by (apply Qle_bool_iff; lra).
  rewrite E5, E15. cbn [negb andb].
  assert (R3 : d / 5 <= 0) by qlin. apply round_nonpos in R3.
  destruct (F32.round (d / 5)) as [u| |]; [| contradiction | reflexivity].
  cbn [F32.lift].
  assert (R4 : (5033165 # 16777216) * u <= 0) by lra.
  apply round_nonpos in R4.
  destruct (F32.round ((5033165 # 16777216) * u)) as [v| |];
    [| contradiction | reflexivity].
  cbn [F32.clip]. case_minmax. lra.
Qed.

Lemma f32_range ds : 0 <= AddDelayNorm.delay_norm_f32 ds <= 1.
Proof.
  unfold AddDelayNorm.delay_norm_f32. cbv zeta.
  match goal with |- context [F32.clip 0 1 ?o] => destruct o as [q| |] end;
    cbn [F32.clip]; [case_minmax; lra | lra | lra].
Qed.

(** The curve on the whole seconds from 0 to 3601, step by step. *)
Lemma steps_checked :
  forallb (fun s : nat =>
             Qle_bool
               (AddDelayNorm.delay_norm_f32 (Some (inject_Z (Z.of_nat s))))
               (AddDelayNorm.delay_norm_f32
                  (Some (inject_Z (Z.of_nat (S s))))))
          (seq 0 3601) = true.
Proof. vm_compute. reflexivity. Qed.

Lemma f32_step (s : nat) :
  (s < 3601)%nat ->
  AddDelayNorm.delay_norm_f32 (Some (inject_Z (Z.of_nat s)))
  <= AddDelayNorm.delay_norm_f32 (Some (inject_Z (Z.of_nat (S s)))).
Proof.
  intros Hs. apply Qle_bool_iff.
  apply (proj1 (forallb_forall _ _) steps_checked s).
  apply in_seq. lia.
Qed.

Lemma f32_steps (a b : nat) :
  (a <= b)%nat -> (b <= 3601)%nat ->
  AddDelayNorm.delay_norm_f32 (Some (inject_Z (Z.of_nat a)))
  <= AddDelayNorm.delay_norm_f32 (Some (inject_Z (Z.of_nat b))).
Proof.
  induction 1 as [|b Hab IH]; intros Hb; [apply Qle_refl|].
  eapply Qle_trans; [apply IH; lia | apply f32_step; lia].
Qed.

Lemma f32_whole_seconds (m n : Z) :
  (m <= n)%Z ->
  AddDelayNorm.delay_norm_f32 (Some (inject_Z m))
  <= AddDelayNorm.delay_norm_f32 (Some (inject_Z n)).
Proof.
  intros Hmn.
  destruct (Z_le_gt_dec m 0) as [Hm | Hm].
  { rewrite (f32_low (inject_Z m)).
    - apply f32_range.
    - change 0 with (inject_Z 0). now rewrite <- Zle_Qle. }
  destruct (Z_le_gt_dec 3601 n) as [Hn | Hn].
  { rewrite (f32_high (inject_Z n)).
    - apply f32_range.
    - change 3601 with (inject_Z 3601). now rewrite <- Zle_Qle. }
  rewrite <- (Z2Nat.id m), <- (Z2Nat.id n) by lia.
  apply f32_steps; lia.
Qed.

(** The exact curve at the ends. *)
Lemma cell_low x : x <= 0 -> AddDelayNorm.delay_norm_cell (Some x) == 0.
Proof.
  intros H. unfold AddDelayNorm.delay_norm_cell, AddDelayNorm.minutes,
    Cell.fillna. curve.
Qed.

Lemma cell_high x : 3600 <= x -> AddDelayNorm.delay_norm_cell (Some x) == 1.
Proof.
  intros H. unfold AddDelayNorm.delay_norm_cell, AddDelayNorm.minutes,
    Cell.fillna. curve.
Qed.

Lemma f32_close (ds : option Q) :
  Qabs (AddDelayNorm.delay_norm_f32 ds - AddDelayNorm.delay_norm_cell ds)
  <= 1 # 4000000.
Proof.
  assert (Hsome : forall x,
            Qabs (AddDelayNorm.delay_norm_f32 (Some x)
                  - AddDelayNorm.delay_norm_cell (Some x)) <= 1 # 4000000).
  { intros x. destruct (Qlt_le_dec x 0) as [Hneg | Hpos].
    - rewrite f32_low, cell_low by lra. discriminate.
    - destruct (Qlt_le_dec 4096 x) as [Hbig | Hmid].
      + rewrite f32_high, cell_high by lra. discriminate.
      + now apply close_mid. }
  destruct ds as [x|]; [apply Hsome | apply (Hsome 0)].
Qed.

(** C2, as the claim states it, fails on the float32 evaluation of
    [delay_norm_vec]: a delay of 900 s scores higher than the next
    float32 delay above it, 900.00006103515625 s, where rounding puts the
    two on different pieces of the curve. *)
Lemma delay_norm_float32_not_monotone :
  900 <= 900 + (1 # 16384) /\
  AddDelayNorm.delay_norm_f32 (Some (900 + (1 # 16384)))
  < AddDelayNorm.delay_norm_f32 (Some 900).
Proof. split; [discriminate | vm_compute; reflexivity]. Qed.

(** C2 (amended): evaluated in float32, [delay_norm] is within 2.5e-7 of
    the three-piece curve on the delay in minutes (a null delay counts as
    0) for every input, is exactly 0 for delays up to 0 and exactly 1 from
    3601 s on, and lies in [0,1] for every input.  It is non-decreasing
    over delays of whole seconds, and over arbitrary delays up to
    rounding: a smaller delay scores at most 5e-7 higher.  At 5, 15 and
    60 minutes it takes the float32 values 0.3 (0.30000001), 0.70000005
    and 1. *)
Theorem delay_norm_float32_curve :
  (forall ds : option Q,
      let d := AddDelayNorm.minutes ds in
      let y := AddDelayNorm.delay_norm_f32 ds in
      (0 <= d <= 5 -> Qabs (y - 0.30 * d / 5) <= 1 # 4000000) /\
      (5 < d <= 15 ->
       Qabs (y - (0.30 + 0.40 * (d - 5) / 10)) <= 1 # 4000000) /\
      (15 < d ->
       Qabs (y - (0.70 + 0.30 * Qmin (d - 15) 45 / 45)) <= 1 # 4000000) /\
      (d <= 0 -> y == 0) /\
      (3601 <= Cell.fillna 0 ds -> y == 1) /\
      0 <= y <= 1) /\
  AddDelayNorm.minutes None == 0 /\
  (forall s : Q, AddDelayNorm.minutes (Some s) == s / 60) /\
  (forall a b : option Q,
      AddDelayNorm.minutes a <= AddDelayNorm.minutes b ->
      AddDelayNorm.delay_norm_f32 a
      <= AddDelayNorm.delay_norm_f32 b + (1 # 2000000)) /\
  (forall m n : Z,
      (m <= n)%Z ->
      AddDelayNorm.delay_norm_f32 (Some (inject_Z m))
      <= AddDelayNorm.delay_norm_f32 (Some (inject_Z n))) /\
  AddDelayNorm.delay_norm_f32 (Some (5 * 60)) == 5033165 # 16777216 /\
  AddDelayNorm.delay_norm_f32 (Some (15 * 60)) == 2936013 # 4194304 /\
  AddDelayNorm.delay_norm_f32 (Some (60 * 60)) == 1 /\
  Qabs ((5033165 # 16777216) - 0.30) <= 1 # 4000000 /\
  Qabs ((2936013 # 4194304) - 0.70) <= 1 # 4000000.
Proof.
  split; [| split; [| split; [| split; [| split]]]].
  - intros ds d y.
    pose proof (f32_close ds) as Hclose. fold y in Hclose.
    assert (Hcell : forall c, AddDelayNorm.delay_norm_cell ds == c ->
                              Qabs (y - c) <= 1 # 4000000).
    { intros c Hc. now rewrite <- Hc. }
    split; [| split; [| split; [| split; [| split; [| apply f32_range]]]]].
    + intros Hd. apply Hcell. unfold AddDelayNorm.delay_norm_cell.
      fold d. clearbody d. curve.
    + intros Hd. apply Hcell. unfold AddDelayNorm.delay_norm_cell.
      fold d. clearbody d. curve.
    + intros Hd. apply Hcell. unfold AddDelayNorm.delay_norm_cell.
      fold d. clearbody d. curve.
    + intros Hd. unfold y, d, AddDelayNorm.minutes in *.
      destruct ds as [x|]; cbn [Cell.fillna] in *.
      * apply f32_low. qlin.
      * apply (f32_low 0). discriminate.
    + intros Hd. unfold y.
      destruct ds as [x|]; cbn [Cell.fillna] in Hd.
      * now rewrite f32_high.
      * exfalso. lra.
  - reflexivity.
  - intros s. unfold AddDelayNorm.minutes, Cell.fillna. qlin.
  - intros a b Hab.
    pose proof (f32_close a) as Ha. pose proof (f32_close b) as Hb.
    pose proof (delay_norm_monotone a b Hab) as Hm.
    apply Qabs_Qle_condition in Ha, Hb. lra.
  - apply f32_whole_seconds.
  - repeat split; vm_compute; first [reflexivity | discriminate].
Qed.

Lemma delay_norm_float32_curve_witness :
  AddDelayNorm.delay_norm_f32 (Some (inject_Z 120))
  <= AddDelayNorm.delay_norm_f32 (Some (inject_Z 900)) /\
  AddDelayNorm.delay_norm_f32 (Some 7200) == 1.
Proof.
  split.
  - apply (proj1 (proj2 (proj2 (proj2 (proj2 delay_norm_float32_curve))))).
    lia.
  - apply (proj1 (proj2 (proj2 (proj2 (proj2
             (proj1 delay_norm_float32_curve (Some 7200))))))).
    discriminate.
Defined.

(** ** Weather normalisers *)

(** C4: the heat and cold ramps take the listed values at their bucket
    edges, and stay at 1.00 beyond 27 degrees and below -5 degrees. *)
Theorem weather_norm_boundary_values :
  AddWeatherNorm.heat_norm (Some 18) == 0 /\
  AddWeatherNorm.heat_norm (Some 21) == 0.30 /\
  AddWeatherNorm.heat_norm (Some 24) == 0.70 /\
  AddWeatherNorm.heat_norm (Some 27) == 1.00 /\
  AddWeatherNorm.heat_norm (Some 40) == 1.00 /\
  AddWeatherNorm.cold_norm (Some 10) == 0 /\
  AddWeatherNorm.cold_norm (Some 5) == 0.30 /\
  AddWeatherNorm.cold_norm (Some 0) == 0.70 /\
  AddWeatherNorm.cold_norm (Some (-5)) == 1.00 /\
  AddWeatherNorm.cold_norm (Some (-20)) == 1.00.
Proof. repeat split. Qed.

(** ** Speed normaliser *)

Lemma in_merge_left df free r fk :
  In (r, fk) (AddSpeedNorm.merge_left df free) <->
  In r df /\
  ((~ has_free_entry free r /\ fk = None) \/
   (exists e, In e free /\ AddSpeedNorm.same_key r e = true
              /\ fk = Some (AddSpeedNorm.free_kph e))).
Proof.
  unfold AddSpeedNorm.merge_left, has_free_entry.
  rewrite in_flat_map. split.
  - intros (x & Hx & Hin).
    destruct (filter (AddSpeedNorm.same_key x) free) as [|m ms] eqn:Ef.
    + destruct Hin as [Heq | []]. inversion Heq; subst. split; [assumption|].
      left. split; [| reflexivity].
      intros (e & He & Hk).
      assert (Hf : In e (filter (AddSpeedNorm.same_key r) free))
        by (apply filter_In; auto).
      rewrite Ef in Hf. exact Hf.
    + apply in_map_iff in Hin. destruct Hin as (e & Heq & He).
      inversion Heq; subst. split; [assumption|].
      right. exists e. rewrite <- Ef in He. apply filter_In in He.
      tauto.
  - intros (Hr & H). exists r. split; [assumption|].
    destruct H as [(Hno & ->) | (e & He & Hk & ->)].
    + destruct (filter (AddSpeedNorm.same_key r) free) as [|m ms] eqn:Ef.
      * left; reflexivity.
      * exfalso. apply Hno. exists m.
        apply (proj1 (filter_In (AddSpeedNorm.same_key r) m free)).
        rewrite Ef. left; reflexivity.
    + assert (Hf : In e (filter (AddSpeedNorm.same_key r) free))
        by (apply filter_In; auto).
      destruct (filter (AddSpeedNorm.same_key r) free) as [|m ms] eqn:Ef.
      * destruct Hf.
      * apply in_map_iff. exists e. auto.
Qed.

Lemma in_add_speed_norm df free out :
  In out (AddSpeedNorm.add_speed_norm df free) <->
  In (AddSpeedNorm.base out, AddSpeedNorm.free out)
     (AddSpeedNorm.merge_left df free) /\
  AddSpeedNorm.speed_norm out =
    AddSpeedNorm.speed_norm_cell
      (speed_kph (AddDelayNorm.base (AddSpeedNorm.base out)))
      (AddSpeedNorm.free out).
Proof.
  unfold AddSpeedNorm.add_speed_norm. rewrite in_map_iff. split.
  - intros ([r fk] & <- & Hin). cbn. auto.
  - intros (Hin & Hs). eexists. split; [| exact Hin].
    destruct out; cbn in *. subst. reflexivity.
Qed.

Lemma speed_norm_dwell (s : option Q) (fk : option Q) :
  (forall v, s = Some v -> v < 5) ->
  AddSpeedNorm.speed_norm_cell s fk = Some 0.0.
Proof.
  intros H. unfold AddSpeedNorm.speed_norm_cell.
  destruct s as [v|]; cbn; [| reflexivity].
  specialize (H v eq_refl). unfold Cell.geb.
  destruct (Qle_bool 5 v) eqn:E; [| reflexivity].
  apply Qle_bool_iff in E. lra.
Qed.

Lemma speed_norm_moving (v : Q) (fk : option Q) :
  5 <= v ->
  AddSpeedNorm.speed_norm_cell (Some v) fk =
  match fk with
  | Some f => Some (Cell.clip 0 1 (1 - v / Qmax f 1e-3))
  | None => None
  end.
Proof.
  intros H. unfold AddSpeedNorm.speed_norm_cell. cbn. unfold Cell.geb.
  apply Qle_bool_iff in H. rewrite H. destruct fk; reflexivity.
Qed.

(** C3: in the output of the speed stage a dwelling row (speed below 5, or
    no speed at all) has speed_norm 0 whatever its free-flow reference;
    a moving row whose (route, direction) is in the lookup has
    [clip(1 - speed / max(free_kph, 1e-3), 0, 1)] for a lookup row of its
    key; a moving row whose key is absent has a null speed_norm.  Every
    input row is present in the output. *)
Theorem speed_norm_by_cases :
  forall (df : list AddDelayNorm.row) (free : list AddSpeedNorm.free_row),
    (forall out, In out (AddSpeedNorm.add_speed_norm df free) ->
       let r := AddSpeedNorm.base out in
       let s := speed_kph (AddDelayNorm.base r) in
       In r df /\
       ((forall v, s = Some v -> v < 5) ->
          Cell.eqv (AddSpeedNorm.speed_norm out) (Some 0)) /\
       (forall v, s = Some v -> 5 <= v -> has_free_entry free r ->
          exists e, In e free /\ AddSpeedNorm.same_key r e = true /\
            AddSpeedNorm.free out = Some (AddSpeedNorm.free_kph e) /\
            AddSpeedNorm.speed_norm out =
              Some (Cell.clip 0 1
                      (1 - v / Qmax (AddSpeedNorm.free_kph e) 1e-3))) /\
       (forall v, s = Some v -> 5 <= v -> ~ has_free_entry free r ->
          AddSpeedNorm.speed_norm out = None)) /\
    (forall r, In r df ->
       exists out, In out (AddSpeedNorm.add_speed_norm df free) /\
                   AddSpeedNorm.base out = r).
Proof.
  intros df free. split.
  - intros out Hout r s.
    apply in_add_speed_norm in Hout. destruct Hout as (Hm & Hs).
    apply in_merge_left in Hm. destruct Hm as (Hr & Hcase).
    fold r in Hs, Hr, Hcase. fold s in Hs.
    split; [exact Hr|]. split; [| split].
    + intros Hd. rewrite Hs, (speed_norm_dwell s _ Hd). reflexivity.
    + intros v Hv Hmov Hent.
      destruct Hcase as [(Hno & _) | (e & He & Hk & Hf)]; [contradiction|].
      exists e. repeat split; try assumption.
      rewrite Hs, Hv, Hf. apply speed_norm_moving; assumption.
    + intros v Hv Hmov Hno.
      destruct Hcase as [(_ & Hf) | (e & He & Hk & _)].
      * rewrite Hs, Hv, Hf. apply speed_norm_moving; assumption.
      * exfalso. apply Hno. exists e. auto.
  - intros r Hr.
    destruct (filter (AddSpeedNorm.same_key r) free) as [|m ms] eqn:Ef.
    + exists {| AddSpeedNorm.base := r; AddSpeedNorm.free := None;
                AddSpeedNorm.speed_norm :=
                  AddSpeedNorm.speed_norm_cell
                    (speed_kph (AddDelayNorm.base r)) None |}.
      split; [| reflexivity].
      apply in_add_speed_norm. cbn. split; [| reflexivity].
      apply in_merge_left. split; [assumption|]. left. split; [| reflexivity].
      intros (e & He & Hk).
      assert (Hf : In e (filter (AddSpeedNorm.same_key r) free))
        by (apply filter_In; auto).
      rewrite Ef in Hf. exact Hf.
    + assert (Hf : In m (filter (AddSpeedNorm.same_key r) free))
        by (rewrite Ef; left; reflexivity).
      apply filter_In in Hf. destruct Hf as (Hm & Hk).
      exists {| AddSpeedNorm.base := r;
                AddSpeedNorm.free := Some (AddSpeedNorm.free_kph m);
                AddSpeedNorm.speed_norm :=
                  AddSpeedNorm.speed_norm_cell
                    (speed_kph (AddDelayNorm.base r))
                    (Some (AddSpeedNorm.free_kph m)) |}.
      split; [| reflexivity].
      apply in_add_speed_norm. cbn. split; [| reflexivity].
      apply in_merge_left. split; [assumption|]. right. exists m. auto.
Qed.

Lemma speed_norm_by_cases_witness :
  let df := AddDelayNorm.add_delay_norm [Samples.late_minute false] in
  exists out,
    In out (AddSpeedNorm.add_speed_norm df Samples.free_table) /\
    AddSpeedNorm.speed_norm out
      = Some (Cell.clip 0 1 (1 - 20 / Qmax 40 1e-3)).
Proof.
  intros df.
  set (r := {| AddDelayNorm.base := Samples.late_minute false;
               AddDelayNorm.delay_norm :=
                 AddDelayNorm.delay_norm_cell (Some 900) |}).
  set (out := {| AddSpeedNorm.base := r; AddSpeedNorm.free := Some 40;
                 AddSpeedNorm.speed_norm :=
                   AddSpeedNorm.speed_norm_cell (Some 20) (Some 40) |}).
  assert (Hin : In out (AddSpeedNorm.add_speed_norm df Samples.free_table))
    by (left; reflexivity).
  exists out. split; [exact Hin|].
  destruct (proj1 (speed_norm_by_cases df Samples.free_table) out Hin)
    as (_ & _ & Hmov & _).
  destruct (Hmov 20 eq_refl) as (e & He & _ & _ & Hs).
  - discriminate.
  - exists Samples.free_46a. split; [left; reflexivity | reflexivity].
  - destruct He as [<- | []]. exact Hs.
Defined.

(** ** Composite scorer *)

(** C1: the 15-minutes-late minute at 20 km/h against a free-flow speed of
    40 km/h, dry and at 18 degrees, scores delay_norm 0.70, speed_norm 0.50,
    heat_norm 0, cold_norm 0 and row_stress 0.36 under the configured
    weights; 0.61 when it is a vanish anchor. *)
Theorem end_to_end_scenario :
  forall (r : veh_minute) (f : AddSpeedNorm.free_row)
         (free : list AddSpeedNorm.free_row),
    delay_sec r = Some 900 -> speed_kph r = Some 20 ->
    rain_mm r = Some 0 -> temp_c r = Some 18 ->
    filter (fun e => String.eqb (route_id r) (AddSpeedNorm.f_route_id e)
                     && Z.eqb (direction_id r) (AddSpeedNorm.f_direction_id e))
           free = [f] ->
    AddSpeedNorm.free_kph f = 40 ->
    exists out,
      score_day [r] free = [out] /\
      let w  := AddStressScore.base out in
      let ds := AddWeatherNorm.base w in
      let d  := AddSpeedNorm.base ds in
      AddDelayNorm.base d = r /\
      AddDelayNorm.delay_norm d == 0.70 /\
      Cell.eqv (AddSpeedNorm.speed_norm ds) (Some 0.50) /\
      AddWeatherNorm.heat_norm_col w == 0 /\
      AddWeatherNorm.cold_norm_col w == 0 /\
      Cell.eqv (AddStressScore.row_stress out)
               (Some (if vanish_anchor r then 0.61 else 0.36)).
Proof.
  intros r f free Hd Hs Hr Ht Hf Hk.
  unfold score_day, AddStressScore.add_stress_score,
    AddWeatherNorm.add_weather_norm, AddDelayNorm.add_delay_norm,
    AddSpeedNorm.add_speed_norm, AddSpeedNorm.merge_left,
    AddSpeedNorm.same_key.
  cbn [map flat_map AddDelayNorm.base app].
  rewrite Hf. cbn [map fst snd AddDelayNorm.base].
  eexists. split; [reflexivity|].
  unfold AddStressScore.score_row, AddWeatherNorm.veh.
  cbn [fst snd AddStressScore.base AddStressScore.row_stress
       AddWeatherNorm.base AddSpeedNorm.base AddDelayNorm.base
       AddDelayNorm.delay_norm AddSpeedNorm.speed_norm
       AddWeatherNorm.heat_norm_col AddWeatherNorm.cold_norm_col
       AddWeatherNorm.rain_norm_col].
  rewrite Hd, Hs, Hr, Ht, Hk.
  split; [reflexivity|].
  destruct (vanish_anchor r); repeat split.
Qed.

Lemma end_to_end_scenario_witness :
  exists out,
    score_day [Samples.late_minute false] Samples.free_table = [out] /\
    Cell.eqv (AddStressScore.row_stress out) (Some 0.36).
Proof.
  destruct (end_to_end_scenario (Samples.late_minute false)
              Samples.free_46a Samples.free_table
              eq_refl eq_refl eq_refl eq_refl eq_refl eq_refl)
    as (out & Hout & _ & _ & _ & _ & _ & Hstress).
  exists out. split; [exact Hout | exact Hstress].
Defined.

Lemma row_stress_null_speed w d r h c a :
  AddStressScore.row_stress_cell w d None r h c a = None.
Proof. reflexivity. Qed.

Lemma in_score_day df free out :
  In out (score_day df free) <->
  In (AddWeatherNorm.base (AddStressScore.base out))
     (AddSpeedNorm.add_speed_norm (AddDelayNorm.add_delay_norm df) free) /\
  out = AddStressScore.score_row AddStressScore.W
          (AddStressScore.base out) /\
  AddStressScore.base out =
    (let ds := AddWeatherNorm.base (AddStressScore.base out) in
     {| AddWeatherNorm.base := ds;
        AddWeatherNorm.rain_norm_col :=
          AddWeatherNorm.rain_norm (rain_mm (AddWeatherNorm.veh ds));
        AddWeatherNorm.heat_norm_col :=
          AddWeatherNorm.heat_norm (temp_c (AddWeatherNorm.veh ds));
        AddWeatherNorm.cold_norm_col :=
          AddWeatherNorm.cold_norm (temp_c (AddWeatherNorm.veh ds)) |}).
Proof.
  unfold score_day, AddStressScore.add_stress_score,
    AddWeatherNorm.add_weather_norm.
  rewrite in_map_iff. split.
  - intros (w & <- & Hw). apply in_map_iff in Hw.
    destruct Hw as (ds & <- & Hds). cbn. auto.
  - intros (Hds & Ho & Hw). exists (AddStressScore.base out).
    split; [symmetry; exact Ho|].
    apply in_map_iff. eexists. split; [| exact Hds].
    symmetry. exact Hw.
Qed.

(** C10: in the scored table a moving row (speed at least 5) whose
    (route, direction) has no free-flow entry carries a null row_stress;
    the row is neither dropped nor zero-filled: every such input row has
    its scored row, with the null. *)
Theorem null_speed_norm_reaches_row_stress :
  forall (df : list veh_minute) (free : list AddSpeedNorm.free_row),
    (forall out, In out (score_day df free) ->
       let ds := AddWeatherNorm.base (AddStressScore.base out) in
       let d := AddSpeedNorm.base ds in
       forall v, speed_kph (AddDelayNorm.base d) = Some v -> 5 <= v ->
         ~ has_free_entry free d ->
         AddSpeedNorm.speed_norm ds = None /\
         AddStressScore.row_stress out = None) /\
    (forall r v, In r df -> speed_kph r = Some v -> 5 <= v ->
       ~ has_free_entry free
           {| AddDelayNorm.base := r;
              AddDelayNorm.delay_norm :=
                AddDelayNorm.delay_norm_cell (delay_sec r) |} ->
       exists out, In out (score_day df free) /\
         AddWeatherNorm.veh (AddWeatherNorm.base (AddStressScore.base out)) = r /\
         AddStressScore.row_stress out = None).
Proof.
  intros df free.
  assert (Hall : forall out, In out (score_day df free) ->
       let ds := AddWeatherNorm.base (AddStressScore.base out) in
       let d := AddSpeedNorm.base ds in
       forall v, speed_kph (AddDelayNorm.base d) = Some v -> 5 <= v ->
         ~ has_free_entry free d ->
         AddSpeedNorm.speed_norm ds = None /\
         AddStressScore.row_stress out = None).
  { intros out Hout ds d v Hv Hmov Hno.
    apply in_score_day in Hout. destruct Hout as (Hds & Ho & _).
    fold ds in Hds. apply in_add_speed_norm in Hds.
    destruct Hds as (Hm & Hs). apply in_merge_left in Hm.
    fold d in Hm, Hs. destruct Hm as (_ & [(_ & Hf) | (e & He & Hk & _)]).
    - rewrite Hv, Hf, (speed_norm_moving v None Hmov) in Hs.
      split; [exact Hs|].
      rewrite Ho. unfold AddStressScore.score_row.
      cbn [AddStressScore.row_stress]. fold ds. rewrite Hs.
      apply row_stress_null_speed.
    - exfalso. apply Hno. exists e. auto. }
  split; [exact Hall|].
  intros r v Hr Hv Hmov Hno.
  set (d := {| AddDelayNorm.base := r;
               AddDelayNorm.delay_norm :=
                 AddDelayNorm.delay_norm_cell (delay_sec r) |}) in *.
  set (ds := {| AddSpeedNorm.base := d; AddSpeedNorm.free := None;
                AddSpeedNorm.speed_norm :=
                  AddSpeedNorm.speed_norm_cell (speed_kph r) None |}).
  set (w := {| AddWeatherNorm.base := ds;
               AddWeatherNorm.rain_norm_col :=
                 AddWeatherNorm.rain_norm (rain_mm r);
               AddWeatherNorm.heat_norm_col :=
                 AddWeatherNorm.heat_norm (temp_c r);
               AddWeatherNorm.cold_norm_col :=
                 AddWeatherNorm.cold_norm (temp_c r) |}).
  assert (Hin : In (AddStressScore.score_row AddStressScore.W w)
                   (score_day df free)).
  { apply in_score_day. cbn. repeat split.
    apply in_add_speed_norm. cbn. split; [| reflexivity].
    apply in_merge_left. split.
    - unfold AddDelayNorm.add_delay_norm. apply in_map_iff.
      exists r. auto.
    - left. auto. }
  exists (AddStressScore.score_row AddStressScore.W w).
  split; [exact Hin|]. split; [reflexivity|].
  exact (proj2 (Hall _ Hin v Hv Hmov Hno)).
Qed.

Lemma null_speed_norm_reaches_row_stress_witness :
  exists out,
    In out (score_day [Samples.unknown_route_minute] Samples.free_table) /\
    AddStressScore.row_stress out = None.
Proof.
  destruct (proj2 (null_speed_norm_reaches_row_stress
                     [Samples.unknown_route_minute] Samples.free_table)
              Samples.unknown_route_minute 20)
    as (out & Hin & _ & Hnull).
  - left; reflexivity.
  - reflexivity.
  - discriminate.
  - intros (e & [<- | []] & Hk). discriminate Hk.
  - exists out. split; [exact Hin | exact Hnull].
Defined.

Lemma row_stress_W_bounds d s r h c a :
  0 <= d <= 1 -> 0 <= s <= 1 -> 0 <= r <= 1 -> 0 <= h <= 1 -> 0 <= c <= 1 ->
  exists y,
    AddStressScore.row_stress_cell AddStressScore.W d (Some s) r h c a = Some y
    /\ 0 <= y <= 1.
Proof.
  intros Hd Hs Hr Hh Hc. eexists. split; [reflexivity|].
  cbn [AddStressScore.delay AddStressScore.speed AddStressScore.rain
       AddStressScore.heat AddStressScore.cold AddStressScore.vanish
       AddStressScore.W].
  destruct a; unfold Cell.of_bool; lra.
Qed.

(** The only weight table the scorer ever uses sums to exactly 1.00. *)
Lemma configured_weights_sum_to_one :
  AddStressScore.weight_sum AddStressScore.W == 1.00.
Proof. reflexivity. Qed.

(** ** Sorting and distinct values *)

Section SortFacts.
Context {A : Type} (le : A -> A -> bool).

Lemma insert_perm (x : A) (l : list A) :
  Permutation (Frame.insert le x l) (x :: l).
Proof.
  induction l as [|y r IH]; cbn; [reflexivity|].
  destruct (le x y); [reflexivity|].
  rewrite IH. apply perm_swap.
Qed.

Lemma sort_by_perm (l : list A) : Permutation (Frame.sort_by le l) l.
Proof.
  induction l as [|x r IH]; cbn; [reflexivity|].
  rewrite insert_perm. now apply perm_skip.
Qed.

Lemma in_sort_by (x : A) (l : list A) :
  In x (Frame.sort_by le l) <-> In x l.
Proof.
  split; apply Permutation_in;
    [apply sort_by_perm | symmetry; apply sort_by_perm].
Qed.

Lemma length_sort_by (l : list A) :
  List.length (Frame.sort_by le l) = List.length l.
Proof. apply Permutation_length, sort_by_perm. Qed.
End SortFacts.

Section UniqFacts.
Context {A : Type} (eqb : A -> A -> bool).
Hypothesis eqb_spec : forall x y, eqb x y = true <-> x = y.

Lemma in_uniq (x : A) (l : list A) : In x (Frame.uniq eqb l) <-> In x l.
Proof.
  induction l as [|y r IH]; cbn; [tauto|].
  rewrite filter_In, IH. split.
  - intros [-> | [H _]]; auto.
  - intros [-> | H]; [auto|].
    destruct (eqb y x) eqn:E.
    + left. now apply eqb_spec.
    + right. auto.
Qed.

Lemma NoDup_uniq (l : list A) : NoDup (Frame.uniq eqb l).
Proof.
  induction l as [|y r IH]; cbn; constructor.
  - rewrite filter_In. intros [_ H].
    assert (E : eqb y y = true) by now apply eqb_spec.
    rewrite E in H. discriminate.
  - now apply NoDup_filter.
Qed.
End UniqFacts.

(** ** Free-flow table *)

Lemma key_eqb_spec (a b : BuildFreeflow.key) :
  BuildFreeflow.key_eqb a b = true <-> a = b.
Proof.
  destruct a as [s1 z1], b as [s2 z2]. unfold BuildFreeflow.key_eqb. cbn.
  rewrite andb_true_iff, String.eqb_eq, Z.eqb_eq.
  split; [intros [-> ->]; reflexivity | intros H; inversion H; auto].
Qed.

Lemma in_dropna (v : Q) (l : list (option Q)) :
  In v (Frame.dropna l) <-> In (Some v) l.
Proof.
  unfold Frame.dropna. rewrite in_flat_map. split.
  - intros ([w|] & Hin & Hv); [| destruct Hv].
    destruct Hv as [-> | []]. exact Hin.
  - intros H. exists (Some v). split; [exact H | left; reflexivity].
Qed.

Lemma in_moving (r : AddDelayNorm.row) (df : list AddDelayNorm.row) :
  In r (BuildFreeflow.moving df) <->
  In r df /\ exists v, speed_kph (AddDelayNorm.base r) = Some v /\ 10 <= v.
Proof.
  unfold BuildFreeflow.moving. rewrite filter_In.
  destruct (speed_kph (AddDelayNorm.base r)) as [v|]; cbn.
  - unfold Cell.geb. rewrite Qle_bool_iff. split.
    + intros [H1 H2]. eauto.
    + intros [H1 (w & Hw & Hle)]. inversion Hw; subst. auto.
  - split; [intros [_ H]; discriminate | intros [_ (w & Hw & _)]; discriminate].
Qed.

Lemma in_group_speeds (k : BuildFreeflow.key) (v : Q)
    (df : list AddDelayNorm.row) :
  In v (BuildFreeflow.group_speeds k df) <->
  exists r, In r df /\ BuildFreeflow.key_of r = k /\
            speed_kph (AddDelayNorm.base r) = Some v.
Proof.
  unfold BuildFreeflow.group_speeds.
  rewrite in_dropna, in_map_iff. split.
  - intros (r & Hs & Hr). apply filter_In in Hr. destruct Hr as [Hr Hk].
    apply key_eqb_spec in Hk. eauto.
  - intros (r & Hr & Hk & Hs). exists r. split; [exact Hs|].
    apply filter_In. split; [exact Hr|]. now apply key_eqb_spec.
Qed.

Lemma in_group_keys (k : BuildFreeflow.key) (df : list AddDelayNorm.row) :
  In k (BuildFreeflow.group_keys df) <->
  exists r, In r df /\ BuildFreeflow.key_of r = k.
Proof.
  unfold BuildFreeflow.group_keys.
  rewrite in_sort_by, (in_uniq _ key_eqb_spec), in_map_iff.
  split; intros (r & H1 & H2); eauto.
Qed.

(** A quantile of a non-empty group is at least any lower bound of the
    group: it interpolates between two of its values. *)
Lemma quantile_lower_bound (q c : Q) (values : list Q) :
  0 <= q -> q < 1 -> values <> [] ->
  (forall v, In v values -> c <= v) ->
  c <= BuildFreeflow.quantile q values.
Proof.
  intros Hq0 Hq1 Hne Hall. unfold BuildFreeflow.quantile.
  set (s := Frame.sort_by Qle_bool values).
  assert (Hs : forall v, In v s -> c <= v)
    by (intros v Hv; apply Hall; now apply in_sort_by in Hv).
  assert (Hlen : (1 <= Z.of_nat (List.length s))%Z).
  { unfold s. rewrite length_sort_by.
    destruct values; [contradiction | cbn [List.length]; lia]. }
  set (n := Z.of_nat (List.length s)) in *.
  set (q_idx := q * inject_Z (n - 1)).
  assert (Hn0 : 0 <= inject_Z (n - 1))
    by (change 0 with (inject_Z 0); rewrite <- Zle_Qle; lia).
  assert (Hi0 : 0 <= q_idx) by (unfold q_idx; nra).
  assert (Hi1 : q_idx <= inject_Z (n - 1)) by (unfold q_idx; nra).
  set (idx := Qfloor q_idx).
  assert (Hf0 : inject_Z idx <= q_idx) by apply Qfloor_le.
  assert (Hf1 : q_idx < inject_Z (idx + 1)) by apply Qlt_floor.
  assert (Hidx0 : (0 <= idx)%Z).
  { change 0%Z with (Qfloor (inject_Z 0)). now apply Qfloor_resp_le. }
  assert (Hidx1 : (idx <= n - 1)%Z).
  { rewrite <- (Qfloor_Z (n - 1)). now apply Qfloor_resp_le. }
  assert (Hval : c <= nth (Z.to_nat idx) s 0).
  { apply Hs, nth_In. unfold n in Hidx1. lia. }
  destruct (Qeq_bool (q_idx - inject_Z idx) 0) eqn:E; [exact Hval|].
  apply Qeq_bool_neq in E.
  assert (Hfrac0 : 0 <= q_idx - inject_Z idx) by lra.
  assert (Hfrac1 : q_idx - inject_Z idx <= 1).
  { rewrite inject_Z_plus in Hf1. change (inject_Z 1) with 1 in Hf1. lra. }
  assert (Hlt : (idx < n - 1)%Z).
  { destruct (Z.eq_dec idx (n - 1)) as [Heq|Hneq]; [| lia].
    exfalso. apply E. rewrite Heq in *. lra. }
  assert (Hnext : c <= nth (Z.to_nat (idx + 1)) s 0).
  { apply Hs, nth_In. unfold n in Hlt. lia. }
  nra.
Qed.

(** ** Sortedness of [sort_by] *)

Section SortedFacts.
Context {A : Type} (le : A -> A -> bool).
Hypothesis le_total : forall a b, le a b = false -> le b a = true.
Hypothesis le_trans :
  forall a b c, le a b = true -> le b c = true -> le a c = true.

Let R (a b : A) : Prop := le a b = true.

Lemma insert_sorted (x : A) (l : list A) :
  StronglySorted R l -> StronglySorted R (Frame.insert le x l).
Proof.
  induction 1 as [|y r Hr IH Hy]; cbn.
  - constructor; constructor.
  - destruct (le x y) eqn:E.
    + constructor; [constructor; assumption|].
      constructor; [exact E|].
      eapply Forall_impl; [| exact Hy].
      intros z Hz. unfold R in *. eauto.
    + constructor; [exact IH|].
      assert (Hall : Forall (R y) (x :: r))
        by (constructor; [apply le_total; exact E | exact Hy]).
      eapply Permutation_Forall; [| exact Hall].
      symmetry. apply insert_perm.
Qed.

Lemma sort_by_sorted (l : list A) : StronglySorted R (Frame.sort_by le l).
Proof.
  induction l as [|x r IH]; cbn; [constructor|].
  now apply insert_sorted.
Qed.
End SortedFacts.

(** ** The free-flow percentile *)







(** ** Temporal join *)

Module JoinFacts.
Import JoinMinuteWithWeather.

Lemma sorted_weather (ws : list stamped) :
  StronglySorted ascending (Frame.sort_by by_w_minute ws).
Proof.
  apply sort_by_sorted; unfold by_w_minute; intros; lia.
Qed.

Lemma backward_scan_none t ws :
  StronglySorted ascending ws -> backward_scan t ws = None ->
  forall x, In x ws -> (t < w_minute x)%Z.
Proof.
  induction 1 as [|y r Hr IH Hy]; cbn; [contradiction|].
  destruct (w_minute y <=? t)%Z eqn:E.
  - destruct (backward_scan t r); discriminate.
  - intros _ x [<- | Hx]; [lia|].
    rewrite Forall_forall in Hy. specialize (Hy x Hx).
    unfold ascending, by_w_minute in Hy. lia.
Qed.

Lemma backward_scan_some t ws b :
  StronglySorted ascending ws -> backward_scan t ws = Some b ->
  In b ws /\ (w_minute b <= t)%Z /\
  forall x, In x ws -> (w_minute x <= t)%Z ->
            (w_minute x <= w_minute b)%Z.
Proof.
  induction 1 as [|y r Hr IH Hy]; cbn; [discriminate|].
  destruct (w_minute y <=? t)%Z eqn:E; [| discriminate].
  destruct (backward_scan t r) as [c|] eqn:Eb.
  - intros Heq. inversion Heq; subst c.
    destruct (IH eq_refl) as (Hin & Hle & Hmax).
    split; [right; exact Hin|]. split; [exact Hle|].
    intros x [<- | Hx] Hxt; [| now apply Hmax].
    rewrite Forall_forall in Hy. specialize (Hy b Hin).
    unfold ascending, by_w_minute in Hy. lia.
  - intros Heq. inversion Heq; subst y.
    split; [left; reflexivity|]. split; [lia|].
    intros x [<- | Hx] Hxt; [lia|].
    pose proof (backward_scan_none t r Hr Eb x Hx). lia.
Qed.

Lemma forward_scan_none t ws :
  forward_scan t ws = None -> forall x, In x ws -> (w_minute x < t)%Z.
Proof.
  induction ws as [|y r IH]; cbn; [contradiction|].
  destruct (w_minute y <? t)%Z eqn:E; [| discriminate].
  intros Hn x [<- | Hx]; [lia | now apply IH].
Qed.

Lemma forward_scan_some t ws f :
  StronglySorted ascending ws -> forward_scan t ws = Some f ->
  In f ws /\ (t <= w_minute f)%Z /\
  forall x, In x ws -> (t <= w_minute x)%Z ->
            (w_minute f <= w_minute x)%Z.
Proof.
  induction 1 as [|y r Hr IH Hy]; cbn; [discriminate|].
  destruct (w_minute y <? t)%Z eqn:E.
  - intros Heq. destruct (IH Heq) as (Hin & Hle & Hmin).
    split; [right; exact Hin|]. split; [exact Hle|].
    intros x [<- | Hx] Hxt; [lia | now apply Hmin].
  - intros Heq. inversion Heq; subst y.
    split; [left; reflexivity|]. split; [lia|].
    intros x [<- | Hx] Hxt; [lia|].
    rewrite Forall_forall in Hy. specialize (Hy x Hx).
    unfold ascending, by_w_minute in Hy. lia.
Qed.

(** The nearest-match of one vehicle minute against a sorted weather
    series: nothing exactly when every record is farther than the
    tolerance, else a closest record, itself within the tolerance. *)
Lemma nearest_spec t ws :
  StronglySorted ascending ws ->
  match nearest t ws with
  | None =>
      forall x, In x ws -> (tolerance < Z.abs (w_minute x - t))%Z
  | Some y =>
      In y ws /\ (Z.abs (w_minute y - t) <= tolerance)%Z /\
      forall x, In x ws ->
        (Z.abs (w_minute y - t) <= Z.abs (w_minute x - t))%Z
  end.
Proof.
  intros Hs. unfold nearest, backward, forward, tolerance.
  pose proof (backward_scan_none t ws Hs) as Hbn.
  pose proof (fun b => backward_scan_some t ws b Hs) as Hbs.
  pose proof (forward_scan_none t ws) as Hfn.
  pose proof (fun f => forward_scan_some t ws f Hs) as Hfs.
  destruct (backward_scan t ws) as [b|];
    destruct (forward_scan t ws) as [f|].
  all: try (destruct (Hbs b eq_refl) as (Hbi & Hbt & Hbm); clear Hbs).
  all: try (destruct (Hfs f eq_refl) as (Hfi & Hft & Hfm); clear Hfs).
  all: try specialize (Hbn eq_refl).
  all: try specialize (Hfn eq_refl).
  all: repeat match goal with
       | |- context [(?a >? ?c)%Z] =>
           destruct (Z.gtb_spec a c)
       | |- context [(?a <=? ?c)%Z] =>
           destruct (Z.leb_spec a c)
       end.
  all: repeat split; try assumption; try lia.
  all: intros x Hx.
  all: try (pose proof (Hbn x Hx)).
  all: try (pose proof (Hfn x Hx)).
  all: try (pose proof (Hbm x Hx)).
  all: try (pose proof (Hfm x Hx)).
  all: lia.
Qed.

(** Grouping a table by a key and concatenating the groups permutes
    the table. *)
Lemma filter_split {A : Type} (p : A -> bool) (l : list A) :
  Permutation (filter p l ++ filter (fun x => negb (p x)) l) l.
Proof.
  induction l as [|x r IH]; cbn; [reflexivity|].
  destruct (p x); cbn.
  - now apply perm_skip.
  - rewrite <- Permutation_middle. now apply perm_skip.
Qed.

Lemma groups_partition {A : Type} (key : A -> string) (zs : list string) :
  NoDup zs -> forall l : list A,
  (forall x, In x l -> In (key x) zs) ->
  Permutation
    (List.concat
       (map (fun z => filter (fun r => String.eqb (key r) z) l) zs))
    l.
Proof.
  induction 1 as [|z zs' Hz Hnd IH]; intros l Hall; cbn.
  - destruct l as [|x r]; [reflexivity|].
    destruct (Hall x (or_introl eq_refl)).
  - set (rest := filter (fun r => negb (String.eqb (key r) z)) l).
    assert (Hsame :
      map (fun z' => filter (fun r => String.eqb (key r) z') l) zs'
      = map (fun z' => filter (fun r => String.eqb (key r) z') rest) zs').
    { apply map_ext_in. intros z' Hz'. unfold rest.
      clear IH Hall. induction l as [|x r IHl]; cbn; [reflexivity|].
      destruct (String.eqb (key x) z') eqn:E1;
        destruct (String.eqb (key x) z) eqn:E2; cbn;
        rewrite ?E1; try (f_equal; exact IHl); try exact IHl.
      apply String.eqb_eq in E1, E2. subst. contradiction. }
    rewrite Hsame, (IH rest).
    + apply filter_split.
    + intros x Hx. apply filter_In in Hx. destruct Hx as [Hx Hk].
      cbn beta in Hk.
      destruct (Hall x Hx) as [Heq | Hin]; [| exact Hin].
      rewrite <- Heq, String.eqb_refl in Hk. discriminate.
Qed.

Lemma concat_map_perm {A B : Type} (f g : B -> list A) (zs : list B) :
  (forall z, Permutation (f z) (g z)) ->
  Permutation (List.concat (map f zs)) (List.concat (map g zs)).
Proof.
  intros H. induction zs as [|z r IH]; cbn; [reflexivity|].
  now apply Permutation_app.
Qed.

Lemma left_rows_merge_asof (l : list tagged) (r : list stamped) :
  map left_row (merge_asof l r) = l.
Proof.
  unfold merge_asof. rewrite map_map. cbn. apply map_id.
Qed.

Lemma join_zones_left_preserving (v : list tagged) (w : list stamped) :
  Permutation (map left_row (join_zones v w)) v.
Proof.
  unfold join_zones. rewrite concat_map, map_map.
  etransitivity.
  - apply concat_map_perm with
      (g := fun z => filter (fun r => String.eqb (zone r) z) v).
    intros z. rewrite left_rows_merge_asof. apply sort_by_perm.
  - apply groups_partition.
    + apply NoDup_uniq. apply String.eqb_eq.
    + intros x Hx. apply (in_uniq _ String.eqb_eq). now apply in_map.
Qed.

Lemma in_join_zones (v : list tagged) (w : list stamped) (j : joined) :
  In j (join_zones v w) ->
  In (left_row j) v /\
  right_row j =
    nearest (minute (left_row j))
      (Frame.sort_by by_w_minute
         (filter (fun s => String.eqb (w_zone (obs s)) (zone (left_row j)))
                 w)).
Proof.
  unfold join_zones. rewrite in_concat.
  intros (part & Hpart & Hj). apply in_map_iff in Hpart.
  destruct Hpart as (z & <- & _). unfold merge_asof in Hj.
  apply in_map_iff in Hj. destruct Hj as (l & <- & Hl). cbn.
  apply in_sort_by, filter_In in Hl. destruct Hl as [Hl Hz].
  apply String.eqb_eq in Hz. subst z. auto.
Qed.

End JoinFacts.

(** C5: the join keeps exactly one row per input vehicle-minute (its left
    rows are a permutation of the tagged input).  On each row the weather
    columns are null exactly when no weather record of the row's zone has
    its minute within 7 min 30 s of the row's minute; otherwise they are
    those of a weather record of the same zone, within the tolerance, and
    at least as close in time as every other record of that zone. *)
Theorem temporal_join_nearest_in_zone :
  forall (hav_km : Q -> Q -> Q -> Q -> Q)
         (v : list JoinMinuteWithWeather.vehicle)
         (w : list JoinMinuteWithWeather.weather),
    let out := JoinMinuteWithWeather.join hav_km v w in
    Permutation (map JoinMinuteWithWeather.left_row out)
                (map (JoinMinuteWithWeather.tag hav_km) v) /\
    List.length out = List.length v /\
    forall j, In j out ->
      let t := JoinMinuteWithWeather.minute (JoinMinuteWithWeather.left_row j) in
      let z := JoinMinuteWithWeather.zone (JoinMinuteWithWeather.left_row j) in
      let gap x :=
        Z.abs (JoinMinuteWithWeather.floor_min
                 (JoinMinuteWithWeather.w_timestamp x) - t) in
      ((JoinMinuteWithWeather.rain_mm_col j = None /\
        JoinMinuteWithWeather.temp_c_col j = None) <->
       (forall x, In x w -> JoinMinuteWithWeather.w_zone x = z ->
                  (JoinMinuteWithWeather.tolerance < gap x)%Z)) /\
      (forall y, JoinMinuteWithWeather.right_row j = Some y ->
         let o := JoinMinuteWithWeather.obs y in
         In o w /\
         JoinMinuteWithWeather.w_zone o = z /\
         (gap o <= JoinMinuteWithWeather.tolerance)%Z /\
         JoinMinuteWithWeather.rain_mm_col j
           = Some (JoinMinuteWithWeather.rain_mm o) /\
         JoinMinuteWithWeather.temp_c_col j
           = Some (JoinMinuteWithWeather.temp_c o) /\
         (forall x, In x w -> JoinMinuteWithWeather.w_zone x = z ->
                    (gap o <= gap x)%Z)).
Proof.
  intros hav_km v w out.
  assert (Hperm : Permutation (map JoinMinuteWithWeather.left_row out)
                    (map (JoinMinuteWithWeather.tag hav_km) v))
    by apply JoinFacts.join_zones_left_preserving.
  split; [exact Hperm|]. split.
  { apply Permutation_length in Hperm.
    rewrite !length_map in Hperm. exact Hperm. }
  intros j Hj t z gap.
  apply JoinFacts.in_join_zones in Hj. destruct Hj as (_ & Hr).
  fold t z in Hr.
  set (ws := Frame.sort_by JoinMinuteWithWeather.by_w_minute
               (filter (fun s => String.eqb
                          (JoinMinuteWithWeather.w_zone
                             (JoinMinuteWithWeather.obs s)) z)
                       (map JoinMinuteWithWeather.stamp w))) in Hr.
  assert (Hws : forall s, In s ws <->
            exists x, In x w /\ JoinMinuteWithWeather.w_zone x = z /\
                      s = JoinMinuteWithWeather.stamp x).
  { intros s. unfold ws. rewrite in_sort_by, filter_In, in_map_iff.
    rewrite String.eqb_eq. split.
    - intros ((x & <- & Hx) & Hz). exists x. auto.
    - intros (x & Hx & Hz & ->). split; [exists x; auto | exact Hz]. }
  pose proof (JoinFacts.nearest_spec t ws (JoinFacts.sorted_weather _))
    as Hn.
  unfold JoinMinuteWithWeather.rain_mm_col, JoinMinuteWithWeather.temp_c_col.
  rewrite Hr.
  destruct (JoinMinuteWithWeather.nearest t ws) as [y|]; cbn [option_map].
  - destruct Hn as (Hy & Htol & Hmin).
    apply Hws in Hy. destruct Hy as (o & Ho & Hz & ->).
    cbn [JoinMinuteWithWeather.stamp JoinMinuteWithWeather.w_minute
         JoinMinuteWithWeather.obs] in *.
    split.
    + split; [intros [H _]; discriminate|].
      intros Hfar. specialize (Hfar o Ho Hz). unfold gap in Hfar. lia.
    + intros y Heq. inversion Heq; subst y.
      cbn [JoinMinuteWithWeather.stamp JoinMinuteWithWeather.obs].
      repeat split; try assumption.
      intros x Hx Hxz.
      specialize (Hmin (JoinMinuteWithWeather.stamp x)).
      apply Hmin, Hws. exists x. auto.
  - split; [| intros y Heq; discriminate].
    split; [| auto].
    intros _ x Hx Hxz.
    specialize (Hn (JoinMinuteWithWeather.stamp x)).
    apply Hn, Hws. exists x. auto.
Qed.

Lemma temporal_join_nearest_in_zone_witness :
  exists j y,
    In j (JoinMinuteWithWeather.join Samples.grid_km
            [Samples.centre_bus] Samples.readings) /\
    JoinMinuteWithWeather.right_row j = Some y /\
    JoinMinuteWithWeather.obs y = Samples.reading "centre" 1752570300 1 16 /\
    JoinMinuteWithWeather.temp_c_col j = Some 16.
Proof.
  set (y := JoinMinuteWithWeather.stamp
              (Samples.reading "centre" 1752570300 1 16)).
  set (j := {| JoinMinuteWithWeather.left_row :=
                 JoinMinuteWithWeather.tag Samples.grid_km Samples.centre_bus;
               JoinMinuteWithWeather.right_row := Some y |}).
  assert (Hin : In j (JoinMinuteWithWeather.join Samples.grid_km
                        [Samples.centre_bus] Samples.readings))
    by (left; reflexivity).
  exists j, y. split; [exact Hin|]. split; [reflexivity|].
  split; [reflexivity|].
  destruct (proj2 (proj2 (temporal_join_nearest_in_zone Samples.grid_km
                            [Samples.centre_bus] Samples.readings)) j Hin)
    as (_ & Hsome).
  exact (proj1 (proj2 (proj2 (proj2 (proj2 (Hsome y eq_refl)))))).
Defined.


(** ** Segment snapping *)

(** What the filter of [snap_minutes] keeps: the rows of the nearest
    join whose distance, in the units of the coordinates, is at most 50,
    50 included. *)
Lemma snap_minutes_keeps (df : list AddStressScore.row)
    (segments : list SegmentUtils.segment) (j : SegmentUtils.snapped) :
  In j (SegmentUtils.snap_minutes df segments) <->
  In j (SegmentUtils.sjoin_nearest df segments) /\
  exists d, SegmentUtils.dist_m_sq j = Some d /\ d <= SegmentUtils.sq 50.
Proof.
  unfold SegmentUtils.snap_minutes, SegmentUtils.snap_minutes_upto.
  rewrite filter_In. unfold SegmentUtils.within_max.
  destruct (SegmentUtils.dist_m_sq j) as [d|].
  - unfold Cell.leb. rewrite andb_true_iff, !Qle_bool_iff. split.
    + intros [H1 [_ H2]]. eauto.
    + intros [H1 (d' & Hd & Hle)]. inversion Hd; subst.
      repeat split; [assumption | discriminate | assumption].
  - split; [intros [_ H]; discriminate
           | intros [_ (d & Hd & _)]; discriminate].
Qed.

(** The point of a segment closest to [p] lies between its ends. *)
Lemma dist_sq_in_box (p : SegmentUtils.coord) (s : SegmentUtils.segment)
    (w so e no : Q) :
  w <= fst p <= e -> so <= snd p <= no ->
  w <= fst (SegmentUtils.p0 s) <= e -> so <= snd (SegmentUtils.p0 s) <= no ->
  w <= fst (SegmentUtils.p1 s) <= e -> so <= snd (SegmentUtils.p1 s) <= no ->
  SegmentUtils.dist_sq p s
    <= SegmentUtils.sq (e - w) + SegmentUtils.sq (no - so).
Proof.
  destruct p as [px py], s as [id [ax ay] [bx by_]]. cbn [fst snd
    SegmentUtils.p0 SegmentUtils.p1].
  intros Hpx Hpy Hax Hay Hbx Hby.
  unfold SegmentUtils.dist_sq. cbn [fst snd SegmentUtils.p0 SegmentUtils.p1].
  assert (Hbox : forall qx qy, w <= qx <= e -> so <= qy <= no ->
            SegmentUtils.dist_sq_points (px, py) (qx, qy)
              <= SegmentUtils.sq (e - w) + SegmentUtils.sq (no - so)).
  { intros qx qy Hqx Hqy. unfold SegmentUtils.dist_sq_points, SegmentUtils.sq.
    cbn [fst snd]. nra. }
  destruct (Qeq_bool _ 0); [apply Hbox; assumption|].
  set (t := Cell.clip 0 1 _).
  assert (Ht : 0 <= t <= 1).
  { unfold t, Cell.clip. split.
    - apply Q.min_glb; [apply Q.le_max_r | lra].
    - apply Q.le_min_r. }
  clearbody t. apply Hbox; nra.
Qed.

Lemma filter_all {A : Type} (f : A -> bool) (l : list A) :
  (forall x, In x l -> f x = true) -> filter f l = l.
Proof.
  induction l as [|x r IH]; cbn; intros H; [reflexivity|].
  rewrite (H x (or_introl eq_refl)). f_equal. apply IH. auto.
Qed.

(** With the coordinates in degrees, the bound of 50 excludes nothing as
    soon as the points and the segments share a box whose diagonal is at
    most 50 degrees. *)
Lemma snap_minutes_excludes_nothing_in_box
    (df : list AddStressScore.row) (segments : list SegmentUtils.segment)
    (w so e no : Q) :
  segments <> [] ->
  SegmentUtils.sq (e - w) + SegmentUtils.sq (no - so) <= SegmentUtils.sq 50 ->
  (forall r, In r df ->
     w <= fst (SegmentUtils.point_of r) <= e /\
     so <= snd (SegmentUtils.point_of r) <= no) ->
  (forall s, In s segments ->
     (w <= fst (SegmentUtils.p0 s) <= e /\
      so <= snd (SegmentUtils.p0 s) <= no) /\
     (w <= fst (SegmentUtils.p1 s) <= e /\
      so <= snd (SegmentUtils.p1 s) <= no)) ->
  SegmentUtils.snap_minutes df segments
    = SegmentUtils.sjoin_nearest df segments.
Proof.
  intros Hne Hdiag Hpts Hsegs.
  unfold SegmentUtils.snap_minutes, SegmentUtils.snap_minutes_upto.
  apply filter_all. intros j Hj.
  unfold SegmentUtils.sjoin_nearest in Hj. apply in_flat_map in Hj.
  destruct Hj as (r & Hr & Hj).
  destruct (SegmentUtils.min_dist_sq (SegmentUtils.point_of r) segments)
    as [d|] eqn:Emin.
  - apply in_map_iff in Hj. destruct Hj as (s & <- & Hs).
    apply filter_In in Hs. destruct Hs as [Hs Heq].
    apply Qeq_bool_iff in Heq.
    unfold SegmentUtils.within_max. cbn [SegmentUtils.dist_m_sq].
    unfold Cell.leb. apply andb_true_iff. split; [reflexivity|].
    apply Qle_bool_iff. rewrite <- Heq.
    destruct (Hpts r Hr) as [Hx Hy]. destruct (Hsegs s Hs) as [[? ?] [? ?]].
    eapply Qle_trans; [| exact Hdiag].
    apply dist_sq_in_box; assumption.
  - destruct segments; [contradiction | discriminate].
Qed.

(** C6, at a failing input: a minute one hundredth of a degree of
    latitude (more than a kilometre) north of the only segment is kept by
    [snap_minutes]: its distance column holds 0.01, a distance in
    degrees, which passes the bound of 50. *)
Theorem snap_minutes_keeps_point_beyond_50_m :
  let p := SegmentUtils.point_of Samples.far_minute in
  let kept :=
    SegmentUtils.snap_minutes [Samples.far_minute] [Samples.street] in
  snd (SegmentUtils.p0 Samples.street) == snd (SegmentUtils.p1 Samples.street) /\
  snd p - snd (SegmentUtils.p0 Samples.street) == 0.01 /\
  SegmentUtils.dist_sq p Samples.street == SegmentUtils.sq 0.01 /\
  map SegmentUtils.minute_row kept = [Samples.far_minute] /\
  map SegmentUtils.nearest_id kept = [Some "s1_0"%string] /\
  map (fun j => option_map Qred (SegmentUtils.dist_m_sq j)) kept
    = [Some (Qred (SegmentUtils.sq 0.01))].
Proof.
  cbv zeta. split; [reflexivity|]. split; [reflexivity|].
  split; [reflexivity|].
  repeat split; vm_compute; reflexivity.
Qed.

(** ** Polygon aggregation *)

Section PolygonFacts.
Variable geometry : Type.
Variable within : Q * Q -> geometry -> bool.

Let join_rows : Type := list (option Q * option string).

Lemma in_group_ids (id : string) (join : join_rows) :
  In id (App.group_ids join) <-> exists x, In (x, Some id) join.
Proof.
  unfold App.group_ids.
  rewrite in_sort_by, (in_uniq _ String.eqb_eq), in_flat_map. split.
  - intros ([x [i|]] & Hin & Hid); cbn in Hid; [| destruct Hid].
    destruct Hid as [-> | []]. eauto.
  - intros (x & Hin). exists (x, Some id). split; [exact Hin|].
    left; reflexivity.
Qed.

Lemma group_rows_nil (id : string) (join : join_rows) :
  App.group_rows id join = [] -> ~ In id (App.group_ids join).
Proof.
  intros Hnil Hin. apply in_group_ids in Hin. destruct Hin as (x & Hin).
  unfold App.group_rows in Hnil. apply map_eq_nil in Hnil.
  assert (Hf : In (x, Some id)
                 (filter (fun j : option Q * option string =>
                            match snd j with
                            | Some i => String.eqb i id
                            | None => false
                            end) join)).
  { apply filter_In. split; [exact Hin|]. cbn. apply String.eqb_refl. }
  rewrite Hnil in Hf. exact Hf.
Qed.

Lemma lookup_absent {T : Type} (id : string) (g : string -> T)
    (ids : list string) :
  ~ In id ids -> App.lookup id (map (fun k => (k, g k)) ids) = None.
Proof.
  induction ids as [|k r IH]; cbn; intros Hno; [reflexivity|].
  destruct (String.eqb k id) eqn:E.
  - apply String.eqb_eq in E. exfalso. apply Hno. left. exact E.
  - apply IH. intros H. apply Hno. right. exact H.
Qed.

Lemma lookup_per_group_absent {T : Type} (f : list (option Q) -> T)
    (id : string) (join : join_rows) :
  App.group_rows id join = [] ->
  App.lookup id (App.per_group f join) = None.
Proof.
  intros H. unfold App.per_group. apply lookup_absent.
  now apply group_rows_nil.
Qed.

(** Where [ed_stress_agg] returns a table, it has one row per polygon,
    in order, and a polygon without any assigned point has the all-zero
    row; it returns a table under "Avg" and "Max", on empty data, and
    whenever at least one point falls in some polygon.  It raises in
    the remaining case only. *)
Lemma ed_stress_agg_zero_rows (eds : list (App.ed geometry))
    (days : list (list App.scored_point)) (metric : string)
    (thr : option Q) :
  let res := App.ed_stress_agg geometry within (Some eds) days metric thr in
  let join := App.sjoin geometry within
                (App.located (List.concat days)) eds in
  (res = App.Raise geometry <->
     metric <> "Avg"%string /\ metric <> "Max"%string /\
     App.located (List.concat days) <> [] /\ App.group_ids join = []) /\
  res <> App.ReturnNone geometry /\
  (forall rows, res = App.Return geometry rows ->
     map (App.poly geometry) rows = eds /\
     forall r, In r rows ->
       App.assigned geometry within eds days
         (App.ed_id geometry (App.poly geometry r)) = [] ->
       r = App.zero_row geometry (App.poly geometry r)).
Proof.
  intros res join. unfold App.assigned. fold join.
  unfold res, App.ed_stress_agg. fold join.
  destruct (App.located (List.concat days)) as [|p ps] eqn:Eloc.
  { split; [| split].
    - split; [discriminate | intros (_ & _ & H & _); now destruct H].
    - discriminate.
    - intros rows Heq. inversion Heq; subst rows. split.
      + rewrite map_map. cbn. apply map_id.
      + intros r Hr _. apply in_map_iff in Hr.
        destruct Hr as (e & <- & _). reflexivity. }
  destruct (String.eqb metric "Avg") eqn:Ea.
  { apply String.eqb_eq in Ea. split; [| split].
    - split; [discriminate | intros (H & _); contradiction].
    - discriminate.
    - intros rows Heq. inversion Heq; subst rows. split.
      + rewrite map_map. cbn. apply map_id.
      + intros r Hr Hnil. apply in_map_iff in Hr.
        destruct Hr as (e & <- & _). cbn [App.poly] in *.
        rewrite !(lookup_per_group_absent _ _ _ Hnil). reflexivity. }
  destruct (String.eqb metric "Max") eqn:Em.
  { apply String.eqb_eq in Em. split; [| split].
    - split; [discriminate | intros (_ & H & _); contradiction].
    - discriminate.
    - intros rows Heq. inversion Heq; subst rows. split.
      + rewrite map_map. cbn. apply map_id.
      + intros r Hr Hnil. apply in_map_iff in Hr.
        destruct Hr as (e & <- & _). cbn [App.poly] in *.
        rewrite !(lookup_per_group_absent _ _ _ Hnil). reflexivity. }
  apply String.eqb_neq in Ea, Em.
  unfold App.groupby_apply.
  destruct (App.group_ids join) as [|i is_] eqn:Eg.
  { split; [| split].
    - split; [intros _; repeat split; auto; discriminate | reflexivity].
    - discriminate.
    - discriminate. }
  split; [| split].
  - split; [discriminate | intros (_ & _ & _ & H); discriminate].
  - discriminate.
  - intros rows Heq. inversion Heq; subst rows. split.
    + rewrite map_map. cbn. apply map_id.
    + intros r Hr Hnil. apply in_map_iff in Hr.
      destruct Hr as (e & <- & _). cbn [App.poly] in *.
      rewrite !(lookup_per_group_absent _ _ _ Hnil). reflexivity.
Qed.

End PolygonFacts.

(** C9, at a failing input: one scored point, outside both polygons, and
    the metric "%>threshold" with no threshold supplied.  Neither polygon
    has a point, "Avg" and "Max" return the all-zero rows, but the
    threshold metric raises instead of returning them. *)
Theorem polygon_aggregation_raises_when_no_point_is_inside :
  let eds := [Samples.city_ed; Samples.harbour_ed] in
  let days := [Samples.day_outside] in
  App.assigned Samples.box Samples.in_box eds days "ED1" = [] /\
  App.assigned Samples.box Samples.in_box eds days "ED2" = [] /\
  App.ed_stress_agg Samples.box Samples.in_box (Some eds) days "Avg" None
    = App.Return Samples.box (map (App.zero_row Samples.box) eds) /\
  App.ed_stress_agg Samples.box Samples.in_box (Some eds) days "Max" None
    = App.Return Samples.box (map (App.zero_row Samples.box) eds) /\
  App.ed_stress_agg Samples.box Samples.in_box (Some eds) days
    "%>threshold" None = App.Raise Samples.box.
Proof. cbv zeta. repeat split. Qed.

(* ================================================================== *)
(** * Further properties of the stages *)

(** Split the conjunctions of the goal, and nothing else. *)
Ltac conj := repeat match goal with |- _ /\ _ => split end.

(** Introduce the hypothesis of a goal written as an implication. *)
Ltac hyp := try match goal with |- _ -> _ => intro end.

(** ** Weather normalisers: the whole curves *)

(** [rain_norm]: 0 for a missing or non-positive rate, [r / 3] up to
    3 mm/h, 1 from there on; non-decreasing and within [0,1]. *)
Theorem rain_norm_ramp :
  AddWeatherNorm.rain_norm None == 0 /\
  (forall r : Q,
     0 <= AddWeatherNorm.rain_norm (Some r) <= 1 /\
     (r <= 0 -> AddWeatherNorm.rain_norm (Some r) == 0) /\
     (0 <= r <= 3 -> AddWeatherNorm.rain_norm (Some r) == r / 3) /\
     (3 <= r -> AddWeatherNorm.rain_norm (Some r) == 1)) /\
  (forall a b : Q,
     a <= b ->
     AddWeatherNorm.rain_norm (Some a) <= AddWeatherNorm.rain_norm (Some b)).
Proof.
  split; [reflexivity|]. split.
  - intros r. unfold AddWeatherNorm.rain_norm, Cell.fillna.
    conj; hyp; curve.
  - intros a b Hab. unfold AddWeatherNorm.rain_norm, Cell.fillna. curve.
Qed.

Lemma rain_norm_ramp_witness :
  AddWeatherNorm.rain_norm (Some 1.5) == 1.5 / 3 /\
  AddWeatherNorm.rain_norm (Some 1) <= AddWeatherNorm.rain_norm (Some 7).
Proof.
  split.
  - apply (proj1 (proj2 (proj2 (proj1 (proj2 rain_norm_ramp) 1.5)))).
    split; discriminate.
  - apply (proj2 (proj2 rain_norm_ramp)). discriminate.
Defined.

Lemma rain_norm_bounds (r : option Q) : 0 <= AddWeatherNorm.rain_norm r <= 1.
Proof.
  unfold AddWeatherNorm.rain_norm.
  set (x := Cell.fillna 0 r). clearbody x. curve.
Qed.

Lemma heat_norm_bounds (t : option Q) : 0 <= AddWeatherNorm.heat_norm t <= 1.
Proof.
  unfold AddWeatherNorm.heat_norm.
  set (x := Cell.fillna 18 t). clearbody x. curve.
Qed.

Lemma cold_norm_bounds (t : option Q) : 0 <= AddWeatherNorm.cold_norm t <= 1.
Proof.
  unfold AddWeatherNorm.cold_norm.
  set (x := Cell.fillna 15 t). clearbody x. curve.
Qed.

(** [heat_norm]: 0 without a temperature and up to 18 degrees, the three
    linear pieces up to 27 degrees, 1 above; non-decreasing in the
    temperature and within [0,1]. *)
Theorem heat_norm_ramp :
  AddWeatherNorm.heat_norm None == 0 /\
  (forall t : Q,
     let y := AddWeatherNorm.heat_norm (Some t) in
     0 <= y <= 1 /\
     (t <= 18 -> y == 0) /\
     (18 < t <= 21 -> y == 0.30 * (t - 18) / 3) /\
     (21 < t <= 24 -> y == 0.30 + 0.40 * (t - 21) / 3) /\
     (24 < t <= 27 -> y == 0.70 + 0.30 * (t - 24) / 3) /\
     (27 <= t -> y == 1)) /\
  (forall a b : Q,
     a <= b ->
     AddWeatherNorm.heat_norm (Some a) <= AddWeatherNorm.heat_norm (Some b)).
Proof.
  split; [reflexivity|]. split.
  - intros t y. subst y. split; [apply heat_norm_bounds|].
    unfold AddWeatherNorm.heat_norm, Cell.fillna.
    conj; hyp; curve.
  - intros a b Hab. unfold AddWeatherNorm.heat_norm, Cell.fillna. curve.
Qed.

Lemma heat_norm_ramp_witness :
  AddWeatherNorm.heat_norm (Some 22.5) == 0.30 + 0.40 * (22.5 - 21) / 3 /\
  AddWeatherNorm.heat_norm (Some 19) <= AddWeatherNorm.heat_norm (Some 26).
Proof.
  split.
  - apply (proj1 (proj2 (proj2 (proj2 (proj1 (proj2 heat_norm_ramp) 22.5))))).
    split; [reflexivity | discriminate].
  - apply (proj2 (proj2 heat_norm_ramp)). discriminate.
Defined.

(** [cold_norm]: 0 without a temperature and from 10 degrees up, the
    three linear pieces below, 1 at -5 degrees and under; non-increasing
    in the temperature and within [0,1]. *)
Theorem cold_norm_ramp :
  AddWeatherNorm.cold_norm None == 0 /\
  (forall t : Q,
     let y := AddWeatherNorm.cold_norm (Some t) in
     0 <= y <= 1 /\
     (10 <= t -> y == 0) /\
     (5 <= t < 10 -> y == 0.30 * (10 - t) / 5) /\
     (0 <= t < 5 -> y == 0.30 + 0.40 * (5 - t) / 5) /\
     (-5 <= t < 0 -> y == 0.70 + 0.30 * (- t) / 5) /\
     (t <= -5 -> y == 1)) /\
  (forall a b : Q,
     a <= b ->
     AddWeatherNorm.cold_norm (Some b) <= AddWeatherNorm.cold_norm (Some a)).
Proof.
  split; [reflexivity|]. split.
  - intros t y. subst y. split; [apply cold_norm_bounds|].
    unfold AddWeatherNorm.cold_norm, Cell.fillna.
    conj; hyp; curve.
  - intros a b Hab. unfold AddWeatherNorm.cold_norm, Cell.fillna. curve.
Qed.

Lemma cold_norm_ramp_witness :
  AddWeatherNorm.cold_norm (Some 2) == 0.30 + 0.40 * (5 - 2) / 5 /\
  AddWeatherNorm.cold_norm (Some 8) <= AddWeatherNorm.cold_norm (Some (-3)).
Proof.
  split.
  - apply (proj1 (proj2 (proj2 (proj2 (proj1 (proj2 cold_norm_ramp) 2))))).
    split; [discriminate | reflexivity].
  - apply (proj2 (proj2 cold_norm_ramp)). discriminate.
Defined.

(** No temperature, missing ones included, gives heat and cold stress at
    once; from 10 to 18 degrees both are 0. *)
Theorem heat_and_cold_exclusive :
  (forall t : option Q,
     AddWeatherNorm.heat_norm t == 0 \/ AddWeatherNorm.cold_norm t == 0) /\
  (forall t : Q,
     10 <= t <= 18 ->
     AddWeatherNorm.heat_norm (Some t) == 0 /\
     AddWeatherNorm.cold_norm (Some t) == 0).
Proof.
  split.
  - intros [t|]; [| left; reflexivity].
    destruct (Qlt_le_dec 18 t) as [H|H].
    + right. unfold AddWeatherNorm.cold_norm, Cell.fillna. curve.
    + left. unfold AddWeatherNorm.heat_norm, Cell.fillna. curve.
  - intros t H. split.
    + unfold AddWeatherNorm.heat_norm, Cell.fillna. curve.
    + unfold AddWeatherNorm.cold_norm, Cell.fillna. curve.
Qed.

Lemma heat_and_cold_exclusive_witness :
  AddWeatherNorm.heat_norm (Some 14) == 0 /\
  AddWeatherNorm.cold_norm (Some 14) == 0.
Proof.
  apply (proj2 heat_and_cold_exclusive 14). split; discriminate.
Defined.

(** ** Speed normaliser: range, free flow, row count *)

Lemma clip_unit_bounds (x : Q) : 0 <= Cell.clip 0 1 x <= 1.
Proof. unfold Cell.clip. case_minmax. lra. Qed.

Lemma clip_unit_monotone (x y : Q) :
  x <= y -> Cell.clip 0 1 x <= Cell.clip 0 1 y.
Proof. intros H. unfold Cell.clip. case_minmax. lra. Qed.

Lemma free_floor_positive (f : Q) : 0 < Qmax f 1e-3.
Proof.
  apply Qlt_le_trans with 1e-3; [reflexivity | apply Q.le_max_r].
Qed.

Lemma speed_norm_cell_bounds (s f : option Q) (y : Q) :
  AddSpeedNorm.speed_norm_cell s f = Some y -> 0 <= y <= 1.
Proof.
  unfold AddSpeedNorm.speed_norm_cell.
  destruct (Cell.ngeb s 5).
  - destruct s as [v|].
    + destruct f as [g|]; cbn; [| discriminate].
      intros H. inversion H; subst. apply clip_unit_bounds.
    + intros H. inversion H; subst. split; discriminate.
  - intros H. inversion H; subst. split; discriminate.
Qed.

(** A speed_norm that is not null lies in [0,1]; a moving row at or
    above its free-flow speed (floored at 0.001) has speed_norm 0, so a
    zero or negative free-flow value never divides by zero; and for a
    fixed free-flow value a faster moving row never scores higher. *)
Theorem speed_norm_range_and_order :
  (forall (s f : option Q) (y : Q),
     AddSpeedNorm.speed_norm_cell s f = Some y -> 0 <= y <= 1) /\
  (forall v f : Q,
     5 <= v -> Qmax f 1e-3 <= v ->
     Cell.eqv (AddSpeedNorm.speed_norm_cell (Some v) (Some f)) (Some 0)) /\
  (forall v f : Q,
     5 <= v -> f <= 0 ->
     Cell.eqv (AddSpeedNorm.speed_norm_cell (Some v) (Some f)) (Some 0)) /\
  (forall v1 v2 f y1 y2 : Q,
     5 <= v1 -> v1 <= v2 ->
     AddSpeedNorm.speed_norm_cell (Some v1) (Some f) = Some y1 ->
     AddSpeedNorm.speed_norm_cell (Some v2) (Some f) = Some y2 ->
     y2 <= y1).
Proof.
  assert (Hfree : forall v f : Q,
     5 <= v -> Qmax f 1e-3 <= v ->
     Cell.eqv (AddSpeedNorm.speed_norm_cell (Some v) (Some f)) (Some 0)).
  { intros v f Hv Hm. rewrite (speed_norm_moving v (Some f) Hv).
    unfold Cell.eqv.
    pose proof (free_floor_positive f) as Hpos.
    set (m := Qmax f 1e-3) in *. clearbody m.
    assert (Hr : 1 <= v / m) by (apply Qle_shift_div_l; lra).
    set (q := v / m) in *. clearbody q.
    unfold Cell.clip. case_minmax. lra. }
  split; [exact speed_norm_cell_bounds|]. split; [exact Hfree|]. split.
  - intros v f Hv Hf. apply Hfree; [exact Hv|].
    assert (Hm : Qmax f 1e-3 == 1e-3)
      by (apply Q.max_r; apply Qle_trans with 0; [exact Hf | discriminate]).
    rewrite Hm. apply Qle_trans with 5; [discriminate | exact Hv].
  - intros v1 v2 f y1 y2 H1 H12 E1 E2.
    rewrite speed_norm_moving in E1 by exact H1.
    rewrite speed_norm_moving in E2 by lra.
    inversion E1; inversion E2; subst.
    apply clip_unit_monotone.
    pose proof (free_floor_positive f) as Hpos.
    set (m := Qmax f 1e-3) in *. clearbody m.
    assert (Hk : 0 < / m) by (apply Qinv_lt_0_compat; exact Hpos).
    unfold Qdiv. set (k := / m) in *. clearbody k. nra.
Qed.

Lemma speed_norm_range_and_order_witness :
  Cell.eqv (AddSpeedNorm.speed_norm_cell (Some 45) (Some 40)) (Some 0) /\
  Cell.eqv (AddSpeedNorm.speed_norm_cell (Some 30) (Some 0)) (Some 0).
Proof.
  split.
  - apply (proj1 (proj2 speed_norm_range_and_order)); discriminate.
  - apply (proj1 (proj2 (proj2 speed_norm_range_and_order))); discriminate.
Defined.

Lemma unique_key_one_match (r : AddDelayNorm.row)
    (free : list AddSpeedNorm.free_row) :
  NoDup (free_keys free) ->
  filter (AddSpeedNorm.same_key r) free = [] \/
  exists e, filter (AddSpeedNorm.same_key r) free = [e].
Proof.
  induction free as [|e rest IH]; cbn; intros Hnd; [left; reflexivity|].
  inversion Hnd as [|k ks Hnotin Hnd']; subst.
  destruct (AddSpeedNorm.same_key r e) eqn:Ek.
  - right. exists e. f_equal.
    destruct (filter (AddSpeedNorm.same_key r) rest) as [|e' l] eqn:Ef;
      [reflexivity|].
    exfalso. apply Hnotin.
    assert (Hin : In e' (filter (AddSpeedNorm.same_key r) rest))
      by (rewrite Ef; left; reflexivity).
    apply filter_In in Hin. destruct Hin as [Hin Hk'].
    unfold AddSpeedNorm.same_key in Ek, Hk'.
    apply andb_true_iff in Ek, Hk'.
    destruct Ek as [E1 E2], Hk' as [E3 E4].
    apply String.eqb_eq in E1, E3. apply Z.eqb_eq in E2, E4.
    unfold free_keys. apply in_map_iff. exists e'. split; [| exact Hin].
    congruence.
  - apply IH. exact Hnd'.
Qed.

(** With a lookup whose (route, direction) keys are pairwise distinct,
    the speed stage keeps the table row for row: same rows, same order,
    none doubled and none lost. *)
Theorem speed_stage_keeps_rows_if_keys_unique :
  forall (df : list AddDelayNorm.row) (free : list AddSpeedNorm.free_row),
    NoDup (free_keys free) ->
    map AddSpeedNorm.base (AddSpeedNorm.add_speed_norm df free) = df.
Proof.
  intros df free Hnd. unfold AddSpeedNorm.add_speed_norm.
  rewrite map_map. cbn [AddSpeedNorm.base].
  unfold AddSpeedNorm.merge_left.
  induction df as [|r rest IH]; [reflexivity|].
  cbn [flat_map]. rewrite map_app, IH. clear IH.
  destruct (unique_key_one_match r free Hnd) as [-> | (e & ->)];
    reflexivity.
Qed.

Lemma speed_stage_keeps_rows_if_keys_unique_witness :
  map AddSpeedNorm.base
    (AddSpeedNorm.add_speed_norm
       (AddDelayNorm.add_delay_norm
          [Samples.late_minute false; Samples.unknown_route_minute])
       Samples.free_table)
  = AddDelayNorm.add_delay_norm
      [Samples.late_minute false; Samples.unknown_route_minute].
Proof.
  apply speed_stage_keeps_rows_if_keys_unique.
  repeat constructor. intros [].
Defined.

(** ** Composite scorer: what the configured weights do *)

(** Under the configured weights the rain and the cold contribution do
    not reach the score (their weights are 0.00), and a vanish anchor
    adds exactly 0.25 to the score of the same minute. *)
Theorem configured_weights_effect :
  (forall d s r r' h c c' a,
     Cell.eqv
       (AddStressScore.row_stress_cell AddStressScore.W d s r h c a)
       (AddStressScore.row_stress_cell AddStressScore.W d s r' h c' a)) /\
  (forall d s r h c y,
     AddStressScore.row_stress_cell AddStressScore.W d s r h c false
       = Some y ->
     exists y',
       AddStressScore.row_stress_cell AddStressScore.W d s r h c true
         = Some y' /\ y' == y + 0.25).
Proof.
  split.
  - intros d [s|] r r' h c c' a; cbn; [| exact I].
    destruct a; unfold Cell.of_bool; lra.
  - intros d [s|] r h c y; cbn; [| discriminate].
    intros H. inversion H; subst. eexists. split; [reflexivity|].
    unfold Cell.of_bool. lra.
Qed.

Lemma configured_weights_effect_witness :
  exists y',
    AddStressScore.row_stress_cell AddStressScore.W 0.70 (Some 0.50) 0 0 0 true
      = Some y' /\
    y' == (0.30 * 0.70 + 0.30 * 0.50 + 0.00 * 0 + 0.15 * 0 + 0.00 * 0
           + 0.25 * 0) + 0.25.
Proof.
  exact (proj2 configured_weights_effect 0.70 (Some 0.50) 0 0 0 _ eq_refl).
Defined.

(** Every row of a scored day has its normalised columns in [0,1]; its
    row_stress is null exactly when its speed_norm is, and lies in [0,1]
    otherwise. *)
Theorem scored_rows_null_or_in_unit_interval :
  forall (df : list veh_minute) (free : list AddSpeedNorm.free_row) out,
    In out (score_day df free) ->
    let w := AddStressScore.base out in
    let ds := AddWeatherNorm.base w in
    let d := AddSpeedNorm.base ds in
    0 <= AddDelayNorm.delay_norm d <= 1 /\
    (forall y, AddSpeedNorm.speed_norm ds = Some y -> 0 <= y <= 1) /\
    0 <= AddWeatherNorm.rain_norm_col w <= 1 /\
    0 <= AddWeatherNorm.heat_norm_col w <= 1 /\
    0 <= AddWeatherNorm.cold_norm_col w <= 1 /\
    (AddStressScore.row_stress out = None <->
     AddSpeedNorm.speed_norm ds = None) /\
    (forall y, AddStressScore.row_stress out = Some y -> 0 <= y <= 1).
Proof.
  intros df free out Hout w ds d.
  apply in_score_day in Hout. destruct Hout as (Hds & Ho & Hw).
  cbv zeta in Hw.
  apply in_add_speed_norm in Hds. destruct Hds as (Hm & Hs).
  apply in_merge_left in Hm. destruct Hm as (Hd & _).
  unfold AddDelayNorm.add_delay_norm in Hd. apply in_map_iff in Hd.
  destruct Hd as (r & Hr & _).
  assert (Hdn : 0 <= AddDelayNorm.delay_norm d <= 1)
    by (unfold d, ds, w; rewrite <- Hr; apply delay_norm_bounds).
  assert (Hsn : forall y, AddSpeedNorm.speed_norm ds = Some y -> 0 <= y <= 1).
  { intros y Hy. unfold ds, w in Hy. rewrite Hs in Hy.
    eapply speed_norm_cell_bounds; eauto. }
  assert (Hrn : 0 <= AddWeatherNorm.rain_norm_col w <= 1)
    by (unfold w; rewrite Hw; apply rain_norm_bounds).
  assert (Hhn : 0 <= AddWeatherNorm.heat_norm_col w <= 1)
    by (unfold w; rewrite Hw; apply heat_norm_bounds).
  assert (Hcn : 0 <= AddWeatherNorm.cold_norm_col w <= 1)
    by (unfold w; rewrite Hw; apply cold_norm_bounds).
  split; [exact Hdn|]. split; [exact Hsn|]. split; [exact Hrn|].
  split; [exact Hhn|]. split; [exact Hcn|].
  rewrite Ho. unfold AddStressScore.score_row.
  cbn [AddStressScore.row_stress]. fold w. fold ds. fold d.
  destruct (AddSpeedNorm.speed_norm ds) as [s|] eqn:Es.
  - specialize (Hsn s eq_refl).
    destruct (row_stress_W_bounds (AddDelayNorm.delay_norm d) s
                (AddWeatherNorm.rain_norm_col w)
                (AddWeatherNorm.heat_norm_col w)
                (AddWeatherNorm.cold_norm_col w)
                (vanish_anchor (AddDelayNorm.base d))
                Hdn Hsn Hrn Hhn Hcn) as (y & Hy & Hyb).
    rewrite Hy. split.
    + split; discriminate.
    + intros y' Heq. inversion Heq; subst. exact Hyb.
  - rewrite row_stress_null_speed. split; [tauto | discriminate].
Qed.

Lemma scored_rows_null_or_in_unit_interval_witness :
  exists out,
    In out (score_day [Samples.late_minute true] Samples.free_table) /\
    forall y, AddStressScore.row_stress out = Some y -> 0 <= y <= 1.
Proof.
  eexists. split; [left; reflexivity|].
  apply (scored_rows_null_or_in_unit_interval
           [Samples.late_minute true] Samples.free_table).
  left; reflexivity.
Defined.

(** ** Free-flow table: keys, range, empty history *)

Lemma filter_none {A : Type} (f : A -> bool) (l : list A) :
  (forall x, In x l -> f x = false) -> filter f l = [].
Proof.
  induction l as [|x r IH]; cbn; intros H; [reflexivity|].
  rewrite (H x (or_introl eq_refl)). apply IH. auto.
Qed.

Lemma free_keys_freeflow (files : list (list AddDelayNorm.row)) :
  free_keys (BuildFreeflow.freeflow files)
  = BuildFreeflow.group_keys (BuildFreeflow.moving (List.concat files)).
Proof.
  unfold free_keys, BuildFreeflow.freeflow. rewrite map_map. cbn.
  rewrite <- (map_id (BuildFreeflow.group_keys _)) at 2.
  apply map_ext. intros [a b]. reflexivity.
Qed.

Lemma NoDup_group_keys (df : list AddDelayNorm.row) :
  NoDup (BuildFreeflow.group_keys df).
Proof.
  unfold BuildFreeflow.group_keys.
  eapply Permutation_NoDup.
  - symmetry. apply sort_by_perm.
  - apply NoDup_uniq. apply key_eqb_spec.
Qed.

(** The free-flow table has one row per (route, direction): its keys are
    pairwise distinct.  Hence the speed stage run against it keeps any
    table row for row, none doubled by the merge. *)
Theorem freeflow_keys_unique :
  forall (files : list (list AddDelayNorm.row)),
    NoDup (free_keys (BuildFreeflow.freeflow files)) /\
    forall df : list AddDelayNorm.row,
      map AddSpeedNorm.base
        (AddSpeedNorm.add_speed_norm df (BuildFreeflow.freeflow files)) = df.
Proof.
  intros files.
  assert (Hnd : NoDup (free_keys (BuildFreeflow.freeflow files)))
    by (rewrite free_keys_freeflow; apply NoDup_group_keys).
  split; [exact Hnd|].
  intros df. unfold AddSpeedNorm.add_speed_norm.
  rewrite map_map. cbn [AddSpeedNorm.base].
  unfold AddSpeedNorm.merge_left.
  induction df as [|r rest IH]; [reflexivity|].
  cbn [flat_map]. rewrite map_app, IH. clear IH.
  destruct (unique_key_one_match r _ Hnd) as [-> | (e & ->)]; reflexivity.
Qed.

(** A quantile of a non-empty group is at most any upper bound of the
    group. *)
Lemma quantile_upper_bound (q c : Q) (values : list Q) :
  0 <= q -> q < 1 -> values <> [] ->
  (forall v, In v values -> v <= c) ->
  BuildFreeflow.quantile q values <= c.
Proof.
  intros Hq0 Hq1 Hne Hall. unfold BuildFreeflow.quantile.
  set (s := Frame.sort_by Qle_bool values).
  assert (Hs : forall v, In v s -> v <= c)
    by (intros v Hv; apply Hall; now apply in_sort_by in Hv).
  assert (Hlen : (1 <= Z.of_nat (List.length s))%Z).
  { unfold s. rewrite length_sort_by.
    destruct values; [contradiction | cbn [List.length]; lia]. }
  set (n := Z.of_nat (List.length s)) in *.
  set (q_idx := q * inject_Z (n - 1)).
  assert (Hn0 : 0 <= inject_Z (n - 1))
    by (change 0 with (inject_Z 0); rewrite <- Zle_Qle; lia).
  assert (Hi0 : 0 <= q_idx) by (unfold q_idx; nra).
  assert (Hi1 : q_idx <= inject_Z (n - 1)) by (unfold q_idx; nra).
  set (idx := Qfloor q_idx).
  assert (Hf0 : inject_Z idx <= q_idx) by apply Qfloor_le.
  assert (Hf1 : q_idx < inject_Z (idx + 1)) by apply Qlt_floor.
  assert (Hidx0 : (0 <= idx)%Z).
  { change 0%Z with (Qfloor (inject_Z 0)). now apply Qfloor_resp_le. }
  assert (Hidx1 : (idx <= n - 1)%Z).
  { rewrite <- (Qfloor_Z (n - 1)). now apply Qfloor_resp_le. }
  assert (Hval : nth (Z.to_nat idx) s 0 <= c).
  { apply Hs, nth_In. unfold n in Hidx1. lia. }
  destruct (Qeq_bool (q_idx - inject_Z idx) 0) eqn:E; [exact Hval|].
  apply Qeq_bool_neq in E.
  assert (Hfrac0 : 0 <= q_idx - inject_Z idx) by lra.
  assert (Hfrac1 : q_idx - inject_Z idx <= 1).
  { rewrite inject_Z_plus in Hf1. change (inject_Z 1) with 1 in Hf1. lra. }
  assert (Hlt : (idx < n - 1)%Z).
  { destruct (Z.eq_dec idx (n - 1)) as [Heq|Hneq]; [| lia].
    exfalso. apply E. rewrite Heq in *. lra. }
  assert (Hnext : nth (Z.to_nat (idx + 1)) s 0 <= c).
  { apply Hs, nth_In. unfold n in Hlt. lia. }
  nra.
Qed.

(** A free-flow value never leaves the range of the samples it is taken
    from: if every sample of its (route, direction) at 10 km/h or more
    lies between [a] and [b], so does the value.  In particular a group
    whose retained samples are all equal has that speed as free flow. *)
Theorem freeflow_within_sample_range :
  forall (files : list (list AddDelayNorm.row)) (e : AddSpeedNorm.free_row)
         (a b : Q),
    In e (BuildFreeflow.freeflow files) ->
    (forall r v, In r (List.concat files) ->
       BuildFreeflow.key_of r
         = (AddSpeedNorm.f_route_id e, AddSpeedNorm.f_direction_id e) ->
       speed_kph (AddDelayNorm.base r) = Some v -> 10 <= v ->
       a <= v <= b) ->
    a <= AddSpeedNorm.free_kph e <= b.
Proof.
  intros files e a b He Hrange.
  unfold BuildFreeflow.freeflow in He. apply in_map_iff in He.
  destruct He as (k & <- & Hk).
  cbn [AddSpeedNorm.f_route_id AddSpeedNorm.f_direction_id
       AddSpeedNorm.free_kph] in *.
  replace (fst k, snd k) with k in Hrange by (destruct k; reflexivity).
  set (grp := BuildFreeflow.group_speeds k
                (BuildFreeflow.moving (List.concat files))).
  assert (Hin : forall v, In v grp -> a <= v <= b).
  { intros v Hv. unfold grp in Hv. apply in_group_speeds in Hv.
    destruct Hv as (r & Hr & Hkr & Hs). apply in_moving in Hr.
    destruct Hr as (Hr & w & Hw & Hle). rewrite Hs in Hw.
    inversion Hw; subst w. eapply Hrange; eauto. }
  assert (Hne : grp <> []).
  { apply in_group_keys in Hk. destruct Hk as (r & Hr & Hkr).
    pose proof Hr as Hr'. apply in_moving in Hr'.
    destruct Hr' as (_ & v & Hv & _).
    assert (Hv' : In v grp) by (unfold grp; apply in_group_speeds; eauto).
    intros Hnil. rewrite Hnil in Hv'. exact Hv'. }
  split.
  - apply quantile_lower_bound; try assumption;
      [discriminate | reflexivity | intros v Hv; apply Hin; exact Hv].
  - apply quantile_upper_bound; try assumption;
      [discriminate | reflexivity | intros v Hv; apply Hin; exact Hv].
Qed.

Lemma freeflow_within_sample_range_witness :
  exists e,
    In e (BuildFreeflow.freeflow Samples.history) /\
    10 <= AddSpeedNorm.free_kph e <= 30.
Proof.
  set (e := {| AddSpeedNorm.f_route_id := "r46a";
               AddSpeedNorm.f_direction_id := 0%Z;
               AddSpeedNorm.free_kph :=
                 BuildFreeflow.quantile 0.95
                   (BuildFreeflow.group_speeds ("r46a"%string, 0%Z)
                      (BuildFreeflow.moving (List.concat Samples.history))) |}).
  assert (Hin : In e (BuildFreeflow.freeflow Samples.history))
    by (left; reflexivity).
  exists e. split; [exact Hin|].
  apply (freeflow_within_sample_range Samples.history e 10 30 Hin).
  intros r v Hr _ Hs Hle. split; [exact Hle|].
  cbn in Hr.
  repeat (destruct Hr as [<- | Hr];
          [cbn in Hs; first [discriminate Hs
                            | inversion Hs; subst; discriminate] |]).
  destruct Hr.
Defined.

(** Over no file at all the free-flow script raises and writes nothing.
    Over at least one file it writes its table, and the table is empty
    exactly when the history has not a single sample at 10 km/h or
    more. *)
Theorem freeflow_empty_without_moving_samples :
  BuildFreeflow.main [] = BuildFreeflow.RaiseNoObjects /\
  forall (files : list (list AddDelayNorm.row)),
    files <> [] ->
    BuildFreeflow.main files
    = BuildFreeflow.WroteTable (BuildFreeflow.freeflow files) /\
    (BuildFreeflow.freeflow files = [] <->
     forall r v, In r (List.concat files) ->
       speed_kph (AddDelayNorm.base r) = Some v -> v < 10).
Proof.
  split; [reflexivity|]. intros files Hne.
  split; [destruct files; [contradiction | reflexivity]|].
  split.
  - intros Hnil r v Hr Hs.
    destruct (Qlt_le_dec v 10) as [Hlt | Hge]; [exact Hlt|]. exfalso.
    assert (Hin : In (BuildFreeflow.key_of r)
                     (BuildFreeflow.group_keys
                        (BuildFreeflow.moving (List.concat files)))).
    { apply in_group_keys. exists r. split; [| reflexivity].
      apply in_moving. eauto. }
    unfold BuildFreeflow.freeflow in Hnil. cbv zeta in Hnil.
    apply map_eq_nil in Hnil. rewrite Hnil in Hin. exact Hin.
  - intros Hslow. unfold BuildFreeflow.freeflow.
    assert (Hm : BuildFreeflow.moving (List.concat files) = []).
    { unfold BuildFreeflow.moving. apply filter_none. intros r Hr.
      destruct (speed_kph (AddDelayNorm.base r)) as [v|] eqn:Es;
        [| reflexivity].
      cbn. unfold Cell.geb. specialize (Hslow r v Hr Es).
      destruct (Qle_bool 10 v) eqn:E; [| reflexivity].
      apply Qle_bool_iff in E. lra. }
    rewrite Hm. reflexivity.
Qed.

Lemma freeflow_empty_without_moving_samples_witness :
  BuildFreeflow.main [[Samples.at_speed (Some 5); Samples.at_speed None]]
  = BuildFreeflow.WroteTable [].
Proof.
  destruct (proj2 freeflow_empty_without_moving_samples
              [[Samples.at_speed (Some 5); Samples.at_speed None]]
              ltac:(discriminate)) as [Hrun Hiff].
  rewrite Hrun. apply f_equal. apply Hiff.
  intros r v [<- | [<- | []]] Hs; cbn in Hs;
    [inversion Hs; subst; reflexivity | discriminate].
Defined.

(** ** Temporal join: zones, effective tolerance, missing series *)

(** The zone of a position is the anchor at the smallest distance, the
    first of them in the order north, centre, south when several tie. *)
Theorem zone_of_nearest_anchor :
  forall (hav_km : Q -> Q -> Q -> Q -> Q) (la lo : Q),
    let dn := hav_km la lo 53.38 (-6.26) in
    let dc := hav_km la lo 53.34 (-6.26) in
    let ds := hav_km la lo 53.29 (-6.26) in
    let z := JoinMinuteWithWeather.zone_of hav_km la lo in
    (dn <= dc /\ dn <= ds -> z = "north"%string) /\
    (dc < dn /\ dc <= ds -> z = "centre"%string) /\
    (ds < dn /\ ds < dc -> z = "south"%string) /\
    (z = "north"%string \/ z = "centre"%string \/ z = "south"%string).
Proof.
  intros hav_km la lo dn dc ds z. subst z.
  unfold JoinMinuteWithWeather.zone_of, JoinMinuteWithWeather.ZONES.
  cbn [map fst snd JoinMinuteWithWeather.argmin_from].
  fold dn dc ds. clearbody dn dc ds.
  unfold Cell.ltb.
  destruct (Qle_bool dn dc) eqn:E1;
    [apply Qle_bool_iff in E1 | apply Qle_bool_false in E1];
  cbn [negb];
  [destruct (Qle_bool dn ds) eqn:E2 | destruct (Qle_bool dc ds) eqn:E2];
  [apply Qle_bool_iff in E2 | apply Qle_bool_false in E2
  |apply Qle_bool_iff in E2 | apply Qle_bool_false in E2];
  cbn [negb]; conj; hyp; auto;
  match goal with H : _ /\ _ |- _ => destruct H; exfalso; lra end.
Qed.

Lemma zone_of_nearest_anchor_witness :
  JoinMinuteWithWeather.zone_of Samples.grid_km 53.30 (-6.20)
  = "south"%string.
Proof.
  apply (proj1 (proj2 (proj2
           (zone_of_nearest_anchor Samples.grid_km 53.30 (-6.20))))).
  split; reflexivity.
Defined.

Lemma in_join_left_tagged hav_km v w j :
  In j (JoinMinuteWithWeather.join hav_km v w) ->
  exists x, In x v /\
    JoinMinuteWithWeather.left_row j = JoinMinuteWithWeather.tag hav_km x.
Proof.
  intros Hj. unfold JoinMinuteWithWeather.join in Hj.
  apply JoinFacts.in_join_zones in Hj. destruct Hj as (Hl & _).
  apply in_map_iff in Hl. destruct Hl as (x & Hx & Hin). eauto.
Qed.

Lemma in_join_right_stamped hav_km v w j y :
  In j (JoinMinuteWithWeather.join hav_km v w) ->
  JoinMinuteWithWeather.right_row j = Some y ->
  (exists x, In x w /\ y = JoinMinuteWithWeather.stamp x /\
     JoinMinuteWithWeather.w_zone x
       = JoinMinuteWithWeather.zone (JoinMinuteWithWeather.left_row j)) /\
  (Z.abs (JoinMinuteWithWeather.w_minute y
          - JoinMinuteWithWeather.minute (JoinMinuteWithWeather.left_row j))
   <= JoinMinuteWithWeather.tolerance)%Z.
Proof.
  intros Hj Hy. unfold JoinMinuteWithWeather.join in Hj.
  apply JoinFacts.in_join_zones in Hj. destruct Hj as (_ & Hr).
  rewrite Hy in Hr.
  match type of Hr with
  | _ = JoinMinuteWithWeather.nearest ?t ?ws =>
      pose proof (JoinFacts.nearest_spec t ws (JoinFacts.sorted_weather _))
        as Hn
  end.
  rewrite <- Hr in Hn. destruct Hn as (Hin & Htol & _).
  split; [| exact Htol].
  apply in_sort_by, filter_In in Hin. destruct Hin as (Hin & Hz).
  apply String.eqb_eq in Hz. apply in_map_iff in Hin.
  destruct Hin as (x & <- & Hx). exists x. auto.
Qed.

(** Both minute stamps are whole minutes, so a matched weather record is
    a whole number of minutes away from the vehicle minute, and at most
    7 of them: within the 7 min 30 s tolerance nothing farther than 420 s
    is ever attached. *)
Theorem matched_weather_within_seven_minutes :
  forall (hav_km : Q -> Q -> Q -> Q -> Q)
         (v : list JoinMinuteWithWeather.vehicle)
         (w : list JoinMinuteWithWeather.weather)
         (j : JoinMinuteWithWeather.joined)
         (y : JoinMinuteWithWeather.stamped),
    In j (JoinMinuteWithWeather.join hav_km v w) ->
    JoinMinuteWithWeather.right_row j = Some y ->
    exists k : Z,
      (JoinMinuteWithWeather.w_minute y
       - JoinMinuteWithWeather.minute (JoinMinuteWithWeather.left_row j)
       = 60 * k)%Z /\
      (-7 <= k <= 7)%Z.
Proof.
  intros hav_km v w j y Hj Hy.
  destruct (in_join_left_tagged _ _ _ _ Hj) as (x & _ & Hl).
  destruct (in_join_right_stamped _ _ _ _ _ Hj Hy)
    as ((o & _ & Ho & _) & Htol).
  rewrite Hl, Ho in *.
  cbn [JoinMinuteWithWeather.tag JoinMinuteWithWeather.stamp
       JoinMinuteWithWeather.minute JoinMinuteWithWeather.w_minute] in *.
  unfold JoinMinuteWithWeather.floor_min,
    JoinMinuteWithWeather.tolerance in *.
  exists (JoinMinuteWithWeather.w_timestamp o / 60
          - JoinMinuteWithWeather.timestamp x / 60)%Z.
  lia.
Qed.

Lemma matched_weather_within_seven_minutes_witness :
  exists k : Z,
    (JoinMinuteWithWeather.floor_min 1752570300
     - JoinMinuteWithWeather.floor_min 1752570010 = 60 * k)%Z /\
    (-7 <= k <= 7)%Z.
Proof.
  set (y := JoinMinuteWithWeather.stamp
              (Samples.reading "centre" 1752570300 1 16)).
  set (j := {| JoinMinuteWithWeather.left_row :=
                 JoinMinuteWithWeather.tag Samples.grid_km Samples.centre_bus;
               JoinMinuteWithWeather.right_row := Some y |}).
  apply (matched_weather_within_seven_minutes Samples.grid_km
           [Samples.centre_bus] Samples.readings j y).
  - left; reflexivity.
  - reflexivity.
Defined.

(** A vehicle row whose zone has no weather record at all keeps its row
    and gets null weather columns; so does every row when the weather
    table is empty. *)
Theorem zone_without_weather_gets_nulls :
  forall (hav_km : Q -> Q -> Q -> Q -> Q)
         (v : list JoinMinuteWithWeather.vehicle)
         (w : list JoinMinuteWithWeather.weather)
         (j : JoinMinuteWithWeather.joined),
    In j (JoinMinuteWithWeather.join hav_km v w) ->
    (forall x, In x w ->
       JoinMinuteWithWeather.w_zone x
         <> JoinMinuteWithWeather.zone (JoinMinuteWithWeather.left_row j)) ->
    JoinMinuteWithWeather.right_row j = None /\
    JoinMinuteWithWeather.rain_mm_col j = None /\
    JoinMinuteWithWeather.temp_c_col j = None.
Proof.
  intros hav_km v w j Hj Hno.
  assert (Hr : JoinMinuteWithWeather.right_row j = None).
  { destruct (JoinMinuteWithWeather.right_row j) as [y|] eqn:Ey;
      [| reflexivity].
    destruct (in_join_right_stamped _ _ _ _ _ Hj Ey)
      as ((x & Hx & _ & Hz) & _).
    exfalso. exact (Hno x Hx Hz). }
  unfold JoinMinuteWithWeather.rain_mm_col, JoinMinuteWithWeather.temp_c_col.
  rewrite Hr. auto.
Qed.

Lemma zone_without_weather_gets_nulls_witness :
  exists j,
    In j (JoinMinuteWithWeather.join Samples.grid_km [Samples.centre_bus] []) /\
    JoinMinuteWithWeather.temp_c_col j = None.
Proof.
  eexists. split; [left; reflexivity|].
  apply (zone_without_weather_gets_nulls Samples.grid_km
           [Samples.centre_bus] []).
  - left; reflexivity.
  - intros x [].
Defined.

(** ** Daily join of vehicles, trips and delays *)

Module JoinDailyFacts.
Import JoinDaily.

Lemma combine_map_self {A B : Type} (f : A -> B) (l : list A) :
  combine l (map f l) = map (fun x => (x, f x)) l.
Proof. induction l as [|x r IH]; cbn; [reflexivity | now rewrite IH]. Qed.

Lemma existsb_key_false k (ks : list BuildFreeflow.key) :
  existsb (BuildFreeflow.key_eqb k) ks = false -> ~ In k ks.
Proof.
  intros H Hin.
  assert (E : existsb (BuildFreeflow.key_eqb k) ks = true).
  { apply existsb_exists. exists k. split; [exact Hin|].
    now apply key_eqb_spec. }
  congruence.
Qed.

Lemma lookup_distinct k v (s : list (BuildFreeflow.key * option Q)) :
  distinct (map fst s) = true -> In (k, v) s -> lookup k s = Some v.
Proof.
  induction s as [|[k' v'] r IH]; cbn; [intros _ []|].
  intros Hd Hin. apply andb_true_iff in Hd. destruct Hd as [Hn Hd].
  apply negb_true_iff, existsb_key_false in Hn.
  destruct Hin as [Heq | Hin].
  - inversion Heq; subst.
    assert (E : BuildFreeflow.key_eqb k k = true) by now apply key_eqb_spec.
    rewrite E. reflexivity.
  - destruct (BuildFreeflow.key_eqb k' k) eqn:E.
    + apply key_eqb_spec in E. subst k'. exfalso. apply Hn.
      apply in_map_iff. exists (k, v). auto.
    + now apply IH.
Qed.

Lemma lookup_no_record k (s : list (BuildFreeflow.key * option Q)) :
  (forall v, ~ In (k, v) s) -> lookup k s = None.
Proof.
  induction s as [|[k' v'] r IH]; cbn; intros H; [reflexivity|].
  destruct (BuildFreeflow.key_eqb k' k) eqn:E.
  - apply key_eqb_spec in E. subst k'. exfalso. apply (H v'). now left.
  - apply IH. intros v Hv. apply (H v). now right.
Qed.

Lemma in_attach_route v o (veh : list vehicle_sample) (trips : list trip) :
  In (v, o) (attach_route veh trips) ->
  In v veh /\
  match o with
  | Some route =>
      In {| t_trip_id := trip_id v; t_route_id := route |} trips
  | None => forall t, In t trips -> t_trip_id t <> trip_id v
  end.
Proof.
  unfold attach_route. rewrite in_flat_map. intros (x & Hx & Hin).
  destruct (filter (fun t => String.eqb (trip_id x) (t_trip_id t)) trips)
    as [|m ms] eqn:Ef.
  - destruct Hin as [Heq | []]. inversion Heq; subst. split; [exact Hx|].
    intros t Ht Hid.
    assert (Hf : In t (filter (fun t => String.eqb (trip_id v) (t_trip_id t))
                              trips)).
    { apply filter_In. split; [exact Ht|]. now apply String.eqb_eq. }
    rewrite Ef in Hf. exact Hf.
  - apply in_map_iff in Hin. destruct Hin as (t & Heq & Ht).
    inversion Heq; subst. split; [exact Hx|].
    rewrite <- Ef in Ht. apply filter_In in Ht. destruct Ht as [Ht Hid].
    apply String.eqb_eq in Hid. rewrite Hid. destruct t; exact Ht.
Qed.

Lemma unique_trip_one_match id (trips : list trip) :
  NoDup (map t_trip_id trips) ->
  filter (fun t => String.eqb id (t_trip_id t)) trips = [] \/
  exists t, filter (fun t => String.eqb id (t_trip_id t)) trips = [t].
Proof.
  induction trips as [|t rest IH]; cbn; intros Hnd; [left; reflexivity|].
  inversion Hnd as [|k ks Hnotin Hnd']; subst.
  destruct (String.eqb id (t_trip_id t)) eqn:E.
  - right. exists t. f_equal.
    apply filter_none. intros t' Ht'.
    destruct (String.eqb id (t_trip_id t')) eqn:E'; [| reflexivity].
    apply String.eqb_eq in E, E'. exfalso. apply Hnotin.
    apply in_map_iff. exists t'. split; [congruence | exact Ht'].
  - apply IH. exact Hnd'.
Qed.

Lemma attach_route_keeps_rows (veh : list vehicle_sample)
    (trips : list trip) :
  NoDup (map t_trip_id trips) -> map fst (attach_route veh trips) = veh.
Proof.
  intros Hnd. unfold attach_route.
  induction veh as [|v rest IH]; [reflexivity|].
  cbn [flat_map]. rewrite map_app, IH.
  destruct (unique_trip_one_match (trip_id v) trips Hnd) as [-> | (t & ->)];
    reflexivity.
Qed.

End JoinDailyFacts.

(** When no two delay records share a trip and a clock minute, the daily
    join writes its table; each row carries a vehicle sample, the delay
    of the record of its trip in its clock minute (null when there is
    none), and the route of its trip in the lookup (null when the trip is
    unknown).  With one lookup row per trip the table has the samples
    row for row. *)
Theorem join_daily_delay_by_trip_and_minute :
  forall (veh : list JoinDaily.vehicle_sample)
         (delay : list JoinDaily.delay_row) (trips : list JoinDaily.trip),
    JoinDaily.distinct (map fst (JoinDaily.d_lookup delay)) = true ->
    exists rows,
      JoinDaily.join_daily veh delay trips = JoinDaily.WroteTable rows /\
      (forall r, In r rows ->
         let s := JoinDaily.sample r in
         In s veh /\
         JoinDaily.ts_min r = JoinDaily.floor60 (JoinDaily.timestamp s) /\
         (forall d, In d delay ->
            JoinDaily.d_trip_id d = JoinDaily.trip_id s ->
            JoinDaily.floor60 (JoinDaily.d_timestamp d) = JoinDaily.ts_min r ->
            JoinDaily.delay_sec r = JoinDaily.d_delay_sec d) /\
         ((forall d, In d delay ->
             JoinDaily.d_trip_id d = JoinDaily.trip_id s ->
             JoinDaily.floor60 (JoinDaily.d_timestamp d)
               <> JoinDaily.ts_min r) ->
          JoinDaily.delay_sec r = None) /\
         (forall route, JoinDaily.route_id r = Some route ->
            In {| JoinDaily.t_trip_id := JoinDaily.trip_id s;
                  JoinDaily.t_route_id := route |} trips) /\
         (JoinDaily.route_id r = None ->
            forall t, In t trips ->
              JoinDaily.t_trip_id t <> JoinDaily.trip_id s)) /\
      (NoDup (map JoinDaily.t_trip_id trips) ->
       map JoinDaily.sample rows = veh).
Proof.
  intros veh delay trips Hd.
  unfold JoinDaily.join_daily, JoinDaily.index_map. rewrite Hd.
  rewrite map_map, JoinDailyFacts.combine_map_self, map_map.
  cbn [fst snd].
  eexists. split; [reflexivity|]. split.
  - intros r Hr. apply in_map_iff in Hr.
    destruct Hr as ([v o] & <- & Hin).
    cbn [fst snd JoinDaily.sample JoinDaily.ts_min JoinDaily.delay_sec
         JoinDaily.route_id].
    apply JoinDailyFacts.in_attach_route in Hin. destruct Hin as (Hv & Ho).
    split; [exact Hv|]. split; [reflexivity|]. split; [| split; [| split]].
    + intros d Hdin Htrip Hmin.
      rewrite (JoinDailyFacts.lookup_distinct _ (JoinDaily.d_delay_sec d) _ Hd);
        [reflexivity|].
      unfold JoinDaily.d_lookup. apply in_map_iff. exists d.
      split; [| exact Hdin]. rewrite Htrip, Hmin. reflexivity.
    + intros Hno. rewrite JoinDailyFacts.lookup_no_record; [reflexivity|].
      intros w Hw. unfold JoinDaily.d_lookup in Hw. apply in_map_iff in Hw.
      destruct Hw as (d & Heq & Hdin). inversion Heq.
      apply (Hno d Hdin); assumption.
    + intros route Heq. subst o. exact Ho.
    + intros Heq. subst o. exact Ho.
  - intros Hnd. rewrite map_map. cbn [JoinDaily.sample].
    rewrite <- (JoinDailyFacts.attach_route_keeps_rows veh trips Hnd) at 2.
    apply map_ext. intros [v o]. reflexivity.
Qed.

Lemma join_daily_delay_by_trip_and_minute_witness :
  exists rows,
    JoinDaily.join_daily MoreSamples.veh_samples MoreSamples.delays
      MoreSamples.trips = JoinDaily.WroteTable rows /\
    map JoinDaily.sample rows = MoreSamples.veh_samples /\
    map JoinDaily.delay_sec rows = [Some 120; Some 120; None].
Proof.
  destruct (join_daily_delay_by_trip_and_minute MoreSamples.veh_samples
              MoreSamples.delays MoreSamples.trips eq_refl)
    as (rows & Hrun & _ & Hrows).
  exists rows. split; [exact Hrun|]. split.
  - apply Hrows. repeat constructor. intros [].
  - vm_compute in Hrun. injection Hrun as <-. reflexivity.
Defined.


(** ** Nightly roll-up *)

(** On a day not yet rolled up whose raw folder exists, a label is
    written exactly when it has at least one file and either all the
    expected ones or the run allows partial days.  The run marks the day
    as processed whatever it wrote, so every later run, with or without
    [--allow-partial], does nothing. *)
Theorem nightly_etl_marks_day_processed :
  forall (allow_partial : bool) (st : NightlyEtl.folders)
         (n_files : NightlyEtl.label -> nat),
    NightlyEtl.raw_day st = true ->
    NightlyEtl.hist_day st = false ->
    exists labels st',
      NightlyEtl.main allow_partial st n_files
        = (NightlyEtl.Done labels, st') /\
      (forall l, In l labels <->
         (0 < n_files l)%nat /\
         ((NightlyEtl.EXPECTED l <= n_files l)%nat \/ allow_partial = true)) /\
      forall allow_partial' n_files',
        NightlyEtl.main allow_partial' st' n_files'
          = (NightlyEtl.NothingToDo, st').
Proof.
  intros ap st n Hraw Hhist. unfold NightlyEtl.main.
  rewrite Hhist, Hraw. cbn [negb].
  eexists. eexists. split; [reflexivity|]. split.
  - intros l. rewrite filter_In. unfold NightlyEtl.written.
    assert (Hall : In l [NightlyEtl.vehicles; NightlyEtl.weather;
                         NightlyEtl.delay])
      by (destruct l; cbn; auto).
    destruct (Nat.eqb_spec (n l) 0) as [E0|E0].
    + split; [intros [_ H]; discriminate | intros [H _]; lia].
    + destruct (Nat.ltb_spec (n l) (NightlyEtl.EXPECTED l)) as [El|El];
        destruct ap; cbn [andb negb].
      * split; [intros _; split; [lia | auto] | auto].
      * split; [intros [_ H]; discriminate
               | intros [_ [H | H]]; [lia | discriminate]].
      * split; [intros _; split; [lia | auto] | auto].
      * split; [intros _; split; [lia | auto] | auto].
  - intros ap' n'. reflexivity.
Qed.

Lemma nightly_etl_marks_day_processed_witness :
  exists labels st',
    NightlyEtl.main false MoreSamples.fresh_day MoreSamples.files_found
      = (NightlyEtl.Done labels, st') /\
    ~ In NightlyEtl.weather labels /\
    NightlyEtl.main true st' MoreSamples.files_found
      = (NightlyEtl.NothingToDo, st').
Proof.
  destruct (nightly_etl_marks_day_processed false MoreSamples.fresh_day
              MoreSamples.files_found eq_refl eq_refl)
    as (labels & st' & Hrun & Hlabels & Hlater).
  exists labels, st'. split; [exact Hrun|]. split.
  - intros Hin. apply Hlabels in Hin. destruct Hin as [_ [Hle | Hap]].
    + vm_compute in Hle. lia.
    + discriminate.
  - apply Hlater.
Defined.


Module EtlFacts.
Import NightlyEtl.

Lemma with_prev_rows (seen df : list sample) :
  map fst (with_prev seen df) = df.
Proof.
  revert seen. induction df as [|r rest IH]; intros seen; cbn;
    [reflexivity | now rewrite IH].
Qed.

Lemma with_prev_first (seen df : list sample) pre r o post :
  with_prev seen df = pre ++ (r, o) :: post ->
  (o = None <->
   (forall p, In p seen -> vehicle_id p <> vehicle_id r) /\
   (forall p, In p pre -> vehicle_id (fst p) <> vehicle_id r)).
Proof.
  revert seen pre. induction df as [|x rest IH]; intros seen pre; cbn.
  - destruct pre; discriminate.
  - destruct pre as [|q pre']; cbn; intros Heq; inversion Heq; subst.
    + split.
      * intros Hnone. split; [| intros p []].
        intros p Hp Hid.
        pose proof (find_none _ _ Hnone p Hp) as Hf. cbn in Hf.
        apply String.eqb_neq in Hf. contradiction.
      * intros [Hseen _].
        destruct (find _ seen) as [p|] eqn:Ef; [| reflexivity].
        apply find_some in Ef. destruct Ef as [Hp Hid].
        apply String.eqb_eq in Hid. exfalso. exact (Hseen p Hp Hid).
    + rewrite (IH _ _ H1). cbn [fst]. split.
      * intros [Hs Hp]. split.
        -- intros p Hin. apply Hs. now right.
        -- intros p [<- | Hin]; [apply Hs; now left | now apply Hp].
      * intros [Hs Hp]. split.
        -- intros p [Hpx | Hin]; [| now apply Hs].
           subst p. exact (Hp _ (or_introl eq_refl)).
        -- intros p Hin. apply Hp. now right.
Qed.

End EtlFacts.

Lemma grid_km_nonneg (a b c d : Q) : 0 <= Samples.grid_km a b c d.
Proof.
  unfold Samples.grid_km.
  assert (Hsq : forall x : Q, 0 <= x * x)
    by (intros x; destruct (Qlt_le_dec x 0); nra).
  pose proof (Hsq (a - c)). pose proof (Hsq (b - d)). lra.
Qed.

(** The speed column of the roll-up: the rows are those of the input,
    sorted; a row has no speed exactly when no earlier row of the table
    belongs to its vehicle; and, distances being non-negative, a speed is
    never negative: the elapsed time is clipped at one second, so equal
    or out-of-order timestamps do not divide by zero or flip the sign. *)
Theorem etl_speed_first_null_then_nonnegative :
  forall (haversine : Q -> Q -> Q -> Q -> Q) (df : list NightlyEtl.sample),
    (forall a b c d, 0 <= haversine a b c d) ->
    let out := NightlyEtl.add_speed haversine df in
    Permutation (map fst out) df /\
    (forall pre r s post, out = pre ++ (r, s) :: post ->
       (s = None <->
        forall p, In p pre ->
          NightlyEtl.vehicle_id (fst p) <> NightlyEtl.vehicle_id r)) /\
    (forall r y, In (r, Some y) out -> 0 <= y).
Proof.
  intros haversine df Hpos out. subst out. unfold NightlyEtl.add_speed.
  set (sorted := Frame.sort_by NightlyEtl.by_vehicle_time df).
  split; [| split].
  - rewrite map_map. cbn [fst]. rewrite EtlFacts.with_prev_rows.
    apply sort_by_perm.
  - intros pre r s post Heq.
    apply (f_equal (map (fun rs : NightlyEtl.sample * option Q => fst rs)))
      in Heq as Hrows.
    rewrite map_map in Hrows. cbn [fst] in Hrows.
    assert (Hsplit := Heq). apply map_eq_app in Hsplit.
    destruct Hsplit as (l1 & l2 & Hwp & Hpre & Hrest).
    destruct l2 as [|[r' o] l2']; [discriminate|].
    cbn [map fst snd] in Hrest. inversion Hrest; subst.
    pose proof (EtlFacts.with_prev_first [] sorted l1 r o l2' Hwp) as Hf.
    assert (Hnull : NightlyEtl.speed_of haversine r o = None <-> o = None)
      by (destruct o; cbn; split; congruence).
    rewrite Hnull, Hf. split.
    + intros [_ Hp] p Hin. apply in_map_iff in Hin.
      destruct Hin as (q & <- & Hq). cbn [fst]. now apply Hp.
    + intros Hp. split; [intros p []|].
      intros q Hq.
      apply (Hp (fst q, NightlyEtl.speed_of haversine (fst q) (snd q))).
      apply in_map_iff. exists q. auto.
  - intros r y Hin. apply in_map_iff in Hin.
    destruct Hin as ([r' o] & Heq & _). cbn [fst snd] in Heq.
    inversion Heq; subst. destruct o as [p|]; [| discriminate].
    cbn in H1. inversion H1; subst. clear H1 Heq.
    set (dist := haversine _ _ _ _).
    assert (Hd : 0 <= dist) by apply Hpos. clearbody dist.
    unfold Cell.clip_lower.
    assert (Hm : 1 <= Qmax (inject_Z (NightlyEtl.timestamp r
                                      - NightlyEtl.timestamp p)) 1)
      by apply Q.le_max_r.
    set (m := Qmax _ 1) in *. clearbody m.
    assert (Hk : 0 < / m) by (apply Qinv_lt_0_compat; lra).
    unfold Qdiv. set (k := / m) in *. clearbody k. nra.
Qed.

Lemma etl_speed_first_null_then_nonnegative_witness :
  let r := MoreSamples.ping "v1" 1752570060 53.35 (-6.26) in
  let y := Samples.grid_km 53.34 (-6.26) 53.35 (-6.26)
           / Cell.clip_lower 1 (inject_Z (1752570060 - 1752570000)) * 3.6 in
  In (r, Some y) (NightlyEtl.add_speed Samples.grid_km MoreSamples.pings) /\
  0 <= y.
Proof.
  intros r y.
  assert (Hin : In (r, Some y)
                   (NightlyEtl.add_speed Samples.grid_km MoreSamples.pings))
    by (vm_compute; right; left; reflexivity).
  split; [exact Hin|].
  apply (proj2 (proj2 (etl_speed_first_null_then_nonnegative Samples.grid_km
                         MoreSamples.pings grid_km_nonneg)) r y Hin).
Defined.


(** ** Segment table *)

Lemma filter_perm {A : Type} (f : A -> bool) (l l' : list A) :
  Permutation l l' -> Permutation (filter f l) (filter f l').
Proof.
  induction 1 as [| x l l' H IH | x y l | l l' l'' H1 IH1 H2 IH2]; cbn.
  - constructor.
  - destruct (f x); [now apply perm_skip | exact IH].
  - destruct (f x), (f y); try reflexivity. apply perm_swap.
  - etransitivity; eassumption.
Qed.

Module SegmentFacts.
Import BuildSegments.

Lemma pairs_from_step sid i a b rest :
  pairs_from sid i (a :: b :: rest)
  = {| line := {| SegmentUtils.segment_id :=
                    String.append sid (String.append "_" (str_nat i));
                  SegmentUtils.p0 := a;
                  SegmentUtils.p1 := b |};
       b_shape_id := sid; b_seq := i |}
    :: pairs_from sid (S i) (b :: rest).
Proof. reflexivity. Qed.

Lemma pairs_from_seq sid i pts :
  map b_seq (pairs_from sid i pts) = List.seq i (List.length pts - 1).
Proof.
  revert i. induction pts as [|a rest IH]; intros i; [reflexivity|].
  destruct rest as [|b rest']; [reflexivity|].
  rewrite pairs_from_step. cbn [map b_seq]. rewrite IH. cbn [List.length].
  replace (S (S (List.length rest')) - 1)%nat
    with (S (S (List.length rest') - 1))%nat by lia.
  reflexivity.
Qed.

Lemma pairs_from_shape sid i pts x :
  In x (pairs_from sid i pts) -> b_shape_id x = sid.
Proof.
  revert i. induction pts as [|a rest IH]; intros i; [intros []|].
  destruct rest as [|b rest']; [intros []|].
  rewrite pairs_from_step. intros [<- | Hin]; [reflexivity | eapply IH; eauto].
Qed.

Lemma pairs_from_chain sid i pts pre x y post :
  pairs_from sid i pts = pre ++ x :: y :: post ->
  SegmentUtils.p1 (line x) = SegmentUtils.p0 (line y).
Proof.
  revert i pre. induction pts as [|a rest IH]; intros i pre.
  - destruct pre; discriminate.
  - destruct rest as [|b rest']; [destruct pre; discriminate|].
    rewrite pairs_from_step. destruct pre as [|q pre']; cbn [app].
    + intros Heq. destruct rest' as [|c rest'']; [discriminate|].
      rewrite pairs_from_step in Heq.
      injection Heq as Hx Hy _. subst x y. reflexivity.
    + intros Heq.
      assert (Hrest : pairs_from sid (S i) (b :: rest')
                      = pre' ++ x :: y :: post)
        by (injection Heq; intros; assumption).
      eapply IH; eauto.
Qed.

Lemma rows_of_other_shape sid sid' shp :
  sid' <> sid ->
  filter (fun b => String.eqb (b_shape_id b) sid) (rows_of_shape sid' shp)
  = [].
Proof.
  intros Hne. apply filter_none. intros x Hx.
  apply pairs_from_shape in Hx. rewrite Hx. now apply String.eqb_neq.
Qed.

Lemma rows_of_same_shape sid shp :
  filter (fun b => String.eqb (b_shape_id b) sid) (rows_of_shape sid shp)
  = rows_of_shape sid shp.
Proof.
  apply filter_all. intros x Hx.
  apply pairs_from_shape in Hx. rewrite Hx. apply String.eqb_refl.
Qed.

Lemma filter_shape_flat_map sid shp (sids : list string) :
  NoDup sids ->
  filter (fun b => String.eqb (b_shape_id b) sid)
         (flat_map (fun s => rows_of_shape s shp) sids)
  = if in_dec string_dec sid sids then rows_of_shape sid shp else [].
Proof.
  induction 1 as [|s rest Hnotin Hnd IH]; [reflexivity|].
  cbn [flat_map]. rewrite filter_app, IH.
  destruct (string_dec s sid) as [-> | Hne].
  - rewrite rows_of_same_shape.
    destruct (in_dec string_dec sid rest); [contradiction|].
    destruct (in_dec string_dec sid (sid :: rest)) as [_ | Hno];
      [apply app_nil_r | exfalso; apply Hno; now left].
  - rewrite (rows_of_other_shape sid s shp Hne). cbn [app].
    destruct (in_dec string_dec sid rest) as [Hin | Hno];
      destruct (in_dec string_dec sid (s :: rest)) as [Hin' | Hno'];
      try reflexivity.
    + exfalso. apply Hno'. now right.
    + exfalso. destruct Hin' as [Heq | Hin']; [exact (Hne Heq) | auto].
Qed.

Lemma rows_of_absent_shape sid shp :
  ~ In sid (map shape_id shp) -> rows_of_shape sid shp = [].
Proof.
  intros Hno. unfold rows_of_shape.
  rewrite (filter_none (fun p => String.eqb (shape_id p) sid) shp);
    [reflexivity|].
  intros p Hp. apply String.eqb_neq. intros Heq. apply Hno.
  apply in_map_iff. exists p. auto.
Qed.

Lemma built_rows_of_shape sid (shapes : list shape_pt) :
  filter (fun b => String.eqb (b_shape_id b) sid) (rows shapes)
  = rows_of_shape sid (Frame.sort_by by_shape_seq shapes).
Proof.
  unfold rows.
  set (shp := Frame.sort_by by_shape_seq shapes).
  rewrite filter_shape_flat_map.
  - destruct (in_dec string_dec sid _) as [Hin | Hno]; [reflexivity|].
    symmetry. apply rows_of_absent_shape. intros Hin. apply Hno.
    apply in_sort_by. now apply (in_uniq _ String.eqb_eq).
  - eapply Permutation_NoDup; [symmetry; apply sort_by_perm|].
    apply NoDup_uniq. apply String.eqb_eq.
Qed.

(** The rows of one shape: one fewer than its points. *)
Lemma length_rows_of_shape sid (shapes : list shape_pt) :
  List.length (filter (fun b => String.eqb (b_shape_id b) sid) (rows shapes))
  = (List.length (filter (fun p => String.eqb (shape_id p) sid) shapes)
     - 1)%nat.
Proof.
  rewrite built_rows_of_shape. unfold rows_of_shape.
  rewrite <- (length_map b_seq), pairs_from_seq, length_seq, length_map.
  f_equal. apply Permutation_length, filter_perm, sort_by_perm.
Qed.

End SegmentFacts.

(** A cached segment table is returned as it is, whatever the shapes,
    and the cache is left alone.  The rows built afresh have for a shape
    of [k] points exactly [k - 1] segments (none for a single point),
    numbered 0, 1, ... in order, each ending where the next one starts.
    They are returned and cached when some shape has two points; when
    none has, no table is built and no cache written. *)
Theorem build_segments_chain_per_shape :
  (forall cache shapes,
     BuildSegments.build_segments (Some cache) shapes
     = (BuildSegments.Table cache, Some cache)) /\
  (forall (shapes : list BuildSegments.shape_pt) (sid : string),
     let rows :=
       filter (fun b => String.eqb (BuildSegments.b_shape_id b) sid)
              (BuildSegments.rows shapes) in
     let k :=
       List.length (filter (fun p => String.eqb (BuildSegments.shape_id p) sid)
                           shapes) in
     List.length rows = (k - 1)%nat /\
     map BuildSegments.b_seq rows = List.seq 0 (k - 1) /\
     (forall pre x y post, rows = pre ++ x :: y :: post ->
        SegmentUtils.p1 (BuildSegments.line x)
        = SegmentUtils.p0 (BuildSegments.line y))) /\
  (forall (shapes : list BuildSegments.shape_pt) (sid : string),
     (2 <= List.length
             (filter (fun p => String.eqb (BuildSegments.shape_id p) sid)
                     shapes))%nat ->
     BuildSegments.rows shapes <> [] /\
     BuildSegments.build_segments None shapes
     = (BuildSegments.Table (BuildSegments.rows shapes),
        Some (BuildSegments.rows shapes))) /\
  (forall shapes : list BuildSegments.shape_pt,
     (forall sid,
        (List.length
           (filter (fun p => String.eqb (BuildSegments.shape_id p) sid)
                   shapes) <= 1)%nat) ->
     BuildSegments.build_segments None shapes
     = (BuildSegments.RaiseNoGeometry, None)).
Proof.
  split; [reflexivity|]. split; [| split].
  - intros shapes sid rows k. subst rows.
    rewrite SegmentFacts.built_rows_of_shape.
    unfold BuildSegments.rows_of_shape.
    set (pts := map _ (filter _ (Frame.sort_by _ shapes))).
    assert (Hk : List.length pts = k).
    { unfold pts, k. rewrite length_map.
      apply Permutation_length, filter_perm, sort_by_perm. }
    clearbody pts k.
    assert (Hseq : map BuildSegments.b_seq (BuildSegments.pairs_from sid 0 pts)
                   = List.seq 0 (k - 1))
      by (rewrite SegmentFacts.pairs_from_seq; subst k; reflexivity).
    split; [| split].
    + rewrite <- (length_map BuildSegments.b_seq), Hseq. apply length_seq.
    + exact Hseq.
    + intros pre x y post Heq.
      eapply SegmentFacts.pairs_from_chain; eauto.
  - intros shapes sid Hk.
    pose proof (SegmentFacts.length_rows_of_shape sid shapes) as Hlen.
    assert (Hne : BuildSegments.rows shapes <> []).
    { intros Hnil. rewrite Hnil in Hlen. cbn in Hlen. lia. }
    split; [exact Hne|]. unfold BuildSegments.build_segments.
    destruct (BuildSegments.rows shapes); [contradiction | reflexivity].
  - intros shapes Hk. unfold BuildSegments.build_segments.
    destruct (BuildSegments.rows shapes) as [|x rest] eqn:E; [reflexivity|].
    exfalso.
    pose proof (SegmentFacts.length_rows_of_shape
                  (BuildSegments.b_shape_id x) shapes) as Hlen.
    rewrite E in Hlen. cbn [filter] in Hlen.
    rewrite String.eqb_refl in Hlen. cbn [List.length] in Hlen.
    specialize (Hk (BuildSegments.b_shape_id x)). lia.
Qed.

Lemma build_segments_chain_per_shape_witness :
  BuildSegments.rows MoreSamples.shapes <> [] /\
  BuildSegments.build_segments None MoreSamples.shapes
  = (BuildSegments.Table (BuildSegments.rows MoreSamples.shapes),
     Some (BuildSegments.rows MoreSamples.shapes)).
Proof.
  apply (proj1 (proj2 (proj2 build_segments_chain_per_shape))
           MoreSamples.shapes "s1"%string).
  vm_compute. lia.
Defined.


(** ** Vanish counters and route names of the dashboard *)

Lemma length_uniq_le {A : Type} (eqb : A -> A -> bool) (l : list A) :
  (List.length (Frame.uniq eqb l) <= List.length l)%nat.
Proof.
  induction l as [|x r IH]; cbn; [lia|].
  pose proof (filter_length_le (fun y => negb (eqb x y)) (Frame.uniq eqb r)).
  lia.
Qed.

Lemma id_eqb_spec (a b : option string) :
  AppStats.id_eqb a b = true <-> a = b.
Proof.
  destruct a as [x|], b as [y|]; cbn; try (split; discriminate);
    [| tauto].
  rewrite String.eqb_eq. split; [now intros -> | now intros [= ->]].
Qed.

Lemma pair_eqb_spec (a b : option string * option string) :
  AppStats.pair_eqb a b = true <-> a = b.
Proof.
  destruct a as [a1 a2], b as [b1 b2]. unfold AppStats.pair_eqb. cbn [fst snd].
  rewrite andb_true_iff, !id_eqb_spec.
  split; [intros [-> ->]; reflexivity | intros H; inversion H; auto].
Qed.

Lemma length_present_le (l : list (option string)) :
  (List.length (AppStats.present l) <= List.length l)%nat.
Proof.
  unfold AppStats.present.
  induction l as [|[x|] r IH]; cbn [flat_map app List.length]; lia.
Qed.

Lemma length_uniq_same_elements {A : Type} (eqb : A -> A -> bool)
    (l l' : list A) :
  (forall x y, eqb x y = true <-> x = y) ->
  (forall x, In x l <-> In x l') ->
  List.length (Frame.uniq eqb l) = List.length (Frame.uniq eqb l').
Proof.
  intros Hspec Hsame. apply Permutation_length.
  apply NoDup_Permutation; try (apply NoDup_uniq; exact Hspec).
  intros x. rewrite !(in_uniq _ Hspec). apply Hsame.
Qed.

(** The anchor count never exceeds the number of anchor rows, hence the
    number of rows; the rate per 1000 vehicle-minutes lies in [0, 1000]
    and is 0.0 on an empty day; and with both identifier columns one more
    anchor row of a (vehicle, trip) already counted, null identifiers
    included, leaves the count unchanged. *)
Theorem vanish_count_and_rate :
  (forall d : AppStats.kpi_frame,
     (AppStats._count_anchor_trips d
      <= List.length (filter AppStats.vanish_anchor (AppStats.rows d)))%nat /\
     (AppStats._count_anchor_trips d <= List.length (AppStats.rows d))%nat /\
     0 <= snd (AppStats.vanish_rate d) <= 1000 /\
     (AppStats.rows d = [] -> AppStats.vanish_rate d = (0%nat, 0.0))) /\
  (forall (rows : list AppStats.kpi_row) (r r' : AppStats.kpi_row),
     In r' rows ->
     AppStats.vanish_anchor r = true -> AppStats.vanish_anchor r' = true ->
     AppStats.vehicle_id r = AppStats.vehicle_id r' ->
     AppStats.trip_id r = AppStats.trip_id r' ->
     AppStats._count_anchor_trips
       {| AppStats.has_vehicle_id := true; AppStats.has_trip_id := true;
          AppStats.rows := rows ++ [r] |}
     = AppStats._count_anchor_trips
         {| AppStats.has_vehicle_id := true; AppStats.has_trip_id := true;
            AppStats.rows := rows |}).
Proof.
  split.
  - intros d.
    assert (H1 : (AppStats._count_anchor_trips d
                  <= List.length (filter AppStats.vanish_anchor
                                         (AppStats.rows d)))%nat).
    { unfold AppStats._count_anchor_trips.
      destruct (AppStats.has_vehicle_id d && AppStats.has_trip_id d).
      - etransitivity; [apply length_uniq_le|]. now rewrite length_map.
      - destruct (AppStats.has_trip_id d); [| lia].
        etransitivity; [apply length_uniq_le|].
        etransitivity; [apply length_present_le|]. now rewrite length_map. }
    assert (H2 : (List.length (filter AppStats.vanish_anchor (AppStats.rows d))
                  <= List.length (AppStats.rows d))%nat)
      by apply filter_length_le.
    split; [exact H1|]. split; [lia|]. split.
    + unfold AppStats.vanish_rate. cbn [snd].
      destruct (Nat.eqb_spec (List.length (AppStats.rows d)) 0) as [E|E];
        [split; discriminate|].
      set (a := AppStats._count_anchor_trips d) in *.
      set (t := List.length (AppStats.rows d)) in *.
      assert (Ha : 0 <= inject_Z (Z.of_nat a))
        by (change 0 with (inject_Z 0); rewrite <- Zle_Qle; lia).
      assert (Hat : inject_Z (Z.of_nat a) <= inject_Z (Z.of_nat t))
        by (rewrite <- Zle_Qle; lia).
      assert (Ht : 1 <= inject_Z (Z.of_nat t))
        by (change 1 with (inject_Z 1); rewrite <- Zle_Qle; lia).
      set (qa := inject_Z (Z.of_nat a)) in *.
      set (qt := inject_Z (Z.of_nat t)) in *. clearbody qa qt.
      assert (Hr : 0 <= qa / qt <= 1).
      { split; [apply Qle_shift_div_l; lra | apply Qle_shift_div_r; lra]. }
      set (q := qa / qt) in *. clearbody q. lra.
    + intros Hnil. unfold AppStats.vanish_rate, AppStats._count_anchor_trips.
      rewrite Hnil. cbn.
      destruct (AppStats.has_vehicle_id d && AppStats.has_trip_id d);
        [reflexivity|].
      destruct (AppStats.has_trip_id d); reflexivity.
  - intros rows r r' Hin Ha Ha' Hv Ht.
    unfold AppStats._count_anchor_trips. cbn [AppStats.has_vehicle_id
      AppStats.has_trip_id AppStats.rows andb].
    apply length_uniq_same_elements; [exact pair_eqb_spec|].
    intros x. rewrite filter_app, map_app, in_app_iff.
    cbn [filter]. rewrite Ha. cbn [map In].
    split; [| intros H; now left].
    intros [H | [<- | []]]; [exact H|].
    apply in_map_iff. exists r'. split; [congruence|].
    apply filter_In. auto.
Qed.

Lemma vanish_count_and_rate_witness :
  AppStats._count_anchor_trips
    {| AppStats.has_vehicle_id := true; AppStats.has_trip_id := true;
       AppStats.rows := MoreSamples.kpi_rows
                        ++ [MoreSamples.kpi true "v1" "t1"] |}
  = AppStats._count_anchor_trips
      {| AppStats.has_vehicle_id := true; AppStats.has_trip_id := true;
         AppStats.rows := MoreSamples.kpi_rows |}.
Proof.
  apply (proj2 vanish_count_and_rate MoreSamples.kpi_rows
           (MoreSamples.kpi true "v1" "t1") (MoreSamples.kpi true "v1" "t1"));
    try reflexivity.
  left. reflexivity.
Defined.


Section VanishFacts.
Variable geometry : Type.
Variable within : Q * Q -> geometry -> bool.

Lemma lookup_map_key {T : Type} (id : string) (g : string -> T)
    (ks : list string) (v : T) :
  App.lookup id (map (fun k => (k, g k)) ks) = Some v -> v = g id.
Proof.
  induction ks as [|k r IH]; cbn; [discriminate|].
  destruct (String.eqb k id) eqn:E.
  - apply String.eqb_eq in E. subst k. intros H. now inversion H.
  - exact IH.
Qed.

Lemma in_pairs_of_id (id p : string) (df : list (AppStats.anchor_row))
    (eds : list (App.ed geometry)) :
  In p (AppStats.pairs_of_id id (AppStats.sjoin_pairs geometry within df eds))
  -> exists r e,
       In r df /\ In e eds /\ p = AppStats.pair_of r /\
       App.ed_id geometry e = id /\
       within (AppStats.point_of r) (App.geom geometry e) = true.
Proof.
  unfold AppStats.pairs_of_id. rewrite in_map_iff.
  intros ([q o] & Hq & Hin). cbn in Hq. subst q.
  apply filter_In in Hin. destruct Hin as [Hin Hid]. cbn in Hid.
  destruct o as [i|]; [| discriminate]. apply String.eqb_eq in Hid. subst i.
  unfold AppStats.sjoin_pairs in Hin. apply in_flat_map in Hin.
  destruct Hin as (r & Hr & Hin).
  destruct (filter _ eds) as [|m ms] eqn:Ef.
  - destruct Hin as [Heq | []]. discriminate.
  - apply in_map_iff in Hin. destruct Hin as (e & Heq & He).
    inversion Heq; subst. rewrite <- Ef in He. apply filter_In in He.
    destruct He as [He Hw]. exists r, e. auto.
Qed.

(** [ed_vanish_counts] gives every polygon its row, in order.  A count
    is the number of distinct vehicle|trip pairs joined to the polygon's
    identifier: it never exceeds the number of located anchor rows, it is
    0 when no located anchor lies within a polygon of that identifier,
    and it is at most 1 when all anchors belong to one vehicle and trip,
    however many rows that trip has. *)
Theorem ed_vanish_counts_distinct_pairs :
  forall (eds : list (App.ed geometry))
         (days : list (list AppStats.anchor_row)),
    exists out,
      AppStats.ed_vanish_counts geometry within (Some eds) days = Some out /\
      map fst out = eds /\
      forall e c, In (e, c) out ->
        let anchors :=
          filter AppStats.a_anchor (AppStats.located (List.concat days)) in
        (c <= List.length anchors)%nat /\
        ((forall r e', In r anchors -> In e' eds ->
            App.ed_id geometry e' = App.ed_id geometry e ->
            within (AppStats.point_of r) (App.geom geometry e') = false) ->
         c = 0%nat) /\
        ((forall r1 r2, In r1 anchors -> In r2 anchors ->
            AppStats.pair_of r1 = AppStats.pair_of r2) ->
         (c <= 1)%nat).
Proof.
  intros eds days. unfold AppStats.ed_vanish_counts.
  assert (Hzero : forall e c,
            In (e, c) (AppStats.zero_counts geometry eds) -> c = 0%nat).
  { intros e c Hin. unfold AppStats.zero_counts in Hin.
    apply in_map_iff in Hin. destruct Hin as (x & Heq & _).
    now inversion Heq. }
  assert (Hfst : map fst (AppStats.zero_counts geometry eds) = eds).
  { unfold AppStats.zero_counts. rewrite map_map. apply map_id. }
  destruct (AppStats.located (List.concat days)) as [|l0 ls] eqn:Eloc.
  { eexists. split; [reflexivity|]. split; [exact Hfst|].
    intros e c Hin. rewrite (Hzero e c Hin). cbn. repeat split; lia. }
  destruct (filter AppStats.a_anchor (l0 :: ls)) as [|a0 as_] eqn:Eanc.
  { eexists. split; [reflexivity|]. split; [exact Hfst|].
    intros e c Hin. rewrite (Hzero e c Hin). cbn. repeat split; lia. }
  set (df := a0 :: as_) in *.
  eexists. split; [reflexivity|]. split.
  { rewrite map_map. cbn [fst]. apply map_id. }
  intros e c Hin.
  apply in_map_iff in Hin. destruct Hin as (e0 & Heq & _).
  injection Heq as He0 Hcval. subst e0.
  set (id := App.ed_id geometry e) in *.
  set (join := AppStats.sjoin_pairs geometry within df eds) in *.
  assert (Hc : c = 0%nat \/
               c = List.length
                     (Frame.uniq String.eqb (AppStats.pairs_of_id id join))).
  { rewrite <- Hcval. unfold AppStats.counts.
    destruct (App.lookup id _) as [v|] eqn:El; [| left; reflexivity].
    right. apply lookup_map_key in El. exact El. }
  assert (Hnd : NoDup (Frame.uniq String.eqb (AppStats.pairs_of_id id join)))
    by (apply NoDup_uniq; apply String.eqb_eq).
  assert (Hfrom : forall p,
            In p (Frame.uniq String.eqb (AppStats.pairs_of_id id join)) ->
            exists r e', In r df /\ In e' eds /\ p = AppStats.pair_of r /\
              App.ed_id geometry e' = id /\
              within (AppStats.point_of r) (App.geom geometry e') = true).
  { intros p Hp. apply (proj1 (in_uniq String.eqb String.eqb_eq p _)) in Hp.
    now apply in_pairs_of_id in Hp. }
  clear Hcval. split; [| split].
  - destruct Hc as [-> | ->]; [lia|].
    rewrite <- (length_map AppStats.pair_of df).
    apply NoDup_incl_length; [exact Hnd|].
    intros p Hp. destruct (Hfrom p Hp) as (r & _ & Hr & _ & -> & _).
    now apply in_map.
  - intros Hout. destruct Hc as [-> | ->]; [reflexivity|].
    destruct (Frame.uniq String.eqb (AppStats.pairs_of_id id join))
      as [|p ps] eqn:Eu; [reflexivity|].
    exfalso.
    destruct (Hfrom p (or_introl eq_refl)) as (r & e' & Hr & He' & _ & Hid & Hw).
    rewrite (Hout r e' Hr He' Hid) in Hw. discriminate.
  - intros Hone. destruct Hc as [-> | ->]; [lia|].
    change 1%nat with (List.length [AppStats.pair_of a0]).
    apply NoDup_incl_length; [exact Hnd|].
    intros p Hp. destruct (Hfrom p Hp) as (r & _ & Hr & _ & -> & _).
    left. apply Hone; [now left | exact Hr].
Qed.

End VanishFacts.

Lemma ed_vanish_counts_distinct_pairs_witness :
  exists out,
    AppStats.ed_vanish_counts Samples.box Samples.in_box
      (Some [Samples.city_ed; Samples.harbour_ed]) [MoreSamples.anchor_day]
      = Some out /\
    map fst out = [Samples.city_ed; Samples.harbour_ed] /\
    forall e c, In (e, c) out -> (c <= 1)%nat.
Proof.
  destruct (ed_vanish_counts_distinct_pairs Samples.box Samples.in_box
              [Samples.city_ed; Samples.harbour_ed] [MoreSamples.anchor_day])
    as (out & Hrun & Hmap & Hrows).
  exists out. split; [exact Hrun|]. split; [exact Hmap|].
  intros e c Hin. pose proof (Hrows e c Hin) as H. cbv zeta in H.
  destruct H as (_ & _ & Hone). apply Hone.
  intros r1 r2 H1 H2. vm_compute in H1, H2.
  destruct H1 as [<- | [<- | []]]; destruct H2 as [<- | [<- | []]];
    reflexivity.
Defined.

(** ** Route display names *)

Lemma append_inj_l (s a b : string) :
  String.append s a = String.append s b -> a = b.
Proof.
  induction s as [|c s IH]; cbn; [auto|].
  intros H. inversion H. auto.
Qed.

Lemma append_paren_inj (a b : string) :
  String.append a ")" = String.append b ")" -> a = b.
Proof.
  revert b. induction a as [|c a IH]; intros [|d b]; cbn; intros H.
  - reflexivity.
  - inversion H as [[Hc Hrest]]. destruct b; discriminate.
  - inversion H as [[Hc Hrest]]. destruct a; discriminate.
  - inversion H as [[Hc Hrest]]. f_equal. now apply IH.
Qed.

Lemma append_assoc (a b c : string) :
  String.append (String.append a b) c = String.append a (String.append b c).
Proof. induction a as [|x a IH]; cbn; [reflexivity | now rewrite IH]. Qed.

Lemma two_members_length {A : Type} (x y : A) (l : list A) :
  In x l -> In y l -> x <> y -> (1 < List.length l)%nat.
Proof.
  intros Hx Hy Hne. unfold lt.
  change 2%nat with (List.length [x; y]).
  apply NoDup_incl_length.
  - constructor; [intros [H | []]; congruence|].
    constructor; [intros [] | constructor].
  - intros z [<- | [<- | []]]; assumption.
Qed.

(** [load_routes] keeps one row per route, in order.  Two routes that
    share a short name and have different long names get different
    display names, "short (long)"; a route that shares its short name
    with another row and has no long name gets a null display name; and
    in a table without repeated rows a route whose short name no other
    route has keeps it as display name. *)
Theorem load_routes_disambiguates :
  forall r : list AppStats.route,
    map fst (AppStats.load_routes r) = map AppStats.route_id r /\
    (forall x y s a b, In x r -> In y r ->
       AppStats.route_short_name x = Some s ->
       AppStats.route_short_name y = Some s ->
       AppStats.route_long_name x = Some a ->
       AppStats.route_long_name y = Some b -> a <> b ->
       AppStats.display_name r x
       = Some (String.append (String.append (String.append s " (") a) ")") /\
       AppStats.display_name r x <> AppStats.display_name r y) /\
    (forall x y, In x r -> In y r -> x <> y ->
       AppStats.route_short_name x = AppStats.route_short_name y ->
       AppStats.route_long_name x = None ->
       AppStats.display_name r x = None) /\
    (forall x, In x r -> NoDup r ->
       (forall y, In y r ->
          AppStats.route_short_name y = AppStats.route_short_name x -> y = x) ->
       AppStats.display_name r x = AppStats.route_short_name x).
Proof.
  intros r.
  assert (Hdup : forall x y, In x r -> In y r -> x <> y ->
            AppStats.route_short_name x = AppStats.route_short_name y ->
            AppStats.duplicated r x = true /\ AppStats.duplicated r y = true).
  { intros x y Hx Hy Hxy Hs. unfold AppStats.duplicated.
    split; apply Nat.ltb_lt; apply (two_members_length x y);
      try exact Hxy; apply filter_In; split; try assumption;
      apply id_eqb_spec; congruence. }
  split; [| split; [| split]].
  - unfold AppStats.load_routes. rewrite map_map. reflexivity.
  - intros x y s a b Hx Hy Hsx Hsy Hlx Hly Hab.
    assert (Hxy : x <> y) by (intros ->; congruence).
    destruct (Hdup x y Hx Hy Hxy) as [Hdx Hdy]; [congruence|].
    unfold AppStats.display_name.
    rewrite Hdx, Hdy, Hsx, Hsy, Hlx, Hly. cbn [AppStats.str_add].
    split; [reflexivity|].
    intros Heq. injection Heq as Heq. apply append_paren_inj in Heq.
    rewrite !append_assoc in Heq. apply append_inj_l, append_inj_l in Heq.
    exact (Hab Heq).
  - intros x y Hx Hy Hxy Hs Hl.
    destruct (Hdup x y Hx Hy Hxy Hs) as [Hdx _].
    unfold AppStats.display_name. rewrite Hdx, Hl.
    destruct (AppStats.route_short_name x); reflexivity.
  - intros x Hx Hnd Huniq. unfold AppStats.display_name.
    assert (Hd : AppStats.duplicated r x = false).
    { unfold AppStats.duplicated. apply Nat.ltb_ge.
      change 1%nat with (List.length [x]).
      apply NoDup_incl_length; [now apply NoDup_filter|].
      intros y Hy. apply filter_In in Hy. destruct Hy as [Hy Hs].
      apply id_eqb_spec in Hs. left. symmetry. now apply Huniq. }
    rewrite Hd. reflexivity.
Qed.

Lemma load_routes_disambiguates_witness :
  AppStats.display_name MoreSamples.routes (MoreSamples.bus "r2" "46A" None)
  = None.
Proof.
  apply (proj1 (proj2 (proj2 (load_routes_disambiguates MoreSamples.routes)))
           (MoreSamples.bus "r2" "46A" None)
           (MoreSamples.bus "r1" "46A"
              (Some "Phoenix Park - Dun Laoghaire"%string))).
  - right. left. reflexivity.
  - left. reflexivity.
  - discriminate.
  - reflexivity.
  - reflexivity.
Defined.


(** ** Nearest segment *)

Section NearestFacts.
Variable p : SegmentUtils.coord.

Let dist (s : SegmentUtils.segment) : Q := SegmentUtils.dist_sq p s.

Lemma fold_min_le_init (l : list SegmentUtils.segment) (m : Q) :
  fold_left (fun m s' => Qmin m (dist s')) l m <= m.
Proof.
  revert m. induction l as [|s r IH]; intros m; cbn; [lra|].
  eapply Qle_trans; [apply IH | apply Q.le_min_l].
Qed.

Lemma fold_min_le_each (l : list SegmentUtils.segment) (m : Q) s :
  In s l -> fold_left (fun m s' => Qmin m (dist s')) l m <= dist s.
Proof.
  revert m. induction l as [|x r IH]; intros m; cbn; [intros []|].
  intros [<- | Hin]; [| now apply IH].
  eapply Qle_trans; [apply fold_min_le_init | apply Q.le_min_r].
Qed.

Lemma fold_min_attained (l : list SegmentUtils.segment) (m : Q) :
  fold_left (fun m s' => Qmin m (dist s')) l m == m \/
  exists s, In s l /\ fold_left (fun m s' => Qmin m (dist s')) l m == dist s.
Proof.
  revert m. induction l as [|x r IH]; intros m; cbn; [left; reflexivity|].
  destruct (IH (Qmin m (dist x))) as [H | (s & Hs & H)].
  - destruct (Q.min_dec m (dist x)) as [E | E].
    + left. rewrite H. exact E.
    + right. exists x. split; [now left|]. rewrite H. exact E.
  - right. exists s. split; [now right | exact H].
Qed.

Lemma min_dist_sq_spec (segments : list SegmentUtils.segment) (d : Q) :
  SegmentUtils.min_dist_sq p segments = Some d ->
  (forall s, In s segments -> d <= dist s) /\
  exists s, In s segments /\ dist s == d.
Proof.
  destruct segments as [|s0 r]; cbn; [discriminate|].
  intros H. inversion H; subst d. clear H. split.
  - intros s [<- | Hin]; [apply fold_min_le_init | now apply fold_min_le_each].
  - destruct (fold_min_attained r (SegmentUtils.dist_sq p s0))
      as [H | (s & Hs & H)].
    + exists s0. split; [now left | symmetry; exact H].
    + exists s. split; [now right | symmetry; exact H].
Qed.

End NearestFacts.

(** The nearest join keeps every minute (at least one row each).  A row
    has no segment and no distance exactly when the segment table is
    empty; otherwise its segment is one of the table at the recorded
    distance, and no segment of the table is closer. *)
Theorem sjoin_nearest_attaches_a_closest_segment :
  forall (df : list AddStressScore.row)
         (segments : list SegmentUtils.segment),
    (forall r, In r df ->
       exists j, In j (SegmentUtils.sjoin_nearest df segments) /\
                 SegmentUtils.minute_row j = r) /\
    (forall j, In j (SegmentUtils.sjoin_nearest df segments) ->
       let pt := SegmentUtils.point_of (SegmentUtils.minute_row j) in
       In (SegmentUtils.minute_row j) df /\
       (SegmentUtils.dist_m_sq j = None <-> segments = []) /\
       (SegmentUtils.nearest_id j = None <-> segments = []) /\
       (forall d, SegmentUtils.dist_m_sq j = Some d ->
          (exists s, In s segments /\
             SegmentUtils.nearest_id j = Some (SegmentUtils.segment_id s) /\
             SegmentUtils.dist_sq pt s == d) /\
          (forall s, In s segments -> d <= SegmentUtils.dist_sq pt s))).
Proof.
  intros df segments. split.
  - intros r Hr.
    destruct (SegmentUtils.min_dist_sq (SegmentUtils.point_of r) segments)
      as [d|] eqn:Emin.
    + destruct (min_dist_sq_spec _ _ _ Emin) as (_ & s & Hs & Hd).
      exists {| SegmentUtils.minute_row := r;
                SegmentUtils.nearest_id := Some (SegmentUtils.segment_id s);
                SegmentUtils.dist_m_sq := Some d |}.
      split; [| reflexivity].
      unfold SegmentUtils.sjoin_nearest. apply in_flat_map.
      exists r. split; [exact Hr|]. rewrite Emin.
      apply in_map_iff. exists s. split; [reflexivity|].
      apply filter_In. split; [exact Hs | now apply Qeq_bool_iff].
    + exists {| SegmentUtils.minute_row := r;
                SegmentUtils.nearest_id := None;
                SegmentUtils.dist_m_sq := None |}.
      split; [| reflexivity].
      unfold SegmentUtils.sjoin_nearest. apply in_flat_map.
      exists r. split; [exact Hr|]. rewrite Emin. now left.
  - intros j Hj pt. subst pt.
    unfold SegmentUtils.sjoin_nearest in Hj. apply in_flat_map in Hj.
    destruct Hj as (r & Hr & Hj).
    destruct (SegmentUtils.min_dist_sq (SegmentUtils.point_of r) segments)
      as [d|] eqn:Emin.
    + apply in_map_iff in Hj. destruct Hj as (s & <- & Hs).
      apply filter_In in Hs. destruct Hs as [Hs Heq].
      apply Qeq_bool_iff in Heq.
      cbn [SegmentUtils.minute_row SegmentUtils.nearest_id
           SegmentUtils.dist_m_sq].
      assert (Hne : segments <> []) by (intros ->; destruct Hs).
      split; [exact Hr|].
      split; [split; [discriminate | intros H; contradiction]|].
      split; [split; [discriminate | intros H; contradiction]|].
      intros d' Hd'. inversion Hd'; subst d'.
      split; [exists s; auto|].
      apply (min_dist_sq_spec _ _ _ Emin).
    + destruct Hj as [<- | []].
      cbn [SegmentUtils.minute_row SegmentUtils.nearest_id
           SegmentUtils.dist_m_sq].
      assert (Hnil : segments = [])
        by (destruct segments; [reflexivity | discriminate]).
      split; [exact Hr|]. split; [tauto|]. split; [tauto|].
      intros d Hd. discriminate.
Qed.

Lemma sjoin_nearest_attaches_a_closest_segment_witness :
  exists j,
    In j (SegmentUtils.sjoin_nearest [Samples.far_minute] [Samples.street]) /\
    SegmentUtils.minute_row j = Samples.far_minute.
Proof.
  apply (proj1 (sjoin_nearest_attaches_a_closest_segment
                  [Samples.far_minute] [Samples.street])).
  left. reflexivity.
Defined.


(** ** Polygon aggregation: what the returned rows hold *)

Section AggregationFacts.
Variable geometry : Type.
Variable within : Q * Q -> geometry -> bool.

Lemma lookup_present {T : Type} (id : string) (g : string -> T)
    (ks : list string) :
  In id ks -> App.lookup id (map (fun k => (k, g k)) ks) = Some (g id).
Proof.
  induction ks as [|k r IH]; cbn; [intros []|].
  destruct (String.eqb k id) eqn:E.
  - apply String.eqb_eq in E. subst k. reflexivity.
  - intros [Heq | Hin]; [| now apply IH].
    apply String.eqb_neq in E. contradiction.
Qed.

Lemma lookup_per_group {T : Type} (f : list (option Q) -> T) (id : string)
    (join : list (option Q * option string)) :
  App.lookup id (App.per_group f join)
  = if in_dec string_dec id (App.group_ids join)
    then Some (f (App.group_rows id join)) else None.
Proof.
  unfold App.per_group.
  destruct (in_dec string_dec id (App.group_ids join)) as [Hin | Hno].
  - now apply (lookup_present id (fun k => f (App.group_rows k join))).
  - now apply (lookup_absent id (fun k => f (App.group_rows k join))).
Qed.

Lemma group_rows_nonempty (id : string)
    (join : list (option Q * option string)) :
  In id (App.group_ids join) -> App.group_rows id join <> [].
Proof.
  intros Hin Hnil. exact (group_rows_nil id join Hnil Hin).
Qed.

Lemma count_above_le_size (t : Q) (xs : list (option Q)) :
  0 <= App.count_above t xs <= App.size xs.
Proof.
  unfold App.count_above, App.size. split.
  - change 0 with (inject_Z 0). rewrite <- Zle_Qle. lia.
  - rewrite <- Zle_Qle. apply inj_le. apply filter_length_le.
Qed.

Lemma size_positive (xs : list (option Q)) : xs <> [] -> 1 <= App.size xs.
Proof.
  intros Hne. unfold App.size. change 1 with (inject_Z 1).
  rewrite <- Zle_Qle. destruct xs; [contradiction | cbn [List.length]; lia].
Qed.

Lemma fdiv_share (c n : Q) :
  0 <= c <= n -> 1 <= n ->
  exists s, App.fdiv c n = App.Fin s /\ 0 <= s <= 1.
Proof.
  intros Hc Hn. unfold App.fdiv.
  destruct (Qeq_bool n 0) eqn:E.
  - apply Qeq_bool_iff in E. lra.
  - exists (c / n). split; [reflexivity|].
    split; [apply Qle_shift_div_l; lra | apply Qle_shift_div_r; lra].
Qed.

(** Under the threshold metric every returned row has
    [0 <= count_hi <= n], a share [count_hi / n] in [0,1] (0.0 for a
    polygon without points, never NaN or infinite), and [value] equal to
    that share; the threshold used is 0.50 when none is given. *)
Theorem threshold_share_in_unit_interval :
  forall (eds : list (App.ed geometry))
         (days : list (list App.scored_point)) (metric : string)
         (thr : option Q) (rows : list (App.ed_row geometry)),
    metric <> "Avg"%string -> metric <> "Max"%string ->
    App.ed_stress_agg geometry within (Some eds) days metric thr
      = App.Return geometry rows ->
    map (App.poly geometry) rows = eds /\
    (forall r, In r rows ->
       0 <= App.count_hi geometry r <= App.n geometry r /\
       (exists s, App.share_hi geometry r = App.Fin s /\ 0 <= s <= 1) /\
       App.value geometry r = App.share_hi geometry r /\
       let t := match thr with None => 0.50 | Some x => x end in
       let pts := App.assigned geometry within eds days
                    (App.ed_id geometry (App.poly geometry r)) in
       (pts <> [] ->
        App.n geometry r = App.size pts /\
        App.count_hi geometry r = App.count_above t pts)).
Proof.
  intros eds days metric thr rows Ha Hm.
  apply String.eqb_neq in Ha, Hm.
  unfold App.ed_stress_agg, App.assigned. rewrite Ha, Hm.
  set (t := match thr with None => 0.50 | Some x => x end).
  destruct (App.located (List.concat days)) as [|p0 ps] eqn:Eloc.
  { intros H. inversion H; subst rows. split.
    - rewrite map_map. cbn. apply map_id.
    - intros r Hr. apply in_map_iff in Hr. destruct Hr as (e & <- & _).
      cbn. split; [split; discriminate|].
      split; [exists 0.0; split; [reflexivity | split; discriminate]|].
      split; [reflexivity|]. intros H0. contradiction. }
  set (join := App.sjoin geometry within (p0 :: ps) eds).
  unfold App.groupby_apply.
  destruct (App.group_ids join) as [|i0 is_] eqn:Eg; [discriminate|].
  intros H. inversion H; subst rows. clear H. split.
  { rewrite map_map. cbn. apply map_id. }
  intros r Hr. apply in_map_iff in Hr. destruct Hr as (e & <- & _).
  cbn [App.poly App.count_hi App.n App.share_hi App.value].
  set (id := App.ed_id geometry e).
  rewrite !lookup_per_group.
  destruct (in_dec string_dec id (App.group_ids join)) as [Hin | Hno].
  - cbn [Cell.fillna].
    pose proof (group_rows_nonempty id join Hin) as Hne.
    pose proof (count_above_le_size t (App.group_rows id join)) as Hc.
    pose proof (size_positive _ Hne) as Hn.
    destruct (fdiv_share _ _ Hc Hn) as (s & Hs & Hsb).
    split; [exact Hc|]. rewrite Hs. cbn [App.fval_fillna].
    split; [exists s; auto|]. split; [reflexivity|].
    intros _. split; reflexivity.
  - cbn [Cell.fillna].
    split; [split; discriminate|].
    split; [exists 0.0; split; [reflexivity | split; discriminate]|].
    split; [reflexivity|].
    intros Hne. exfalso. apply Hno. apply in_group_ids.
    destruct (App.group_rows id join) as [|x xs] eqn:Er; [contradiction|].
    unfold App.group_rows in Er.
    destruct (filter _ join) as [|[y o] l] eqn:Ef; [discriminate|].
    assert (Hy : In (y, o) (filter
                  (fun j : option Q * option string =>
                     match snd j with
                     | Some i => String.eqb i id
                     | None => false
                     end) join))
      by (rewrite Ef; now left).
    apply filter_In in Hy. destruct Hy as [Hy Ho]. cbn in Ho.
    destruct o as [i|]; [| discriminate].
    apply String.eqb_eq in Ho. subst i. exists y. exact Hy.
Qed.

End AggregationFacts.

Lemma threshold_share_in_unit_interval_witness :
  exists rows,
    App.ed_stress_agg Samples.box Samples.in_box
      (Some [Samples.city_ed; Samples.harbour_ed]) [Samples.day_city]
      "%>threshold" None = App.Return Samples.box rows /\
    map (App.poly Samples.box) rows = [Samples.city_ed; Samples.harbour_ed] /\
    forall r, In r rows ->
      exists s, App.share_hi Samples.box r = App.Fin s /\ 0 <= s <= 1.
Proof.
  pose (rows :=
          match App.ed_stress_agg Samples.box Samples.in_box
                  (Some [Samples.city_ed; Samples.harbour_ed])
                  [Samples.day_city] "%>threshold" None with
          | App.Return _ r => r
          | _ => []
          end).
  assert (Hrun : App.ed_stress_agg Samples.box Samples.in_box
                   (Some [Samples.city_ed; Samples.harbour_ed])
                   [Samples.day_city] "%>threshold" None
                 = App.Return Samples.box rows)
    by (vm_compute; reflexivity).
  exists rows. split; [exact Hrun|].
  destruct (threshold_share_in_unit_interval Samples.box Samples.in_box
              [Samples.city_ed; Samples.harbour_ed] [Samples.day_city]
              "%>threshold"%string None rows) as [Hmap Hrows].
  - discriminate.
  - discriminate.
  - exact Hrun.
  - split; [exact Hmap|]. intros r Hr.
    destruct (Hrows r Hr) as (_ & Hs & _). exact Hs.
Defined.

Lemma sum_bounds (a b : Q) (r : list Q) (acc : Q) :
  (forall x, In x r -> a <= x <= b) ->
  a * inject_Z (Z.of_nat (List.length r)) + acc <= fold_left Qplus r acc /\
  fold_left Qplus r acc <= b * inject_Z (Z.of_nat (List.length r)) + acc.
Proof.
  revert acc. induction r as [|x r IH]; intros acc Hall.
  - cbn. change (inject_Z 0) with 0. split; lra.
  - cbn [fold_left List.length]. rewrite Nat2Z.inj_succ.
    unfold Z.succ. rewrite inject_Z_plus. change (inject_Z 1) with 1.
    destruct (IH (acc + x) (fun y Hy => Hall y (or_intror Hy))) as [H1 H2].
    pose proof (Hall x (or_introl eq_refl)) as Hx.
    set (n := inject_Z (Z.of_nat (List.length r))) in *. clearbody n.
    set (s := fold_left Qplus r (acc + x)) in *. clearbody s.
    split; lra.
Qed.

Lemma mean_bounds (a b m : Q) (xs : list (option Q)) :
  (forall x, In (Some x) xs -> a <= x <= b) ->
  App.mean xs = Some m -> a <= m <= b.
Proof.
  intros Hall. unfold App.mean.
  destruct (Frame.dropna xs) as [|v r] eqn:Ed; [discriminate|].
  intros H. inversion H; subst m. clear H.
  assert (Hin : forall x, In x (v :: r) -> a <= x <= b).
  { intros x Hx. apply Hall. apply in_dropna. rewrite Ed. exact Hx. }
  destruct (sum_bounds a b r v (fun x Hx => Hin x (or_intror Hx)))
    as [H1 H2].
  pose proof (Hin v (or_introl eq_refl)) as Hv.
  change (Z.pos (Pos.of_succ_nat (List.length r)))
    with (Z.of_nat (S (List.length r))).
  rewrite Nat2Z.inj_succ.
  unfold Z.succ. rewrite inject_Z_plus. change (inject_Z 1) with 1.
  assert (Hn : 0 <= inject_Z (Z.of_nat (List.length r)))
    by (change 0 with (inject_Z 0); rewrite <- Zle_Qle; lia).
  set (n := inject_Z (Z.of_nat (List.length r))) in *. clearbody n.
  set (s := fold_left Qplus r v) in *. clearbody s.
  split; [apply Qle_shift_div_l | apply Qle_shift_div_r]; lra.
Qed.

Lemma fold_max_bounds (a b : Q) (r : list Q) (acc : Q) :
  a <= acc <= b -> (forall x, In x r -> a <= x <= b) ->
  a <= fold_left Qmax r acc <= b.
Proof.
  revert acc. induction r as [|x r IH]; intros acc Hacc Hall; [exact Hacc|].
  cbn [fold_left]. apply IH.
  - pose proof (Hall x (or_introl eq_refl)) as Hx.
    destruct (Q.max_spec acc x) as [[_ ->] | [_ ->]]; assumption.
  - intros y Hy. apply Hall. now right.
Qed.

Lemma max_bounds (a b m : Q) (xs : list (option Q)) :
  (forall x, In (Some x) xs -> a <= x <= b) ->
  App.max xs = Some m -> a <= m <= b.
Proof.
  intros Hall. unfold App.max.
  destruct (Frame.dropna xs) as [|v r] eqn:Ed; [discriminate|].
  intros H. inversion H; subst m. clear H.
  assert (Hin : forall x, In x (v :: r) -> a <= x <= b).
  { intros x Hx. apply Hall. apply in_dropna. rewrite Ed. exact Hx. }
  apply fold_max_bounds; [apply Hin; now left|].
  intros x Hx. apply Hin. now right.
Qed.

Section AverageFacts.
Variable geometry : Type.
Variable within : Q * Q -> geometry -> bool.

(** Under "Avg" and "Max" the aggregation always returns a table, one
    row per polygon in order.  In each row [n] is the number of points
    assigned to the polygon, [count_hi] is 0 and [share_hi] 0.0, and
    [value] is a number (never NaN) that stays within any range holding
    0 and the polygon's non-null scores: within [0,1] for scores in
    [0,1]. *)
Theorem average_and_maximum_rows :
  forall (eds : list (App.ed geometry))
         (days : list (list App.scored_point)) (metric : string)
         (thr : option Q),
    metric = "Avg"%string \/ metric = "Max"%string ->
    exists rows,
      App.ed_stress_agg geometry within (Some eds) days metric thr
        = App.Return geometry rows /\
      map (App.poly geometry) rows = eds /\
      forall r, In r rows ->
        let pts := App.assigned geometry within eds days
                     (App.ed_id geometry (App.poly geometry r)) in
        App.n geometry r = App.size pts /\
        App.count_hi geometry r = 0 /\
        App.share_hi geometry r = App.Fin 0.0 /\
        exists v, App.value geometry r = App.Fin v /\
          forall a b, a <= 0 <= b ->
            (forall x, In (Some x) pts -> a <= x <= b) -> a <= v <= b.
Proof.
  intros eds days metric thr Hmetric.
  unfold App.ed_stress_agg, App.assigned.
  destruct (App.located (List.concat days)) as [|p0 ps] eqn:Eloc.
  { eexists. split; [reflexivity|]. split.
    - rewrite map_map. cbn. apply map_id.
    - intros r Hr. apply in_map_iff in Hr. destruct Hr as (e & <- & _).
      cbn. split; [reflexivity|]. split; [reflexivity|].
      split; [reflexivity|]. exists 0.0. split; [reflexivity|].
      intros a b [Ha Hb] _. split; lra. }
  set (join := App.sjoin geometry within (p0 :: ps) eds).
  assert (Hrow : forall (f : list (option Q) -> option Q) (e : App.ed geometry),
    (forall a b m xs, (forall x, In (Some x) xs -> a <= x <= b) ->
                      f xs = Some m -> a <= m <= b) ->
    let r := {| App.poly := e;
                App.value :=
                  App.Fin (Cell.fillna 0.0
                    (App.join_opt
                       (App.lookup (App.ed_id geometry e)
                                   (App.per_group f join))));
                App.n := Cell.fillna 0
                    (App.lookup (App.ed_id geometry e)
                                (App.per_group App.size join));
                App.count_hi := 0; App.share_hi := App.Fin 0.0 |} in
    App.n geometry r = App.size (App.group_rows (App.ed_id geometry e) join) /\
    App.count_hi geometry r = 0 /\
    App.share_hi geometry r = App.Fin 0.0 /\
    exists v, App.value geometry r = App.Fin v /\
      forall a b, a <= 0 <= b ->
        (forall x, In (Some x) (App.group_rows (App.ed_id geometry e) join) ->
                   a <= x <= b) -> a <= v <= b).
  { intros f e Hf r. subst r.
    cbn [App.n App.count_hi App.share_hi App.value].
    set (id := App.ed_id geometry e).
    rewrite !lookup_per_group.
    destruct (in_dec string_dec id (App.group_ids join)) as [Hin | Hno].
    - cbn [Cell.fillna App.join_opt].
      split; [reflexivity|]. split; [reflexivity|]. split; [reflexivity|].
      eexists. split; [reflexivity|]. intros a b [Ha Hb] Hall.
      destruct (f (App.group_rows id join)) as [m|] eqn:Em; cbn.
      + eapply Hf; eauto.
      + split; lra.
    - cbn [Cell.fillna App.join_opt].
      assert (Hnil : App.group_rows id join = []).
      { destruct (App.group_rows id join) as [|x xs] eqn:Er; [reflexivity|].
        exfalso. apply Hno. apply in_group_ids.
        unfold App.group_rows in Er.
        destruct (filter _ join) as [|[y o] l] eqn:Ef; [discriminate|].
        assert (Hy : In (y, o) (filter
                      (fun j : option Q * option string =>
                         match snd j with
                         | Some i => String.eqb i id
                         | None => false
                         end) join))
          by (rewrite Ef; now left).
        apply filter_In in Hy. destruct Hy as [Hy Ho]. cbn in Ho.
        destruct o as [i|]; [| discriminate].
        apply String.eqb_eq in Ho. subst i. exists y. exact Hy. }
      rewrite Hnil.
      split; [reflexivity|]. split; [reflexivity|]. split; [reflexivity|].
      eexists. split; [reflexivity|]. intros a b [Ha Hb] _.
      cbn. split; lra. }
  destruct Hmetric as [-> | ->]; cbn [String.eqb Ascii.eqb Bool.eqb].
  - eexists. split; [reflexivity|]. split.
    + rewrite map_map. cbn. apply map_id.
    + intros r Hr. apply in_map_iff in Hr. destruct Hr as (e & <- & _).
      apply (Hrow App.mean e). intros a b m xs. apply mean_bounds.
  - eexists. split; [reflexivity|]. split.
    + rewrite map_map. cbn. apply map_id.
    + intros r Hr. apply in_map_iff in Hr. destruct Hr as (e & <- & _).
      apply (Hrow App.max e). intros a b m xs. apply max_bounds.
Qed.

End AverageFacts.

Lemma average_and_maximum_rows_witness :
  exists rows,
    App.ed_stress_agg Samples.box Samples.in_box
      (Some [Samples.city_ed; Samples.harbour_ed]) [Samples.day_city]
      "Avg" None = App.Return Samples.box rows /\
    map (App.poly Samples.box) rows = [Samples.city_ed; Samples.harbour_ed] /\
    forall r, In r rows ->
      App.count_hi Samples.box r = 0 /\
      exists v, App.value Samples.box r = App.Fin v /\ 0 <= v <= 1.
Proof.
  destruct (average_and_maximum_rows Samples.box Samples.in_box
              [Samples.city_ed; Samples.harbour_ed] [Samples.day_city]
              "Avg"%string None (or_introl eq_refl))
    as (rows & Hrun & Hmap & Hrows).
  exists rows. split; [exact Hrun|]. split; [exact Hmap|].
  intros r Hr. pose proof (Hrows r Hr) as H. cbv zeta in H.
  destruct H as (_ & Hc & _ & v & Hv & Hb).
  split; [exact Hc|]. exists v. split; [exact Hv|].
  assert (Hp : In (App.poly Samples.box r)
                  [Samples.city_ed; Samples.harbour_ed])
    by (rewrite <- Hmap; apply in_map; exact Hr).
  apply Hb; [split; lra|]. intros x Hx.
  destruct Hp as [Hp | [Hp | []]]; rewrite <- Hp in Hx; vm_compute in Hx.
  - destruct Hx as [Hx | [Hx | []]]; injection Hx as <-; split; lra.
  - destruct Hx.
Defined.

(** ** Corridor statistics *)

(** Every row of the corridor statistics is a segment of the table to
    which at least one minute was snapped; its share above the threshold
    is a number in [0,1]; and its mean score, when there is one, lies in
    [0,1] as soon as the non-null scores of the minutes do. *)
Theorem corridor_stats_only_snapped_segments :
  forall (df : list AddStressScore.row) (thr : Q)
         (segs : list SegmentUtils.segment) (st : Corridor.stat),
    In st (Corridor.corridor_stats_filtered df thr segs) ->
    In (Corridor.seg st) segs /\
    (exists j, In j (SegmentUtils.snap_minutes df segs) /\
       SegmentUtils.nearest_id j
         = Some (SegmentUtils.segment_id (Corridor.seg st))) /\
    (exists s, Corridor.pct_hi st = App.Fin s /\ 0 <= s <= 1) /\
    ((forall r y, In r df -> AddStressScore.row_stress r = Some y ->
                  0 <= y <= 1) ->
     forall m, Corridor.avg_stress st = Some m -> 0 <= m <= 1).
Proof.
  intros df thr segs st Hst.
  unfold Corridor.corridor_stats_filtered in Hst.
  set (snapped := SegmentUtils.snap_minutes df segs) in *.
  apply in_flat_map in Hst. destruct Hst as (id & Hid & Hst).
  apply in_map_iff in Hst. destruct Hst as (s & <- & Hs).
  apply filter_In in Hs. destruct Hs as [Hs Heq].
  apply String.eqb_eq in Heq. subst id.
  cbn [Corridor.seg Corridor.pct_hi Corridor.avg_stress].
  unfold Corridor.segment_ids in Hid.
  apply in_sort_by in Hid.
  apply (proj1 (in_uniq String.eqb String.eqb_eq _ _)) in Hid.
  apply in_flat_map in Hid. destruct Hid as (j & Hj & Hjid).
  destruct (SegmentUtils.nearest_id j) as [i|] eqn:Ei; [| destruct Hjid].
  destruct Hjid as [<- | []].
  set (xs := Corridor.scores i snapped).
  assert (Hne : xs <> []).
  { unfold xs, Corridor.scores. intros Hnil. apply map_eq_nil in Hnil.
    assert (Hin : In j (filter
              (fun j => match SegmentUtils.nearest_id j with
                        | Some i0 => String.eqb i0 i
                        | None => false
                        end) snapped)).
    { apply filter_In. split; [exact Hj|]. rewrite Ei.
      apply String.eqb_refl. }
    rewrite Hnil in Hin. exact Hin. }
  split; [exact Hs|]. split; [exists j; auto|]. split.
  - apply fdiv_share; [apply count_above_le_size | now apply size_positive].
  - intros Hall m Hm. apply (mean_bounds 0 1 m xs); [| exact Hm].
    intros x Hx. unfold xs, Corridor.scores in Hx. apply in_map_iff in Hx.
    destruct Hx as (k & Hk & Hkin). apply filter_In in Hkin.
    destruct Hkin as [Hkin _].
    apply snap_minutes_keeps in Hkin. destruct Hkin as [Hkin _].
    unfold SegmentUtils.sjoin_nearest in Hkin. apply in_flat_map in Hkin.
    destruct Hkin as (r & Hr & Hkr).
    assert (Hrow : SegmentUtils.minute_row k = r).
    { destruct (SegmentUtils.min_dist_sq _ segs).
      - apply in_map_iff in Hkr. destruct Hkr as (z & <- & _). reflexivity.
      - destruct Hkr as [<- | []]. reflexivity. }
    rewrite Hrow in Hk. exact (Hall r x Hr Hk).
Qed.

Lemma corridor_stats_only_snapped_segments_witness :
  exists st s,
    In st (Corridor.corridor_stats_filtered [Samples.far_minute] 0.30
             [Samples.street]) /\
    Corridor.pct_hi st = App.Fin s /\ 0 <= s <= 1.
Proof.
  pose (st := hd {| Corridor.seg := Samples.street;
                    Corridor.avg_stress := None;
                    Corridor.pct_hi := App.NaN |}
                 (Corridor.corridor_stats_filtered [Samples.far_minute] 0.30
                    [Samples.street])).
  assert (Hin : In st (Corridor.corridor_stats_filtered [Samples.far_minute]
                         0.30 [Samples.street]))
    by (vm_compute; left; reflexivity).
  destruct (corridor_stats_only_snapped_segments _ _ _ st Hin)
    as (_ & _ & (s & Hs & Hb) & _).
  exists st, s. split; [exact Hin|]. split; [exact Hs | exact Hb].
Defined.


(** ** Colours of the maps *)

Lemma below_true (s c : Q) : s < c -> Colour.below (Some s) c = true.
Proof.
  intros H. unfold Colour.below, Cell.ltb.
  destruct (Qle_bool c s) eqn:E; [apply Qle_bool_iff in E; lra | reflexivity].
Qed.

Lemma below_false (s c : Q) : c <= s -> Colour.below (Some s) c = false.
Proof.
  intros H. unfold Colour.below, Cell.ltb.
  apply Qle_bool_iff in H. now rewrite H.
Qed.

(** Decide one bound of the colour scale for the score [s]. *)
Ltac split_at s c :=
  let H := fresh "H" in
  destruct (Qlt_le_dec s c) as [H | H];
  [ rewrite (below_true s c H) | rewrite (below_false s c H) ].

(** The nine bands of the scale. *)
Lemma stress_rgb_cases (s : Q) :
  (s < 0.35 /\ Colour.stress_rgb (Some s) = [200; 255; 0; 170]%Z) \/
  (0.35 <= s < 0.4 /\ Colour.stress_rgb (Some s) = [255; 255; 0; 180]%Z) \/
  (0.4 <= s < 0.45 /\ Colour.stress_rgb (Some s) = [255; 200; 0; 190]%Z) \/
  (0.45 <= s < 0.5 /\ Colour.stress_rgb (Some s) = [255; 140; 0; 200]%Z) \/
  (0.5 <= s < 0.55 /\ Colour.stress_rgb (Some s) = [255; 80; 0; 220]%Z) \/
  (0.55 <= s < 0.6 /\ Colour.stress_rgb (Some s) = [255; 0; 0; 240]%Z) \/
  (0.6 <= s < 0.8 /\ Colour.stress_rgb (Some s) = [180; 0; 0; 255]%Z) \/
  (0.8 <= s /\ Colour.stress_rgb (Some s) = [120; 0; 0; 255]%Z).
Proof.
  unfold Colour.stress_rgb.
  split_at s 0.35; [left; split; [assumption | reflexivity]|]. right.
  split_at s 0.4; [left; split; [split; assumption | reflexivity]|]. right.
  split_at s 0.45; [left; split; [split; assumption | reflexivity]|]. right.
  split_at s 0.5; [left; split; [split; assumption | reflexivity]|]. right.
  split_at s 0.55; [left; split; [split; assumption | reflexivity]|]. right.
  split_at s 0.6; [left; split; [split; assumption | reflexivity]|]. right.
  split_at s 0.7; [left; split; [split; [assumption | lra] | reflexivity]|].
  split_at s 0.8; [left; split; [split; [lra | assumption] | reflexivity]|].
  right. split; [assumption | reflexivity].
Qed.

(** Use the band of each score in the goal. *)
Ltac bands s :=
  destruct (stress_rgb_cases s)
    as [[? ->] | [[? ->] | [[? ->] | [[? ->] | [[? ->] | [[? ->]
        | [[? ->] | [? ->]]]]]]]].

(** [stress_rgb] always gives four channels between 0 and 255, with no
    blue.  As the score grows the opacity never decreases and the green
    never increases.  The bounds .7 and .8 give the same colour, so all
    scores from .6 up to .8 are drawn alike; and a null score is drawn
    like the scores of .8 and more. *)
Theorem stress_rgb_bands :
  (forall s : option Q,
     exists r g b a, Colour.stress_rgb s = [r; g; b; a] /\
       (0 <= r <= 255)%Z /\ (0 <= g <= 255)%Z /\ b = 0%Z /\
       (170 <= a <= 255)%Z) /\
  (forall s1 s2 : Q, s1 <= s2 ->
     (nth 3 (Colour.stress_rgb (Some s1)) 0 <=
      nth 3 (Colour.stress_rgb (Some s2)) 0)%Z /\
     (nth 1 (Colour.stress_rgb (Some s2)) 0 <=
      nth 1 (Colour.stress_rgb (Some s1)) 0)%Z) /\
  (forall s : Q, 0.6 <= s -> s < 0.8 ->
     Colour.stress_rgb (Some s) = [180; 0; 0; 255]%Z) /\
  (forall s : Q, 0.8 <= s ->
     Colour.stress_rgb (Some s) = Colour.stress_rgb None) /\
  Colour.stress_rgb None = [120; 0; 0; 255]%Z.
Proof.
  split; [| split; [| split; [| split]]].
  - intros [s|]; [bands s |];
      do 4 eexists; (split; [reflexivity | lia]).
  - intros s1 s2 Hs. bands s1; bands s2;
      first [ solve [cbn [nth]; lia] | exfalso; lra ].
  - intros s H1 H2. bands s; first [ reflexivity | exfalso; lra ].
  - intros s Hs. bands s; first [ reflexivity | exfalso; lra ].
  - reflexivity.
Qed.

Lemma stress_rgb_bands_witness :
  Colour.stress_rgb (Some 0.65) = [180; 0; 0; 255]%Z /\
  Colour.stress_rgb (Some 0.75) = [180; 0; 0; 255]%Z.
Proof.
  split; apply (proj1 (proj2 (proj2 stress_rgb_bands)));
    vm_compute; first [reflexivity | discriminate].
Defined.

(** [color_from_count] scaled to a count [q95 >= 1]: the neutral colour
    for no count, never the neutral colour for a positive one, and the
    darkest colour from [q95] on. *)
Theorem color_from_count_scale :
  forall q95 c : Q,
    1 <= q95 ->
    (c <= 0 -> Colour.color_from_count q95 c = [180; 210; 180; 140]%Z) /\
    (0 < c ->
       exists s, 0.3 < s <= 1 /\
         Colour.color_from_count q95 c = Colour.stress_rgb (Some s)) /\
    (q95 <= c -> Colour.color_from_count q95 c = [120; 0; 0; 255]%Z).
Proof.
  intros q95 c Hq.
  assert (Hx : 0 < c -> 0 < c / q95)
    by (intros Hc; apply Qlt_shift_div_l; lra).
  assert (Hy : q95 <= c -> 1 <= c / q95)
    by (intros Hc; apply Qle_shift_div_l; lra).
  unfold Colour.color_from_count.
  set (x := c / q95) in *. clearbody x.
  split; [| split].
  - intros Hc. case_cmp; [reflexivity | lra].
  - intros Hc. specialize (Hx Hc). case_cmp; [lra|].
    eexists. split; [| reflexivity]. case_minmax. lra.
  - intros Hc. assert (0 < c) by lra. specialize (Hy Hc).
    unfold Cell.leb. destruct (Qle_bool c 0) eqn:E;
      [apply Qle_bool_iff in E; lra|].
    cbv zeta. case_minmax.
    assert (Hone : m == 1) by lra.
    bands (0.3 + 0.7 * m); first [ reflexivity | exfalso; lra ].
Qed.

Lemma color_from_count_scale_witness :
  Colour.color_from_count 4 9 = [120; 0; 0; 255]%Z.
Proof.
  apply (proj2 (proj2 (color_from_count_scale 4 9 ltac:(discriminate))));
    discriminate.
Defined.

(** ** The vanish baseline *)

Lemma last_n_incl {A : Type} (n : nat) (l : list A) :
  List.length (Baseline.last_n n l)
  = (if (n =? 0)%nat then List.length l else Nat.min n (List.length l)) /\
  (l <> [] -> Baseline.last_n n l <> []) /\
  exists pre, l = pre ++ Baseline.last_n n l.
Proof.
  unfold Baseline.last_n. destruct (Nat.eqb_spec n 0) as [-> | Hn].
  - split; [reflexivity|]. split; [auto|]. now exists [].
  - rewrite length_skipn. split; [lia|]. split.
    + intros Hl Hnil.
      assert (Hlen : List.length (skipn (List.length l - n) l) = 0%nat)
        by now rewrite Hnil.
      rewrite length_skipn in Hlen. destruct l; [congruence|].
      cbn [List.length] in Hlen. lia.
    + exists (firstn (List.length l - n) l). symmetry. apply firstn_skipn.
Qed.

(** Over at least one day the baseline has exactly the rows of the last
    [n] days, in order: [min n (number of days)] rows, and all of them
    when [n = 0].  The rate of a day with rows
    is the rate of the day's KPI, a number in [0, 1000]; the rate of a day
    without rows is NaN, where the KPI says 0.0.  Over no day at all there
    is no column to divide and the call raises. *)
Theorem vanish_baseline_rates :
  (forall n, Baseline.vanish_baseline n [] = Baseline.RaiseKeyError) /\
  (forall (n : nat) (days : list AppStats.kpi_frame),
     days <> [] ->
     exists rows,
       Baseline.vanish_baseline n days = Baseline.Base rows /\
       rows <> [] /\
       List.length rows
       = (if (n =? 0)%nat then List.length days
          else Nat.min n (List.length days)) /\
       (exists pre, map Baseline.row_of days
                    = map Baseline.row_of pre ++ rows) /\
       forall b, In b rows ->
         exists dd, In dd days /\ b = Baseline.row_of dd /\
           (Baseline.anchors b <= Baseline.vm b)%nat /\
           (AppStats.rows dd = [] ->
              Baseline.rate b = App.NaN /\
              snd (AppStats.vanish_rate dd) = 0.0) /\
           (AppStats.rows dd <> [] ->
              Baseline.rate b = App.Fin (snd (AppStats.vanish_rate dd)) /\
              0 <= snd (AppStats.vanish_rate dd) <= 1000)).
Proof.
  split.
  - intros n. unfold Baseline.vanish_baseline, Baseline.last_n.
    destruct (n =? 0)%nat; [reflexivity|]. now rewrite skipn_nil.
  - intros n days Hdays.
    destruct (last_n_incl n days) as (Hlen & Hne & pre & Hpre).
    specialize (Hne Hdays).
    unfold Baseline.vanish_baseline.
    destruct (Baseline.last_n n days) as [|d0 ds] eqn:E; [congruence|].
    eexists. split; [reflexivity|]. split; [discriminate|].
    rewrite length_map. split; [exact Hlen|]. split.
    { exists pre. rewrite Hpre at 1. apply map_app. }
    intros b Hb. apply in_map_iff in Hb. destruct Hb as (dd & <- & Hdd).
    exists dd. split; [rewrite Hpre; apply in_or_app; now right|].
    split; [reflexivity|].
    assert (Hcount : (AppStats._count_anchor_trips dd
                      <= List.length (AppStats.rows dd))%nat).
    { unfold AppStats._count_anchor_trips.
      pose proof (filter_length_le AppStats.vanish_anchor (AppStats.rows dd)).
      destruct (AppStats.has_vehicle_id dd && AppStats.has_trip_id dd).
      - etransitivity; [apply length_uniq_le|]. now rewrite length_map.
      - destruct (AppStats.has_trip_id dd); [| lia].
        etransitivity; [apply length_uniq_le|].
        etransitivity; [apply length_present_le|]. now rewrite length_map. }
    split; [exact Hcount|]. split.
    + intros Hnil. unfold Baseline.row_of, AppStats.vanish_rate.
      cbn [Baseline.rate snd].
      assert (Hz : AppStats._count_anchor_trips dd = 0%nat)
        by (rewrite Hnil in Hcount; cbn in Hcount; lia).
      rewrite Hz, Hnil. split; reflexivity.
    + intros Hrows. unfold Baseline.row_of, AppStats.vanish_rate.
      cbn [Baseline.rate snd].
      set (a := AppStats._count_anchor_trips dd) in *.
      set (t := List.length (AppStats.rows dd)) in *.
      assert (Ht0 : t <> 0%nat)
        by (unfold t; destruct (AppStats.rows dd); [congruence | discriminate]).
      destruct (Nat.eqb_spec t 0) as [E0 | _]; [contradiction|].
      assert (Ha : 0 <= inject_Z (Z.of_nat a))
        by (change 0 with (inject_Z 0); rewrite <- Zle_Qle; lia).
      assert (Hat : inject_Z (Z.of_nat a) <= inject_Z (Z.of_nat t))
        by (rewrite <- Zle_Qle; lia).
      assert (Ht : 1 <= inject_Z (Z.of_nat t))
        by (change 1 with (inject_Z 1); rewrite <- Zle_Qle; lia).
      set (qa := inject_Z (Z.of_nat a)) in *.
      set (qt := inject_Z (Z.of_nat t)) in *. clearbody qa qt.
      split.
      * unfold App.fdiv. destruct (Qeq_bool qt 0) eqn:Eq;
          [apply Qeq_bool_iff in Eq; lra | reflexivity].
      * assert (Hr : 0 <= qa / qt <= 1).
        { split; [apply Qle_shift_div_l; lra | apply Qle_shift_div_r; lra]. }
        set (q := qa / qt) in *. clearbody q. lra.
Qed.

Lemma vanish_baseline_rates_witness :
  exists rows,
    Baseline.vanish_baseline 2 MoreSamples.week = Baseline.Base rows /\
    List.length rows = 2%nat /\
    map Baseline.rate rows = [App.NaN; App.Fin (0 / 1 * 1000)].
Proof.
  destruct (proj2 vanish_baseline_rates 2%nat MoreSamples.week
              ltac:(discriminate)) as (rows & Hrun & _ & Hlen & _).
  exists rows. split; [exact Hrun|]. split; [exact Hlen|].
  vm_compute in Hrun. injection Hrun as <-. vm_compute. reflexivity.
Defined.

(** ** Points joined to their polygons *)

Section PointFacts.
Variable geometry : Type.
Variable within : Q * Q -> geometry -> bool.

Lemma sjoin_inner_In (df : list (JoinPointsToEd.minute))
    (polys : list (string * geometry)) r id :
  In (r, id) (JoinPointsToEd.sjoin_inner geometry within df polys) <->
  In r df /\ exists g, In (id, g) polys /\
    exists la lo, JoinPointsToEd.lat r = Some la /\
      JoinPointsToEd.lon r = Some lo /\ within (lo, la) g = true.
Proof.
  unfold JoinPointsToEd.sjoin_inner. rewrite in_flat_map. split.
  - intros (r' & Hr' & Hin). apply in_map_iff in Hin.
    destruct Hin as ([id' g] & Heq & Hp). inversion Heq; subst r' id'.
    split; [exact Hr'|]. exists g. unfold JoinPointsToEd.containing in Hp.
    destruct (JoinPointsToEd.lat r) as [la|]; [| destruct Hp].
    destruct (JoinPointsToEd.lon r) as [lo|]; [| destruct Hp].
    apply filter_In in Hp. destruct Hp as [Hp Hw]. split; [exact Hp|].
    exists la, lo. auto.
  - intros (Hr & g & Hp & la & lo & Hla & Hlo & Hw).
    exists r. split; [exact Hr|]. apply in_map_iff. exists (id, g).
    split; [reflexivity|]. unfold JoinPointsToEd.containing.
    rewrite Hla, Hlo. apply filter_In. auto.
Qed.

(** The join to the polygons is skipped when its output exists and
    [--overwrite] is not given, and exits without its input.  Otherwise it
    writes, for every row and every polygon the row's point lies within,
    the row with the polygon's identifier, and nothing else: a row
    without coordinates or outside every polygon is dropped, and a row
    within [k] polygons is written [k] times.  When no point lies within
    two polygons, the rows written are at most the rows read. *)
Theorem join_points_keeps_rows_within_polygons :
  forall (overwrite : bool) (df : list JoinPointsToEd.minute)
         (polys : list (string * geometry)),
    JoinPointsToEd.main geometry within true false true df polys = Skipped /\
    JoinPointsToEd.main geometry within false overwrite false df polys
      = Exit "missing input" /\
    exists out,
      JoinPointsToEd.main geometry within false overwrite true df polys
        = Wrote out /\
      (forall r id, In (r, id) out <->
         In r df /\ exists g, In (id, g) polys /\
           exists la lo, JoinPointsToEd.lat r = Some la /\
             JoinPointsToEd.lon r = Some lo /\ within (lo, la) g = true) /\
      (forall r, In r df ->
         JoinPointsToEd.lat r = None \/ JoinPointsToEd.lon r = None ->
         forall id, ~ In (r, id) out) /\
      (forall r,
         List.length (JoinPointsToEd.sjoin_inner geometry within [r] polys)
         = List.length (JoinPointsToEd.containing geometry within polys r)) /\
      ((forall r, In r df ->
          (List.length (JoinPointsToEd.containing geometry within polys r)
           <= 1)%nat) ->
       (List.length out <= List.length df)%nat).
Proof.
  intros overwrite df polys. split; [reflexivity|].
  split; [destruct overwrite; reflexivity|].
  exists (JoinPointsToEd.sjoin_inner geometry within df polys).
  split; [destruct overwrite; reflexivity|].
  split; [intros r id; apply sjoin_inner_In|]. split; [| split].
  - intros r Hr Hnull id Hin. apply sjoin_inner_In in Hin.
    destruct Hin as (_ & g & _ & la & lo & Hla & Hlo & _).
    destruct Hnull; congruence.
  - intros r. unfold JoinPointsToEd.sjoin_inner. cbn [flat_map].
    now rewrite app_nil_r, length_map.
  - intros Hone. unfold JoinPointsToEd.sjoin_inner.
    induction df as [|r rest IH]; [cbn; lia|].
    cbn [flat_map]. rewrite length_app, length_map. cbn [List.length].
    pose proof (Hone r (or_introl eq_refl)).
    assert (List.length
              (flat_map (fun r0 => map (fun p => (r0, fst p))
                 (JoinPointsToEd.containing geometry within polys r0)) rest)
            <= List.length rest)%nat
      by (apply IH; intros r' Hr'; apply Hone; now right).
    lia.
Qed.

End PointFacts.

Lemma join_points_keeps_rows_within_polygons_witness :
  exists out,
    JoinPointsToEd.main Samples.box Samples.in_box false true true
      MoreSamples.minutes_to_join MoreSamples.overlapping = Wrote out /\
    map snd out = ["ED1"; "ED1"; "ED3"]%string.
Proof.
  destruct (join_points_keeps_rows_within_polygons Samples.box Samples.in_box
              true MoreSamples.minutes_to_join MoreSamples.overlapping)
    as (_ & _ & out & Hrun & _).
  exists out. split; [exact Hrun|].
  vm_compute in Hrun. injection Hrun as <-. vm_compute. reflexivity.
Defined.

(** ** Time to vanish *)

Module TtvFacts.
Import Ttv.

Lemma fold_min_spec (r : list Q) (x : Q) :
  (forall y, In y (x :: r) -> fold_left Qmin r x <= y) /\
  exists y, In y (x :: r) /\ fold_left Qmin r x == y.
Proof.
  revert x. induction r as [|z r IH]; intros x.
  - split; [intros y [<- | []]; apply Qle_refl|].
    exists x. split; [now left | reflexivity].
  - cbn [fold_left]. destruct (IH (Qmin x z)) as [Hle (y & Hy & Heq)].
    split.
    + intros y' [<- | [<- | Hin]].
      * eapply Qle_trans; [apply Hle; now left | apply Q.le_min_l].
      * eapply Qle_trans; [apply Hle; now left | apply Q.le_min_r].
      * apply Hle. now right.
    + destruct Hy as [<- | Hin].
      * destruct (Q.min_spec x z) as [[_ Hm] | [_ Hm]].
        -- exists x. split; [now left | now rewrite Heq].
        -- exists z. split; [right; now left | now rewrite Heq].
      * exists y. split; [right; now right | exact Heq].
Qed.

Lemma fold_max_spec (r : list Q) (x : Q) :
  (forall y, In y (x :: r) -> y <= fold_left Qmax r x) /\
  exists y, In y (x :: r) /\ fold_left Qmax r x == y.
Proof.
  revert x. induction r as [|z r IH]; intros x.
  - split; [intros y [<- | []]; apply Qle_refl|].
    exists x. split; [now left | reflexivity].
  - cbn [fold_left]. destruct (IH (Qmax x z)) as [Hle (y & Hy & Heq)].
    split.
    + intros y' [<- | [<- | Hin]].
      * eapply Qle_trans; [apply Q.le_max_l | apply Hle; now left].
      * eapply Qle_trans; [apply Q.le_max_r | apply Hle; now left].
      * apply Hle. now right.
    + destruct Hy as [<- | Hin].
      * destruct (Q.max_spec x z) as [[_ Hm] | [_ Hm]].
        -- exists z. split; [right; now left | now rewrite Heq].
        -- exists x. split; [now left | now rewrite Heq].
      * exists y. split; [right; now right | exact Heq].
Qed.

Lemma ts_min_spec (l : list Q) (m : Q) :
  ts_min l = Some m ->
  (forall y, In y l -> m <= y) /\ exists y, In y l /\ m == y.
Proof.
  destruct l as [|x r]; [discriminate|]. intros [= <-].
  apply fold_min_spec.
Qed.

Lemma ts_max_spec (l : list Q) (m : Q) :
  ts_max l = Some m ->
  (forall y, In y l -> y <= m) /\ exists y, In y l /\ m == y.
Proof.
  destruct l as [|x r]; [discriminate|]. intros [= <-].
  apply fold_max_spec.
Qed.

Lemma group_key_eqb_spec (a b : key) : key_eqb a b = true <-> a = b.
Proof.
  destruct a as [a1 a2], b as [b1 b2]. unfold key_eqb. cbn [fst snd].
  rewrite andb_true_iff, !String.eqb_eq.
  split; [intros [-> ->]; reflexivity | intros H; inversion H; auto].
Qed.

Lemma in_group_spec (k : key) (r : minute) :
  in_group k r = true <-> key_of r = Some k.
Proof.
  unfold in_group. destruct (key_of r) as [k'|].
  - rewrite group_key_eqb_spec. split; [now intros -> | now intros [= ->]].
  - split; discriminate.
Qed.

Lemma in_present (x : string) (l : list (option string)) :
  In x (AppStats.present l) <-> In (Some x) l.
Proof.
  unfold AppStats.present. rewrite in_flat_map. split.
  - intros ([y|] & Hin & Hx); [| destruct Hx].
    destruct Hx as [<- | []]. exact Hin.
  - intros Hin. exists (Some x). split; [exact Hin | now left].
Qed.

Lemma mode_In (l : list string) (x : string) : In x (mode l) -> In x l.
Proof.
  unfold mode. intros H. apply in_sort_by in H. apply filter_In in H.
  destruct H as [H _].
  exact (proj1 (in_uniq String.eqb String.eqb_eq x _) H).
Qed.

Lemma route_of_In (anchors : list minute) (rt : string) :
  route_of anchors = Some rt ->
  exists a, In a anchors /\ route_id a = Some rt.
Proof.
  unfold route_of.
  destruct (mode (AppStats.present (map route_id anchors))) as [|m ms] eqn:E.
  - destruct anchors as [|a rest]; [discriminate|].
    intros H. exists a. split; [now left | exact H].
  - intros [= <-].
    assert (Hin : In m (mode (AppStats.present (map route_id anchors))))
      by (rewrite E; now left).
    apply mode_In, in_present, in_map_iff in Hin.
    destruct Hin as (a & Ha & Hin). exists a. auto.
Qed.

Lemma length_flat_map_le {A B : Type} (f : A -> list B) (l : list A) :
  (forall x, In x l -> (List.length (f x) <= 1)%nat) ->
  (List.length (flat_map f l) <= List.length l)%nat.
Proof.
  induction l as [|x r IH]; intros H; [cbn; lia|].
  cbn [flat_map]. rewrite length_app. cbn [List.length].
  pose proof (H x (or_introl eq_refl)).
  assert (List.length (flat_map f r) <= List.length r)%nat
    by (apply IH; intros y Hy; apply H; now right).
  lia.
Qed.

Lemma length_row_of (dfa : list minute) (k : key) :
  (List.length (row_of dfa k) <= 1)%nat.
Proof.
  unfold row_of.
  destruct (ts_min _); [| cbn; lia].
  destruct (ts_max _); [| cbn; lia].
  destruct (route_of _); [| cbn; lia].
  cbv zeta. destruct (_ && _); cbn; lia.
Qed.

(** The span of a group: first sample to last anchor. *)
Lemma span_nonnegative (dfa : list minute) (k : key) (m0 m1 : Q) :
  ts_min (map ts (filter (in_group k) dfa)) = Some m0 ->
  ts_max (map ts (filter vanish_anchor (filter (in_group k) dfa))) = Some m1 ->
  m0 <= m1.
Proof.
  intros H0 H1.
  destruct (ts_min_spec _ _ H0) as [Hle _].
  destruct (ts_max_spec _ _ H1) as [_ (y & Hy & Heq)].
  rewrite Heq. apply Hle.
  apply in_map_iff in Hy. destruct Hy as (a & <- & Ha).
  apply filter_In in Ha. destruct Ha as [Ha _]. now apply in_map.
Qed.

Lemma row_of_spec (dfa : list minute) (k : key) (x : ttv) :
  In x (row_of dfa k) ->
  0 <= mins x < 360 /\
  exists a f,
    In a dfa /\ In f dfa /\ key_of a = Some k /\ key_of f = Some k /\
    vanish_anchor a = true /\
    mins x == (ts a - ts f) / 60 /\
    (forall r, In r dfa -> key_of r = Some k -> ts f <= ts r) /\
    (forall r, In r dfa -> key_of r = Some k -> vanish_anchor r = true ->
               ts r <= ts a) /\
    exists a', In a' dfa /\ key_of a' = Some k /\
               vanish_anchor a' = true /\ route_id a' = Some (route x).
Proof.
  unfold row_of.
  set (g := filter (in_group k) dfa).
  set (anchors := filter vanish_anchor g).
  destruct (ts_min (map ts g)) as [m0|] eqn:E0; [| intros []].
  destruct (ts_max (map ts anchors)) as [m1|] eqn:E1; [| intros []].
  destruct (route_of anchors) as [rt|] eqn:Er; [| intros []].
  cbv zeta.
  destruct (Cell.geb ((m1 - m0) / 60) 0 && Cell.ltb ((m1 - m0) / 60) (6 * 60))
    eqn:Eb; [| intros []].
  intros [<- | []]. cbn [mins route].
  apply andb_true_iff in Eb. destruct Eb as [Hlo Hhi].
  unfold Cell.geb in Hlo. apply Qle_bool_iff in Hlo.
  unfold Cell.ltb in Hhi. apply negb_true_iff in Hhi.
  apply Qle_bool_false in Hhi.
  split; [split; [exact Hlo | lra]|].
  assert (Hg : forall r, In r g <-> In r dfa /\ key_of r = Some k).
  { intros r. unfold g. rewrite filter_In, in_group_spec. reflexivity. }
  assert (Han : forall r, In r anchors <->
                          In r dfa /\ key_of r = Some k /\
                          vanish_anchor r = true).
  { intros r. unfold anchors. rewrite filter_In, Hg. tauto. }
  destruct (ts_min_spec _ _ E0) as [Hmin (y0 & Hy0 & Heq0)].
  destruct (ts_max_spec _ _ E1) as [Hmax (y1 & Hy1 & Heq1)].
  apply in_map_iff in Hy0. destruct Hy0 as (f & <- & Hf).
  apply in_map_iff in Hy1. destruct Hy1 as (a & <- & Ha).
  apply Hg in Hf. apply Han in Ha.
  destruct Hf as [Hf Hkf]. destruct Ha as (Ha & Hka & Haa).
  exists a, f. repeat (split; [assumption|]).
  split; [now rewrite Heq0, Heq1|]. split; [| split].
  - intros r Hr Hk. rewrite <- Heq0. apply Hmin. apply in_map.
    apply Hg. auto.
  - intros r Hr Hk Hanchor. rewrite <- Heq1. apply Hmax. apply in_map.
    apply Han. auto.
  - destruct (route_of_In _ _ Er) as (a' & Ha' & Hrt).
    apply Han in Ha'. destruct Ha' as (H1 & H2 & H3).
    exists a'. auto.
Qed.

End TtvFacts.

(** Every row of [ttv_minutes] is the span, in minutes, from the first
    sample of a (vehicle, trip) to its last anchor, with the route of one
    of its anchors, and lies in [0, 360).  A span is never negative, so
    the test [mins >= 0] rejects nothing; there is at most one row per
    (vehicle, trip); and days without anchors give no row. *)
Theorem ttv_minutes_spans :
  forall days : list (list Ttv.minute),
    let dfa := List.concat days in
    (forall x, In x (Ttv.ttv_minutes days) ->
       0 <= Ttv.mins x < 360 /\
       exists k a f,
         In a dfa /\ In f dfa /\
         Ttv.key_of a = Some k /\ Ttv.key_of f = Some k /\
         Ttv.vanish_anchor a = true /\
         Ttv.mins x == (Ttv.ts a - Ttv.ts f) / 60 /\
         (forall r, In r dfa -> Ttv.key_of r = Some k ->
                    Ttv.ts f <= Ttv.ts r) /\
         (forall r, In r dfa -> Ttv.key_of r = Some k ->
                    Ttv.vanish_anchor r = true -> Ttv.ts r <= Ttv.ts a) /\
         exists a', In a' dfa /\ Ttv.key_of a' = Some k /\
                    Ttv.vanish_anchor a' = true /\
                    Ttv.route_id a' = Some (Ttv.route x)) /\
    (forall k m0 m1,
       Ttv.ts_min (map Ttv.ts (filter (Ttv.in_group k) dfa)) = Some m0 ->
       Ttv.ts_max (map Ttv.ts (filter Ttv.vanish_anchor
                                      (filter (Ttv.in_group k) dfa)))
         = Some m1 ->
       m0 <= m1) /\
    (List.length (Ttv.ttv_minutes days) <= List.length (Ttv.keys dfa))%nat /\
    ((forall r, In r dfa -> Ttv.vanish_anchor r = false) ->
     Ttv.ttv_minutes days = []).
Proof.
  intros days dfa.
  assert (Hrun : Ttv.ttv_minutes days
                 = flat_map (Ttv.row_of dfa) (Ttv.keys dfa)).
  { unfold Ttv.ttv_minutes, dfa. destruct days; reflexivity. }
  split; [| split; [| split]].
  - intros x Hx. rewrite Hrun in Hx. apply in_flat_map in Hx.
    destruct Hx as (k & _ & Hx).
    destruct (TtvFacts.row_of_spec dfa k x Hx) as (Hb & a & f & H).
    split; [exact Hb|]. exists k, a, f. exact H.
  - intros k m0 m1. apply TtvFacts.span_nonnegative.
  - rewrite Hrun. apply TtvFacts.length_flat_map_le.
    intros k _. apply TtvFacts.length_row_of.
  - intros Hno. rewrite Hrun.
    assert (Hall : forall k, Ttv.row_of dfa k = []).
    { intros k. unfold Ttv.row_of.
      rewrite (filter_none Ttv.vanish_anchor).
      - cbn [map Ttv.ts_max]. now destruct (Ttv.ts_min _).
      - intros r Hr. apply filter_In in Hr. apply Hno, Hr. }
    clear Hrun. induction (Ttv.keys dfa) as [|k ks IH]; [reflexivity|].
    cbn [flat_map]. rewrite Hall. exact IH.
Qed.

Lemma ttv_minutes_spans_witness :
  map Ttv.mins (Ttv.ttv_minutes [MoreSamples.ttv_day])
  = [(33900 - 32400) / 60] /\
  (forall x, In x (Ttv.ttv_minutes [MoreSamples.ttv_day]) ->
     0 <= Ttv.mins x < 360).
Proof.
  split; [vm_compute; reflexivity|].
  intros x Hx.
  exact (proj1 (proj1 (ttv_minutes_spans [MoreSamples.ttv_day]) x Hx)).
Defined.
